(** * translate/storage/jsonl10n.py: JSON localisation stores

    A shallow embedding of the JSON stores of the Translate Toolkit
    (plain and nested JSON, i18next, go-i18n, ARB) and the properties
    of extraction and serialisation that follow from the code. *)

From Stdlib Require Import String Ascii List Arith ZArith Lia Bool DecimalString.
Import ListNotations.
Open Scope string_scope.
Open Scope list_scope.

(** ** Parsed JSON values

    What [json.loads(input, object_pairs_hook=OrderedDict)] returns.  An
    object is an [OrderedDict]: an association list whose keys are
    pairwise distinct, in insertion order.  A float is carried by its
    [repr]. *)

Unset Elimination Schemes.
Inductive json : Type :=
| JNull
| JBool (b : bool)
| JInt (z : Z)
| JFloat (repr : string)
| JStr (s : string)
| JList (l : list json)
| JDict (d : list (string * json)).
Set Elimination Schemes.

Definition dict := list (string * json).

(** ** Python's [str] methods used by the module

    A text is the sequence of its characters; a character is one of the
    256 code points that [ascii] has, from U+0000 to U+00FF. *)

Module Str.

(** [c in s] for a one-character [c]. *)
Fixpoint contains_char (c : ascii) (s : string) : bool :=
  match s with
  | EmptyString => false
  | String a s' => if Ascii.eqb a c then true else contains_char c s'
  end.

(** [sub in s]. *)
Fixpoint contains (sub s : string) : bool :=
  if prefix sub s then true
  else match s with
       | EmptyString => false
       | String _ s' => contains sub s'
       end.

(** [s.lstrip(c)]. *)
Fixpoint lstrip (c : ascii) (s : string) : string :=
  match s with
  | EmptyString => EmptyString
  | String a s' => if Ascii.eqb a c then lstrip c s' else s
  end.

(** [s.split(c)]: never empty, [[""]] on the empty string. *)
Fixpoint split (c : ascii) (s : string) : list string :=
  match s with
  | EmptyString => [EmptyString]
  | String a s' =>
      if Ascii.eqb a c then EmptyString :: split c s'
      else match split c s' with
           | h :: t => String a h :: t
           | [] => [String a EmptyString]
           end
  end.

(** [s.rsplit(c, 1)] when [c in s]: the text before and after the last
    [c]; [None] when [c] does not occur (Python then returns [[s]]). *)
Fixpoint rsplit1 (c : ascii) (s : string) : option (string * string) :=
  match s with
  | EmptyString => None
  | String a s' =>
      match rsplit1 c s' with
      | Some (before, after) => Some (String a before, after)
      | None => if Ascii.eqb a c then Some (EmptyString, s') else None
      end
  end.

(** [s[-1]]. *)
Fixpoint last (s : string) : option ascii :=
  match s with
  | EmptyString => None
  | String a EmptyString => Some a
  | String _ s' => last s'
  end.

Definition startswith (s p : string) : bool := prefix p s.

Definition endswith (s suffix : string) : bool :=
  let n := String.length s in
  let m := String.length suffix in
  Nat.leb m n && String.eqb (substring (n - m) m s) suffix.

(** [s[:-n]] for [n > 0]. *)
Definition drop_last (n : nat) (s : string) : string :=
  substring 0 (String.length s - n) s.

(** [a.isdigit()] for one character: below U+0100 the digits are [0] to
    [9] and the superscripts two, three and one (U+00B2, U+00B3 and
    U+00B9). *)
Definition is_digit (a : ascii) : bool :=
  let n := nat_of_ascii a in
  (Nat.leb 48 n && Nat.leb n 57)
  || Nat.eqb n 178 || Nat.eqb n 179 || Nat.eqb n 185.

Fixpoint all_digits (s : string) : bool :=
  match s with
  | EmptyString => true
  | String a s' => is_digit a && all_digits s'
  end.

(** [s.isdigit()]. *)
Definition isdigit (s : string) : bool :=
  negb (String.eqb s EmptyString) && all_digits s.

(** [s.replace(a, b)] for one-character [a] and [b]. *)
Fixpoint replace (a b : ascii) (s : string) : string :=
  match s with
  | EmptyString => EmptyString
  | String c s' => String (if Ascii.eqb c a then b else c) (replace a b s')
  end.

(** [str(n)] for an index [n]. *)
Definition of_nat (n : nat) : string := NilEmpty.string_of_uint (Nat.to_uint n).

End Str.

(** ** Ordered dictionaries *)

Module Dict.

(** [d.get(k)] / [d[k]]. *)
Fixpoint get (k : string) (d : dict) : option json :=
  match d with
  | [] => None
  | (k', v) :: d' => if String.eqb k' k then Some v else get k d'
  end.

(** [k in d]. *)
Definition mem (k : string) (d : dict) : bool :=
  match get k d with Some _ => true | None => false end.

(** [d[k] = v]: a key already present keeps its place, a new key goes
    last. *)
Fixpoint set (k : string) (v : json) (d : dict) : dict :=
  match d with
  | [] => [(k, v)]
  | (k', v') :: d' =>
      if String.eqb k' k then (k', v) :: d' else (k', v') :: set k v d'
  end.

Definition keys (d : dict) : list string := map fst d.

(** [OrderedDict(pairs)]. *)
Definition of_pairs (pairs : list (string * json)) : dict :=
  fold_left (fun d kv => set (fst kv) (snd kv) d) pairs [].

End Dict.

(** Truth value of a parsed JSON value ([if x:]). *)
Definition truthy (v : json) : bool :=
  match v with
  | JNull => false
  | JBool b => b
  | JInt z => negb (Z.eqb z 0)
  | JFloat r => negb (String.eqb r "0.0" || String.eqb r "-0.0")
  | JStr s => negb (String.eqb s EmptyString)
  | JList l => match l with [] => false | _ => true end
  | JDict d => match d with [] => false | _ => true end
  end.

(** ** JsonFile.serialize: the local function [merge]

    [merge(d1, d2)] updates [d1] in place.  Every fragment it is given
    comes fresh from [getvalue], so the update of [d1] is modelled by
    returning the new [d1].  [merge_value v1 v2] is the value found at
    [d1[k]] once the loop body has run for a key [k] present on both
    sides with [d1[k] = v1] and [d2[k] = v2]. *)

Fixpoint merge_value (v1 v2 : json) {struct v2} : json :=
  match v1, v2 with
  | JDict d1, JDict d2 =>
      JDict (fold_left
               (fun d1 kv =>
                  match Dict.get (fst kv) d1 with
                  | Some v1 => Dict.set (fst kv) (merge_value v1 (snd kv)) d1
                  | None => Dict.set (fst kv) (snd kv) d1
                  end) d2 d1)
  | JList l1, JList l2 => JList (l1 ++ l2)
  | _, _ => v2
  end.

(** One turn of [for k in d2]. *)
Definition merge_step (d1 : dict) (kv : string * json) : dict :=
  match Dict.get (fst kv) d1 with
  | Some v1 => Dict.set (fst kv) (merge_value v1 (snd kv)) d1
  | None => Dict.set (fst kv) (snd kv) d1
  end.

Definition merge (d1 d2 : dict) : dict := fold_left merge_step d2 d1.

(** ** Values held by a unit

    A unit's target is either a value taken from the parsed document or a
    [multistring]. *)

(** Modelled from the spec: [translate.misc.multistring.multistring], the
    "ordered multi-string value" of a plural group (the class is not part
    of this module).  It is a [str] whose text is its first form and whose
    [strings] are all the forms, each of them a text. *)
Inductive value : Type :=
| VJson (v : json)
| VMulti (strings : list string).

(** [type(x)] of a value, as far as the module looks at it. *)
Inductive pytype : Type :=
| TNone | TBool | TInt | TFloat | TStr | TList | TDict | TMultistring.

Definition pytype_eqb (a b : pytype) : bool :=
  match a, b with
  | TNone, TNone | TBool, TBool | TInt, TInt | TFloat, TFloat
  | TStr, TStr | TList, TList | TDict, TDict
  | TMultistring, TMultistring => true
  | _, _ => false
  end.

Definition type_of (x : value) : pytype :=
  match x with
  | VJson JNull => TNone
  | VJson (JBool _) => TBool
  | VJson (JInt _) => TInt
  | VJson (JFloat _) => TFloat
  | VJson (JStr _) => TStr
  | VJson (JList _) => TList
  | VJson (JDict _) => TDict
  | VMulti _ => TMultistring
  end.

(** [issubclass(t, str)]. *)
Definition issubclass_str (t : pytype) : bool :=
  match t with TStr | TMultistring => true | _ => false end.

Definition is_none (x : value) : bool :=
  match x with VJson JNull => true | _ => false end.

Definition value_truthy (x : value) : bool :=
  match x with
  | VJson v => truthy v
  | VMulti strings =>
      match strings with
      | s :: _ => negb (String.eqb s EmptyString)
      | [] => false
      end
  end.

(** A value as [json.dumps] sees it: a multistring is the [str] of its
    first form. *)
Definition as_json (x : value) : json :=
  match x with
  | VJson v => v
  | VMulti strings => JStr (hd EmptyString strings)
  end.

(** What the module takes from its surroundings without fixing it:
    - [py_str v]: [str(v)] for a parsed value [v] that is not a [str];
    - [py_call t x]: the call [t(x)] of a type [t] among [int], [float],
      [bool], [list] and [OrderedDict] on a value [x] of another type
      ([None] when the call raises);
    - [uuid4]: the text of the identifier drawn by [uuid.uuid4()];
    - [plural_tags]: the table [translate.lang.data.plural_tags], from a
      language code to the names of its plural categories;
    - [json_loads]: [json.loads(input, object_pairs_hook=OrderedDict)],
      the parsed value or the [ValueError] it raises;
    - [detect_encoding]: [TranslationStore.detect_encoding], from bytes
      to the decoded text and the name of the encoding. *)
Definition ValueError := string.

Record Runtime : Type := {
  py_str : json -> string;
  py_call : pytype -> value -> option json;
  uuid4 : string;
  plural_tags : list (string * list string);
  json_loads : string -> ValueError + json;
  detect_encoding : string -> string * string
}.

(** [str(v)]. *)
Definition str (rt : Runtime) (v : json) : string :=
  match v with
  | JStr s => s
  | _ => py_str rt v
  end.

(** Modelled from the spec: [multistring(sources)] for a list of sources
    (the class is not part of this module).  An empty list raises
    [ValueError].  The text of the first form is [str(sources[0])].  Every
    later form is [multistring(source)] again: for a source that is a list,
    the text of its first element, and [ValueError] when it is empty; for
    any other source, [str(source)].  [None] stands for the raise. *)
Definition later_form (rt : Runtime) (source : json) : option string :=
  match source with
  | JList [] => None
  | JList (first :: _) => Some (str rt first)
  | _ => Some (str rt source)
  end.

Fixpoint later_forms (rt : Runtime) (sources : list json) : option (list string) :=
  match sources with
  | [] => Some []
  | source :: sources' =>
      match later_form rt source with
      | Some s =>
          match later_forms rt sources' with
          | Some strings => Some (s :: strings)
          | None => None
          end
      | None => None
      end
  end.

Definition multistring (rt : Runtime) (sources : list json) : option value :=
  match sources with
  | [] => None
  | first :: rest =>
      match later_forms rt rest with
      | Some strings => Some (VMulti (str rt first :: strings))
      | None => None
      end
  end.

(** ** Units *)

(** The key of a unit inside its parent: an object key or an array
    index. *)
Inductive name : Type :=
| Key (k : string)
| Index (i : nat).

(** [_item]: one name, or the list of names of a plural group. *)
Inductive item : Type :=
| One (n : name)
| Many (l : list name).

Inductive unit_class : Type :=
| C_JsonUnit | C_JsonNestedUnit | C_I18NextUnit | C_GoI18NJsonUnit | C_ARBJsonUnit.

(** Modelled from the spec: the fields [notes] and [target] belong to
    [base.TranslationUnit] (translate/storage/base.py is not part of this
    module): a unit starts with empty notes and no target, and keeps what
    is assigned to it. *)
Record Unit : Type := mkUnit {
  cls : unit_class;
  _id : string;
  _item : item;
  _type : pytype;
  notes : json;
  placeholders : json;
  target : value;
  metadata : dict
}.

Definition with_id (u : Unit) (x : string) : Unit :=
  mkUnit (cls u) x (_item u) (_type u) (notes u) (placeholders u) (target u) (metadata u).
Definition with_item (u : Unit) (x : item) : Unit :=
  mkUnit (cls u) (_id u) x (_type u) (notes u) (placeholders u) (target u) (metadata u).
Definition with_target (u : Unit) (x : value) : Unit :=
  mkUnit (cls u) (_id u) (_item u) (_type u) (notes u) (placeholders u) x (metadata u).
Definition with_metadata (u : Unit) (x : dict) : Unit :=
  mkUnit (cls u) (_id u) (_item u) (_type u) (notes u) (placeholders u) (target u) x.

Definition ID_FORMAT (c : unit_class) (identifier : string) : string :=
  match c with
  | C_JsonUnit | C_JsonNestedUnit | C_I18NextUnit => ("." ++ identifier)%string
  | C_GoI18NJsonUnit | C_ARBJsonUnit => identifier
  end.

(** *** I18NextUnit.target (setter) *)

(** [get_base(item)]: [item[0]] must exist and be text. *)
Definition get_base (l : list name) : option string :=
  match l with
  | Key s :: _ => Some (if Str.contains "_0" s then Str.drop_last 2 s else s)
  | Index _ :: _ => None
  | [] => None
  end.

Definition get_plurals (count : nat) (base : string) : list string :=
  if Nat.leb count 2 then firstn count [base; (base ++ "_plural")%string]
  else map (fun i => (base ++ "_" ++ Str.of_nat i)%string) (seq 0 count).

(** [None] when [get_base] raises. *)
Definition I18NextUnit_set_target (u : Unit) (x : value) : option Unit :=
  match x with
  | VMulti strings =>
      let count := List.length strings in
      let l := match _item u with One n => [n] | Many l => l end in
      if Nat.eqb count (List.length l) then
        Some (with_target (with_item u (Many l)) x)
      else
        match get_base l with
        | Some base =>
            Some (with_target
                    (with_item u (Many (map Key (get_plurals count base)))) x)
        | None => None
        end
  | VJson _ =>
      match _item u with
      | Many l =>
          match get_base l with
          | Some base => Some (with_target (with_item u (One (Key base))) x)
          | None => None
          end
      | One _ => Some (with_target u x)
      end
  end.

(** [unit.target = x]: a plain attribute, except for [I18NextUnit] where it
    is a property. *)
Definition set_target (u : Unit) (x : value) : option Unit :=
  match cls u with
  | C_I18NextUnit => I18NextUnit_set_target u x
  | _ => Some (with_target u x)
  end.

(** *** JsonUnit *)

(** [source.setter]. *)
Definition set_source (u : Unit) (source : value) : option Unit :=
  set_target u source.

(** Modelled from the spec: [base.TranslationUnit.__init__(source)]
    (translate/storage/base.py is not part of this module) keeps the
    source it is given, through the [source] property, and nothing when it
    is given [None]. *)
Definition TranslationUnit_init (u : Unit) (source : value) : option Unit :=
  if is_none source then Some u else set_source u source.

(** [__init__(source, item, notes, placeholders)], with [metadata] for
    [ARBJsonUnit.__init__] ([self.metadata = metadata or {}]). *)
Definition JsonUnit_init (rt : Runtime) (c : unit_class)
    (source : value) (item_ : option item) (notes_ : json)
    (placeholders_ : json) (metadata_ : dict) : option Unit :=
  let identifier := uuid4 rt in
  let u :=
    {| cls := c;
       _id := ID_FORMAT c identifier;
       _item := match item_ with None => One (Key identifier) | Some i => i end;
       _type := if is_none source then TStr else type_of source;
       notes := if truthy notes_ then notes_ else JStr EmptyString;
       placeholders := placeholders_;
       target := VJson JNull;
       metadata := [] |} in
  let u1 :=
    if value_truthy source then
      if issubclass_str (_type u) then set_target u source
      else set_target u (VJson (JStr (str rt (as_json source))))
    else Some u in
  match u1 with
  | None => None
  | Some u1 =>
      match TranslationUnit_init u1 source with
      | None => None
      | Some u2 =>
          match c with
          | C_ARBJsonUnit => Some (with_metadata u2 metadata_)
          | _ => Some u2
          end
      end
  end.

Definition setid (u : Unit) (x : string) : Unit := with_id u x.
Definition getid (u : Unit) : string := _id u.

Definition JsonUnit_getkey (u : Unit) : string := Str.lstrip "." (getid u).

(** [converttarget()].  In [_type(target)], when [_type] is not a [str], a
    value that already has that type is returned as it is (for a list or a
    dict, as an equal copy); every other call is the runtime's. *)
Definition converttarget (rt : Runtime) (u : Unit) : option value :=
  if issubclass_str (_type u) then Some (target u)
  else if pytype_eqb (type_of (target u)) (_type u)
          && negb (pytype_eqb (_type u) TNone)
  then Some (target u)
  else option_map VJson (py_call rt (_type u) (target u)).

Definition JsonUnit_getvalue (rt : Runtime) (u : Unit) : option json :=
  match converttarget rt u with
  | Some x => Some (JDict [(JsonUnit_getkey u, as_json x)])
  | None => None
  end.

(** *** JsonNestedUnit *)

Definition JsonNestedUnit_getkey (u : Unit) : list string :=
  Str.split "." (Str.lstrip "." (getid u)).

(** One turn of [for k in reversed(self.getkey())]. *)
Definition nest_key (k : string) (ret : json) : json :=
  if Str.contains_char "[" k &&
     match Str.last k with Some c => Ascii.eqb c "]" | None => false end
  then JDict [(hd EmptyString (Str.split "[" k), JList [ret])]
  else JDict [(k, ret)].

Definition JsonNestedUnit_getvalue (rt : Runtime) (u : Unit) : option json :=
  match converttarget rt u with
  | Some x => Some (fold_right nest_key (as_json x) (JsonNestedUnit_getkey u))
  | None => None
  end.

(** *** I18NextUnit *)

(** The key under which [json.dumps] writes a name: an [int] key is
    written as its decimal text. *)
Definition written_key (n : name) : string :=
  match n with
  | Key k => k
  | Index i => Str.of_nat i
  end.

(** [ret[self._item[i]] = value] for every form; [None] when [_item] is
    too short ([IndexError]).  A name that is an index is carried by its
    text, as [json.dumps] writes it (Python keeps an [int] key apart from
    the text key of the same spelling until [json.dumps] writes both alike;
    here the two are one key).  The setter of [target] leaves a list in
    [_item] whenever the target is a multistring, so [getvalue] finds a
    list there. *)
Fixpoint plural_entries (names : list name) (strings : list string) (ret : dict)
  : option dict :=
  match strings with
  | [] => Some ret
  | s :: strings' =>
      match names with
      | n :: names' =>
          plural_entries names' strings' (Dict.set (written_key n) (JStr s) ret)
      | [] => None
      end
  end.

Definition I18NextUnit_getvalue (rt : Runtime) (u : Unit) : option json :=
  match target u with
  | VMulti strings =>
      match _item u with
      | Many names =>
          match plural_entries names strings [] with
          | Some ret =>
              let path := removelast (Str.split "." (Str.lstrip "." (getid u))) in
              Some (fold_right (fun k ret => JDict [(k, ret)]) (JDict ret) path)
          | None => None
          end
      | One _ => None
      end
  | VJson _ => JsonNestedUnit_getvalue rt u
  end.

(** *** GoI18NJsonUnit

    [tags] is [self._store.plural_tags], [None] when reading it raises;
    it is read only for a multistring. *)

(** [[(plural, strings[offset]) for offset, plural in enumerate(tags)]];
    [None] when an offset is out of range. *)
Fixpoint pair_tags (tags : list string) (strings : list string) (offset : nat)
  : option (list (string * json)) :=
  match tags with
  | [] => Some []
  | plural :: tags' =>
      match nth_error strings offset with
      | Some s =>
          match pair_tags tags' strings (S offset) with
          | Some rest => Some ((plural, JStr s) :: rest)
          | None => None
          end
      | None => None
      end
  end.

(** The value stored under ['translation']. *)
Definition GoI18NJsonUnit_translation (tags : option (list string)) (u : Unit)
  : option json :=
  match target u with
  | VMulti target_strings =>
      match tags with
      | Some tags =>
          let strings :=
            if Nat.ltb (List.length target_strings) (List.length tags)
            then target_strings ++
                 repeat EmptyString (List.length tags - List.length target_strings)
            else target_strings in
          option_map (fun pairs => JDict (Dict.of_pairs pairs))
                     (pair_tags tags strings 0)
      | None => None
      end
  | VJson v => Some v
  end.

Definition GoI18NJsonUnit_getvalue (tags : option (list string)) (u : Unit)
  : option json :=
  match GoI18NJsonUnit_translation tags u with
  | Some translation =>
      let value := [("id", JStr (getid u))] in
      let value :=
        if truthy (notes u) then Dict.set "description" (notes u) value
        else value in
      Some (JDict (Dict.set "translation" translation value))
  | None => None
  end.

(** *** ARBJsonUnit

    [getvalue] writes the notes into [self.metadata] before it returns:
    the unit is returned with the value. *)
Definition ARBJsonUnit_getvalue (u : Unit) : Unit * json :=
  let u :=
    if truthy (notes u)
    then with_metadata u (Dict.set "description" (notes u) (metadata u))
    else u in
  let identifier := getid u in
  if String.eqb identifier "@" then (u, JDict (metadata u))
  else (u, JDict (Dict.of_pairs [(identifier, as_json (target u));
                                 (("@" ++ identifier)%string, JDict (metadata u))])).

Definition ARBJsonUnit_isheader (u : Unit) : bool := String.eqb (_id u) "@".

(** [unit.getvalue()], by the class of the unit. *)
Definition getvalue (rt : Runtime) (tags : option (list string)) (u : Unit)
  : option json :=
  match cls u with
  | C_JsonUnit => JsonUnit_getvalue rt u
  | C_JsonNestedUnit => JsonNestedUnit_getvalue rt u
  | C_I18NextUnit => I18NextUnit_getvalue rt u
  | C_GoI18NJsonUnit => GoI18NJsonUnit_getvalue tags u
  | C_ARBJsonUnit => Some (snd (ARBJsonUnit_getvalue u))
  end.

(** ** Stores *)

(** The classes of stores whose extraction is part of this development.
    Of the go-i18n store only the writing of units is: [plural_tags],
    [GoI18NJsonUnit.getvalue] and [serialize]. *)
Inductive file_class : Type :=
| F_JsonFile | F_JsonNestedFile | F_I18NextFile | F_ARBJsonFile.

Definition UnitClass (fc : file_class) : unit_class :=
  match fc with
  | F_JsonFile => C_JsonUnit
  | F_JsonNestedFile => C_JsonNestedUnit
  | F_I18NextFile => C_I18NextUnit
  | F_ARBJsonFile => C_ARBJsonUnit
  end.

(** Modelled from the spec: the list of units, the encoding and the target
    language belong to [base.TranslationStore] (translate/storage/base.py
    is not part of this module): [addunit] appends to [units], and
    [gettargetlanguage] returns the language that was set, if any. *)
Record Store : Type := mkStore {
  store_class : file_class;
  units : list Unit;
  _filter : option (list string);
  filename : string;
  _file : json;
  encoding : string;
  targetlanguage : option string
}.

Definition addunit (st : Store) (u : Unit) : Store :=
  mkStore (store_class st) (units st ++ [u]) (_filter st) (filename st)
          (_file st) (encoding st) (targetlanguage st).

Definition gettargetlanguage (st : Store) : option string := targetlanguage st.

(** [table.get(k)] on the table of plural tags. *)
Fixpoint tags_get (k : string) (table : list (string * list string))
  : option (list string) :=
  match table with
  | [] => None
  | (k', v) :: table' => if String.eqb k' k then Some v else tags_get k table'
  end.

(** [GoI18NJsonFile.plural_tags]; [None] when [plural_tags['en']]
    raises. *)
Definition GoI18NJsonFile_plural_tags (rt : Runtime) (st : Store)
  : option (list string) :=
  let locale :=
    match gettargetlanguage st with
    | Some l =>
        if negb (String.eqb l EmptyString)
        then hd EmptyString (Str.split "-" (Str.replace "_" "-" l))
        else "en"
    | None => "en"
    end in
  match tags_get "en" (plural_tags rt) with
  | Some default =>
      match tags_get locale (plural_tags rt) with
      | Some tags => Some tags
      | None => Some default
      end
  | None => None
  end.

(** [GoI18NJsonFile.serialize]: one record per unit, in unit order. *)
Fixpoint GoI18NJsonFile_serialize_units (tags : option (list string))
    (us : list Unit) : option (list json) :=
  match us with
  | [] => Some []
  | u :: us' =>
      match GoI18NJsonUnit_getvalue tags u with
      | Some v =>
          match GoI18NJsonFile_serialize_units tags us' with
          | Some vs => Some (v :: vs)
          | None => None
          end
      | None => None
      end
  end.

Definition GoI18NJsonFile_serialize (rt : Runtime) (st : Store) : option json :=
  option_map JList
    (GoI18NJsonFile_serialize_units (GoI18NJsonFile_plural_tags rt st) (units st)).

(** *** JsonFile._extract_units and I18NextFile._extract_units

    A generator is modelled by the list of what it yields, [None] when it
    raises.  The recursive calls go through [self]: in an [I18NextFile]
    they reach the override, whatever method makes them, so both methods
    are one function of the class of the store. *)

(** [name in stop]. *)
Definition name_in (n : option name) (stop : list string) : bool :=
  match n with
  | Some (Key k) => existsb (String.eqb k) stop
  | _ => false
  end.

Definition isinstance_dict (v : option json) : bool :=
  match v with Some (JDict _) => true | _ => false end.

Definition isinstance_list (v : option json) : bool :=
  match v with Some (JList _) => true | _ => false end.

(** The filter of the last branch of [JsonFile._extract_units]. *)
Definition passes_filter (stop : option (list string))
    (name_node name_last_node : option name) (last_node : option json) : bool :=
  match stop with
  | None => true
  | Some stop =>
      (isinstance_dict last_node && name_in name_node stop)
      || (isinstance_list last_node && name_in name_last_node stop)
  end.

(** [unit = self.UnitClass(data, name_node); unit.setid(prev)]. *)
Definition leaf_unit (rt : Runtime) (c : unit_class) (data : json)
    (name_node : option name) (prev : string) : option Unit :=
  match JsonUnit_init rt c (VJson data) (option_map One name_node)
                      JNull JNull [] with
  | Some unit => Some (setid unit prev)
  | None => None
  end.

(** [list.remove(x)]: [None] when [x] is not in the list. *)
Fixpoint list_remove (x : string) (l : list string) : option (list string) :=
  match l with
  | [] => None
  | y :: l' =>
      if String.eqb y x then Some l'
      else match list_remove x l' with
           | Some r => Some (y :: r)
           | None => None
           end
  end.

Definition list_mem (x : string) (l : list string) : bool :=
  existsb (String.eqb x) l.

(** [key.rsplit('_', 1)[0]]. *)
Definition rsplit_head (key : string) : string :=
  match Str.rsplit1 "_" key with
  | Some (before, _) => before
  | None => key
  end.

(** [[key.rsplit('_', 1)[0] for key in data if key.endswith(suffix)]]. *)
Definition plural_bases (suffix : string) (data : dict) : list string :=
  map rsplit_head (filter (fun key => Str.endswith key suffix) (Dict.keys data)).

(** The loop [for key in plurals] of [I18NextFile._extract_units]: it
    stops at the first key that is not in [data]. *)
Fixpoint collect_plurals (data : dict) (plurals : list string)
  : list json * list string :=
  match plurals with
  | [] => ([], [])
  | key :: plurals' =>
      match Dict.get key data with
      | None => ([], [])
      | Some v =>
          let (sources, items) := collect_plurals data plurals' in
          (v :: sources, key :: items)
      end
  end.

(** How [I18NextFile._extract_units] reads a key [k] that is not in
    [processed]: the keys of its plural group, the base of the group and
    the two lists of bases still to find, or nothing for an ordinary key;
    [None] when [plurals_simple.remove] raises. *)
Inductive key_kind : Type :=
| Plural (plurals : list string) (plural_base : string)
         (plurals_multiple plurals_simple : list string)
| Ordinary.

Definition classify_key (k : string) (plurals_multiple plurals_simple : list string)
  : option key_kind :=
  if list_mem k plurals_simple
     || list_mem (k ++ "_plural")%string plurals_simple
  then
    let plural_base := if Str.endswith k "_plural" then Str.drop_last 7 k else k in
    match list_remove plural_base plurals_simple with
    | Some plurals_simple' =>
        Some (Plural [k; (k ++ "_plural")%string] plural_base
                     plurals_multiple plurals_simple')
    | None => None
    end
  else
    match (if Str.contains_char "_" k then Str.rsplit1 "_" k else None) with
    | Some (plural_base, digit) =>
        if list_mem plural_base plurals_multiple && Str.isdigit digit
        then
          match list_remove plural_base plurals_multiple with
          | Some plurals_multiple' =>
              Some (Plural
                      (map (fun order => (plural_base ++ "_" ++ Str.of_nat order)%string)
                           (seq 0 10))
                      plural_base plurals_multiple' plurals_simple)
          | None => None
          end
        else Some Ordinary
    | None => Some Ordinary
    end.

(** [unit = self.UnitClass(multistring(sources), items);
     unit.setid("%s.%s" % (prev, plural_base))]. *)
Definition plural_unit (rt : Runtime) (c : unit_class) (sources : list json)
    (items : list string) (prev plural_base : string) : option Unit :=
  match multistring rt sources with
  | Some source =>
      match JsonUnit_init rt c source (Some (Many (map Key items)))
                          JNull JNull [] with
      | Some unit => Some (setid unit (prev ++ "." ++ plural_base)%string)
      | None => None
      end
  | None => None
  end.

Definition option_app {A : Type} (a b : option (list A)) : option (list A) :=
  match a, b with
  | Some x, Some y => Some (x ++ y)
  | _, _ => None
  end.

Fixpoint JsonFile_extract_units (rt : Runtime) (c : unit_class) (i18next : bool)
    (data : json) (stop : option (list string)) (prev : string)
    (name_node name_last_node : option name) (last_node : option json)
    {struct data} : option (list Unit) :=
  match data with
  | JDict d =>
      if i18next then
        (fix items (l : dict) (plurals_multiple plurals_simple processed : list string)
           {struct l} : option (list Unit) :=
           match l with
           | [] => Some []
           | (k, v) :: l' =>
               if list_mem k processed
               then items l' plurals_multiple plurals_simple processed
               else
                 match classify_key k plurals_multiple plurals_simple with
                 | None => None
                 | Some (Plural plurals plural_base pm ps) =>
                     let (sources, found) := collect_plurals d plurals in
                     match plural_unit rt c sources found prev plural_base with
                     | Some unit =>
                         option_app (Some [unit])
                                    (items l' pm ps (processed ++ found))
                     | None => None
                     end
                 | Some Ordinary =>
                     option_app
                       (JsonFile_extract_units rt c i18next v stop
                          (prev ++ "." ++ k)%string (Some (Key k)) None (Some data))
                       (items l' plurals_multiple plurals_simple processed)
                 end
           end) d (plural_bases "_0" d) (plural_bases "_plural" d) []
      else
        (fix items (l : dict) {struct l} : option (list Unit) :=
           match l with
           | [] => Some []
           | (k, v) :: l' =>
               option_app
                 (JsonFile_extract_units rt c i18next v stop
                    (prev ++ "." ++ k)%string (Some (Key k)) None (Some data))
                 (items l')
           end) d
  | JList l =>
      (fix elements (l : list json) (i : nat) {struct l} : option (list Unit) :=
         match l with
         | [] => Some []
         | item :: l' =>
             option_app
               (JsonFile_extract_units rt c i18next item stop
                  (prev ++ "[" ++ Str.of_nat i ++ "]")%string
                  (Some (Index i)) name_node (Some data))
               (elements l' (S i))
         end) l 0
  | _ =>
      if passes_filter stop name_node name_last_node last_node
      then option_map (fun unit => [unit]) (leaf_unit rt c data name_node prev)
      else Some []
  end.

(** *** ARBJsonFile._extract_units *)

(** [data.get("@{}".format(item), {})], [None] when what is found has no
    [get] method of its own to answer the two calls that follow. *)
Definition ARB_metadata (data : dict) (item : string) : option dict :=
  match Dict.get ("@" ++ item)%string data with
  | None => Some []
  | Some (JDict metadata) => Some metadata
  | Some _ => None
  end.

Definition get_default (k : string) (default : json) (d : dict) : json :=
  match Dict.get k d with Some v => v | None => default end.

(** The loop [for item, value in data.items()]. *)
Fixpoint ARB_data_units (rt : Runtime) (data l : dict) : option (list Unit) :=
  match l with
  | [] => Some []
  | (item, value) :: l' =>
      if Str.startswith item "@" then ARB_data_units rt data l'
      else
        match ARB_metadata data item with
        | Some metadata =>
            match JsonUnit_init rt C_ARBJsonUnit (VJson value) (Some (One (Key item)))
                                (get_default "description" (JStr EmptyString) metadata)
                                (get_default "placeholders" JNull metadata)
                                metadata with
            | Some unit => option_app (Some [setid unit item]) (ARB_data_units rt data l')
            | None => None
            end
        | None => None
        end
  end.

Definition ARBJsonFile_extract_units (rt : Runtime) (data : json)
  : option (list Unit) :=
  match data with
  | JDict d =>
      let metadata :=
        Dict.of_pairs (filter (fun kv => Str.startswith (fst kv) "@@") d) in
      let header :=
        if truthy (JDict metadata) then
          option_map (fun unit => [setid unit "@"])
                     (JsonUnit_init rt C_ARBJsonUnit (VJson JNull) None JNull JNull metadata)
        else Some [] in
      option_app header (ARB_data_units rt d d)
  | _ => None
  end.

(** [self._extract_units(data, stop)] with the defaults of the other
    parameters, by the class of the store. *)
Definition _extract_units (rt : Runtime) (fc : file_class) (data : json)
    (stop : option (list string)) : option (list Unit) :=
  match fc with
  | F_JsonFile | F_JsonNestedFile =>
      JsonFile_extract_units rt (UnitClass fc) false data stop EmptyString None None None
  | F_I18NextFile =>
      JsonFile_extract_units rt (UnitClass fc) true data stop EmptyString None None None
  | F_ARBJsonFile => ARBJsonFile_extract_units rt data
  end.

(** *** JsonFile.serialize

    The tree handed to [json.dumps]; [None] when a [getvalue] raises.  The
    stores that use this method have no [plural_tags]. *)
Fixpoint merge_units (rt : Runtime) (us : list Unit) (units_ : dict) : option dict :=
  match us with
  | [] => Some units_
  | unit :: us' =>
      match getvalue rt None unit with
      | Some (JDict d2) => merge_units rt us' (merge units_ d2)
      | _ => None
      end
  end.

Definition JsonFile_serialize (rt : Runtime) (st : Store) : option json :=
  option_map JDict (merge_units rt (units st) []).

(** *** JsonFile.parse *)

(** What [parse] is given, once a file has been read: the [name] of the
    input if it has one, and text or bytes. *)
Inductive content : Type :=
| Text (s : string)
| Bytes (b : string).

Record Input : Type := {
  input_name : option string;
  input_content : content
}.

(** How [parse] ends: normally, with [base.ParseError(e)], or with what
    the extraction raised (the store then holds the units added before
    that). *)
Inductive outcome : Type :=
| Returned (st : Store)
| Raised_ParseError (e : ValueError) (st : Store)
| Raised_in_extraction.

Definition JsonFile_parse (rt : Runtime) (st : Store) (input : Input) : outcome :=
  let st :=
    match input_name input with
    | Some n => mkStore (store_class st) (units st) (_filter st) n
                        (_file st) (encoding st) (targetlanguage st)
    | None => st
    end in
  let (text, st) :=
    match input_content input with
    | Text s => (s, st)
    | Bytes b =>
        let (s, enc) := detect_encoding rt b in
        (s, mkStore (store_class st) (units st) (_filter st) (filename st)
                    (_file st) enc (targetlanguage st))
    end in
  match json_loads rt text with
  | inl e => Raised_ParseError e st
  | inr parsed =>
      let st := mkStore (store_class st) (units st) (_filter st) (filename st)
                        parsed (encoding st) (targetlanguage st) in
      match _extract_units rt (store_class st) parsed (_filter st) with
      | Some us => Returned (fold_left addunit us st)
      | None => Raised_in_extraction
      end
  end.

(** [JsonFile(inputfile, filter)] and its subclasses, before any
    parsing. *)
Definition new_store (fc : file_class) (filter : option (list string)) : Store :=
  mkStore fc [] filter EmptyString (JStr EmptyString) "utf-8" None.

(** ** Notions used to state the properties *)

(** The value [merge] leaves under a key that the right-hand side holds,
    as the deep merge is described: objects are merged, arrays are
    concatenated, anything else is overwritten. *)
Definition deep_merge_at (left : option json) (right : json) : json :=
  match left, right with
  | Some (JDict o1), JDict o2 => JDict (merge o1 o2)
  | Some (JList a1), JList a2 => JList (a1 ++ a2)
  | _, _ => right
  end.

(** The padded or truncated list of forms that [GoI18NJsonUnit.getvalue]
    pairs with the plural tags of the store. *)
Definition forms_for (tags strings : list string) : list string :=
  firstn (List.length tags)
         (strings ++ repeat EmptyString (List.length tags - List.length strings)).

(** The text [parse] hands to [json.loads]. *)
Definition decoded (rt : Runtime) (input : Input) : string :=
  match input_content input with
  | Text s => s
  | Bytes b => fst (detect_encoding rt b)
  end.

(** A leaf of a parsed document. *)
Definition is_leaf (data : json) : bool :=
  match data with
  | JDict _ | JList _ => false
  | _ => true
  end.

(** A runtime for the examples: it has the text of scalars, converts
    nothing, and its parser accepts the empty object only.  The documents
    of the examples hold text leaves, for which neither [py_str] nor
    [py_call] is ever called. *)
Definition example_str (v : json) : string :=
  match v with
  | JNull => "None"
  | JBool true => "True"
  | JBool false => "False"
  | JInt z => NilEmpty.string_of_int (Z.to_int z)
  | JFloat r => r
  | JStr s => s
  | JList _ | JDict _ => EmptyString
  end.

Definition example_runtime : Runtime := {|
  py_str := example_str;
  py_call := fun _ _ => None;
  uuid4 := "9f1c2ab4-5d6e-4f70-8a91-b2c3d4e5f607";
  plural_tags := [("en", ["one"; "other"]); ("cs", ["one"; "few"; "other"])];
  json_loads := fun s => if String.eqb s "{}" then inr (JDict [])
                         else inl "Expecting value: line 1 column 1 (char 0)";
  detect_encoding := fun b => (b, "utf-8")
|}.

(** The document of the examples of the specification:
    [{"a": {"b": "x", "c": ["y", "z"]}}]. *)
Definition doc_abc : json :=
  JDict [("a", JDict [("b", JStr "x"); ("c", JList [JStr "y"; JStr "z"])])].

(** Paths, as the specification has them: a sequence of object keys and
    array indices, written [.k] and [[i]]. *)
Inductive segment : Type :=
| ObjectKey (k : string)
| ArrayIndex (i : nat).

Definition render_segment (s : segment) : string :=
  match s with
  | ObjectKey k => ("." ++ k)%string
  | ArrayIndex i => ("[" ++ Str.of_nat i ++ "]")%string
  end.

Fixpoint render (path : list segment) : string :=
  match path with
  | [] => EmptyString
  | s :: path' => (render_segment s ++ render path')%string
  end.

Definition under (s : segment) (leaf : list segment * json) : list segment * json :=
  (s :: fst leaf, snd leaf).

(** The leaves of a document with their paths, depth first, in document
    order. *)
Fixpoint leaves (T : json) : list (list segment * json) :=
  match T with
  | JDict d =>
      flat_map (fun kv => map (under (ObjectKey (fst kv))) (leaves (snd kv))) d
  | JList l =>
      (fix elements (l : list json) (i : nat) : list (list segment * json) :=
         match l with
         | [] => []
         | item :: l' => map (under (ArrayIndex i)) (leaves item) ++ elements l' (S i)
         end) l 0
  | leaf => [([], leaf)]
  end.

(** The loops of [JsonFile._extract_units] over the items of an object and
    over the elements of an array, on their own. *)
Fixpoint walk_items (rt : Runtime) (c : unit_class) (stop : option (list string))
    (prev : string) (data : json) (l : dict) : option (list Unit) :=
  match l with
  | [] => Some []
  | (k, v) :: l' =>
      option_app
        (JsonFile_extract_units rt c false v stop (prev ++ "." ++ k)%string
                                (Some (Key k)) None (Some data))
        (walk_items rt c stop prev data l')
  end.

Fixpoint walk_elements (rt : Runtime) (c : unit_class) (i18next : bool)
    (stop : option (list string)) (prev : string) (name_node : option name)
    (data : json) (l : list json) (i : nat) : option (list Unit) :=
  match l with
  | [] => Some []
  | item :: l' =>
      option_app
        (JsonFile_extract_units rt c i18next item stop
                                (prev ++ "[" ++ Str.of_nat i ++ "]")%string
                                (Some (Index i)) name_node (Some data))
        (walk_elements rt c i18next stop prev name_node data l' (S i))
  end.

Fixpoint leaves_of_elements (l : list json) (i : nat) : list (list segment * json) :=
  match l with
  | [] => []
  | item :: l' => map (under (ArrayIndex i)) (leaves item) ++ leaves_of_elements l' (S i)
  end.

(** What a unit is known by: its identifier and its value. *)
Definition id_and_value (u : Unit) : string * value := (getid u, target u).

Definition at_path (prev : string) (leaf : list segment * json) : string * value :=
  ((prev ++ render (fst leaf))%string, VJson (snd leaf)).

(** When a filter lets the leaf at [path] through, in the words of the
    specification: there is no filter; or the leaf sits in an object and its
    own key is in the filter; or it sits in an array, the array is the value
    of a key of an object, and that key is in the filter. *)
Definition selected (stop : option (list string)) (path : list segment) : bool :=
  match stop with
  | None => true
  | Some keys =>
      match rev path with
      | ObjectKey k :: _ => list_mem k keys
      | ArrayIndex _ :: ObjectKey k :: _ => list_mem k keys
      | _ => false
      end
  end.

(** What the walk hands down to the value at a path, the path being given
    from its last segment backwards: [name_node], [name_last_node], and the
    kind of [last_node]. *)
Definition name_of_segment (s : segment) : name :=
  match s with
  | ObjectKey k => Key k
  | ArrayIndex i => Index i
  end.

Definition ctx_name (rp : list segment) : option name :=
  match rp with
  | [] => None
  | s :: _ => Some (name_of_segment s)
  end.

Definition ctx_last_name (rp : list segment) : option name :=
  match rp with
  | ArrayIndex _ :: rest => ctx_name rest
  | _ => None
  end.

Definition ctx_fits (rp : list segment) (last_node : option json) : Prop :=
  match rp with
  | [] => last_node = None
  | ObjectKey _ :: _ => isinstance_dict last_node = true
  | ArrayIndex _ :: _ => isinstance_list last_node = true
  end.

(** The ARB document of the examples of the specification:
    [{"@@locale": "en", "greeting": "Hi",
      "@greeting": {"description": "salutes"}}]. *)
Definition doc_arb : json :=
  JDict [("@@locale", JStr "en");
         ("greeting", JStr "Hi");
         ("@greeting", JDict [("description", JStr "salutes")])].

(** What an ARB unit is known by: its identifier, the value it is written
    as, its note and its target. *)
Definition arb_summary (u : Unit) : string * json * json * value :=
  (getid u, snd (ARBJsonUnit_getvalue u), notes u, target u).




(** *** Indexed plural groups, as the i18next store reads an object

    The notions below describe what the store yields for an object [d],
    key by key, in the words of the specification. *)

(** What a unit is known by here: its identifier, its names and its
    value. *)
Definition unit_summary (u : Unit) : string * item * value :=
  (getid u, _item u, target u).












(** A store of the given class that holds the given units. *)
Definition store_of (fc : file_class) (us : list Unit) : Store :=
  fold_left addunit us (new_store fc None).

(** *** Documents that the nested store writes back as they were read

    The root is an object; every object below it has at least one item;
    every array has at least one element and holds leaves only; and a key
    is not empty and has no [.] and no [[] in it, the two characters that
    [getvalue] reads in an identifier. *)
Definition plain_key (k : string) : bool :=
  negb (String.eqb k EmptyString)
  && negb (Str.contains_char "." k)
  && negb (Str.contains_char "[" k).

Fixpoint distinct (l : list string) : bool :=
  match l with
  | [] => true
  | x :: l' => negb (list_mem x l') && distinct l'
  end.

Definition nonempty {A : Type} (l : list A) : bool :=
  match l with [] => false | _ => true end.

Fixpoint plain_value (v : json) : bool :=
  match v with
  | JDict d =>
      nonempty d && distinct (Dict.keys d)
      && forallb (fun kv => plain_key (fst kv) && plain_value (snd kv)) d
  | JList l => nonempty l && forallb is_leaf l
  | _ => true
  end.

Definition plain_document (T : json) : bool :=
  match T with
  | JDict d =>
      distinct (Dict.keys d)
      && forallb (fun kv => plain_key (fst kv) && plain_value (snd kv)) d
  | _ => false
  end.

(** The value of [JsonNestedUnit.getvalue] for a unit with the given
    identifier whose converted target is [v]. *)
Definition fragment (id : string) (v : json) : json :=
  fold_right nest_key v (Str.split "." (Str.lstrip "." id)).

(** [v] under the keys [ks], outermost first. *)
Definition wrap (ks : list string) (v : json) : json :=
  fold_right (fun k ret => JDict [(k, ret)]) v ks.

Fixpoint render_keys (ks : list string) : string :=
  match ks with
  | [] => EmptyString
  | k :: ks' => ("." ++ k ++ render_keys ks')%string
  end.

(** [keys] with [suffix] after the last of them. *)
Fixpoint suffix_last (suffix : string) (ks : list string) : list string :=
  match ks with
  | [] => []
  | [k] => [(k ++ suffix)%string]
  | k :: ks' => k :: suffix_last suffix ks'
  end.

(** One turn of the loop of [JsonFile.serialize], on what [getvalue]
    returned. *)
Definition add_fragment (units_ : option dict) (fragment_ : option json)
  : option dict :=
  match units_, fragment_ with
  | Some d1, Some (JDict d2) => Some (merge d1 d2)
  | _, _ => None
  end.

(** [Z] is what is found after [X] and then [Y] were merged into one
    place, whatever was there before. *)
Definition absorbs (X Y Z : json) : Prop :=
  forall before,
    deep_merge_at (Some (deep_merge_at before X)) Y = deep_merge_at before Z.

(** A document on which the round trip fails: an array that holds an
    object with two keys, [{"a": [{"b": "x", "c": "y"}]}]. *)
Definition doc_array_of_object : json :=
  JDict [("a", JList [JDict [("b", JStr "x"); ("c", JStr "y")]])].

(** The fragment of a leaf below the keys [keys], by its path. *)
Definition fragment_at (keys : list string) (leaf : list segment * json)
  : option json :=
  Some (fragment (render_keys keys ++ render (fst leaf))%string (snd leaf)).


(** [rebuild(extract(T))]: the units of [T] are extracted with no filter
    into a store of the given class, which is then serialised with no unit
    edited. *)
Definition round_trip (rt : Runtime) (fc : file_class) (T : json) : option json :=
  match _extract_units rt fc T None with
  | Some us => JsonFile_serialize rt (store_of fc us)
  | None => None
  end.

(** ** Further notions, for the properties beyond the examples *)

(** The keys of [d2] that [d1] does not hold. *)
Definition new_keys (d1 d2 : dict) : list string :=
  filter (fun k => negb (Dict.mem k d1)) (Dict.keys d2).

(** The key a [JsonUnit] writes its value under: its identifier without
    the dots it starts with. *)
Definition flat_key (leaf : list segment * json) : string :=
  Str.lstrip "." (render (fst leaf)).

(** An object that the flat store writes back as it read it: distinct keys,
    leaves only, and no key that starts with a dot. *)
Definition flat_document (d : dict) : bool :=
  distinct (Dict.keys d)
  && forallb (fun kv => is_leaf (snd kv) && negb (Str.startswith (fst kv) ".")) d.

(** *** ARB bundles *)

(** The object found under [@key], or the empty one when there is none
    ([data.get("@{}".format(item), {})] on a bundle that can be read). *)
Definition arb_metadata_of (d : dict) (key : string) : dict :=
  match Dict.get ("@" ++ key)%string d with
  | Some (JDict m) => m
  | _ => []
  end.

(** A bundle that the ARB extraction reads without raising: what stands
    under [@key], for every key with no [@] in front, is an object. *)
Definition arb_readable (d : dict) : bool :=
  forallb (fun kv =>
             Str.startswith (fst kv) "@"
             || match Dict.get ("@" ++ fst kv)%string d with
                | Some (JDict _) | None => true
                | Some _ => false
                end) d.

(** What the ARB store writes for a bundle [d]: the [@@] items first, then
    every item whose key has no [@] in front, each followed by its [@]
    item. *)
Definition arb_written_for (d : dict) (kv : string * json) : dict :=
  if Str.startswith (fst kv) "@" then []
  else [(fst kv, snd kv); (("@" ++ fst kv)%string, JDict (arb_metadata_of d (fst kv)))].

Definition arb_written (d : dict) : dict :=
  filter (fun kv => Str.startswith (fst kv) "@@") d
  ++ flat_map (arb_written_for d) d.

(** A bundle in the order the ARB store writes: the [@@] items, then the
    messages, each with its [@] item right after it. *)
Definition arb_entry (e : string * json * dict) : dict :=
  let '(key, v, m) := e in [(key, v); (("@" ++ key)%string, JDict m)].

Definition arb_bundle (headers : dict) (entries : list (string * json * dict)) : dict :=
  headers ++ flat_map arb_entry entries.

Definition arb_canonical (headers : dict) (entries : list (string * json * dict))
  : bool :=
  forallb (fun kv => Str.startswith (fst kv) "@@") headers
  && forallb (fun e => negb (Str.startswith (fst (fst e)) "@")) entries
  && distinct (Dict.keys (arb_bundle headers entries)).

(** The keys the ARB store writes for the messages among the keys [l]. *)
Definition arb_message_keys (l : list string) : list string :=
  flat_map (fun k => if Str.startswith k "@" then [] else [k; ("@" ++ k)%string]) l.

(** A message with the empty metadata item that the ARB store gives it. *)
Definition with_empty_metadata (kv : string * json) : dict :=
  [(fst kv, snd kv); (("@" ++ fst kv)%string, JDict [])].

(** A document in which no key of any object ends with [_0] or with
    [_plural], the two endings that [I18NextFile._extract_units] looks
    for. *)
Fixpoint no_plural_keys (v : json) : bool :=
  match v with
  | JDict d =>
      forallb (fun kv => negb (Str.endswith (fst kv) "_0")
                         && negb (Str.endswith (fst kv) "_plural")
                         && no_plural_keys (snd kv)) d
  | JList l => forallb no_plural_keys l
  | _ => true
  end.

(** The keys of the record that [GoI18NJsonUnit.getvalue] writes for a
    unit, in order. *)
Definition go_i18n_record_keys (u : Unit) : list string :=
  if truthy (notes u) then ["id"; "description"; "translation"]%string
  else ["id"; "translation"]%string.

(** The loop [for k, v in data.items()] of [I18NextFile._extract_units] on
    its own: [d] is the object that is walked, [l] what is left of its
    items, and the three lists are [plurals_multiple], [plurals_simple] and
    [processed]. *)
Fixpoint i18next_items (rt : Runtime) (c : unit_class) (stop : option (list string))
    (prev : string) (d l : dict) (plurals_multiple plurals_simple processed : list string)
  : option (list Unit) :=
  match l with
  | [] => Some []
  | (k, v) :: l' =>
      if list_mem k processed
      then i18next_items rt c stop prev d l' plurals_multiple plurals_simple processed
      else
        match classify_key k plurals_multiple plurals_simple with
        | None => None
        | Some (Plural plurals plural_base pm ps) =>
            let (sources, found) := collect_plurals d plurals in
            match plural_unit rt c sources found prev plural_base with
            | Some unit =>
                option_app (Some [unit])
                           (i18next_items rt c stop prev d l' pm ps (processed ++ found))
            | None => None
            end
        | Some Ordinary =>
            option_app
              (JsonFile_extract_units rt c true v stop
                 (prev ++ "." ++ k)%string (Some (Key k)) None (Some (JDict d)))
              (i18next_items rt c stop prev d l' plurals_multiple plurals_simple processed)
        end
  end.

(** The items of an i18next document, read as the store reads them: an
    ordinary item, or the two items [k] and [k_plural] of a plural with two
    forms. *)
Inductive i18next_entry : Type :=
| Single (k : string) (v : json)
| Pair (k : string) (one many : string).

Definition entry_items (e : i18next_entry) : dict :=
  match e with
  | Single k v => [(k, v)]
  | Pair k one many => [(k, JStr one); ((k ++ "_plural")%string, JStr many)]
  end.

Definition i18next_document (es : list i18next_entry) : dict :=
  flat_map entry_items es.

(** The keys that the round trip of such a document asks for: no [_0] and
    no [_plural] at the end of a key, other than the [_plural] of a pair,
    and the keys and values that the nested store writes back. *)
Definition entry_ok (e : i18next_entry) : bool :=
  match e with
  | Single k v =>
      plain_key k && plain_value v && no_plural_keys v
      && negb (Str.endswith k "_0") && negb (Str.endswith k "_plural")
  | Pair k _ _ =>
      plain_key k && negb (Str.endswith k "_0") && negb (Str.endswith k "_plural")
  end.

Definition pair_bases (es : list i18next_entry) : list string :=
  flat_map (fun e => match e with Single _ _ => [] | Pair k _ _ => [k] end) es.

(** A runtime for the examples of parsing: the runtime of the examples
    with a parser that reads the text [[7, 8]] as well. *)
Definition reading_runtime : Runtime := {|
  py_str := example_str;
  py_call := fun _ _ => None;
  uuid4 := uuid4 example_runtime;
  plural_tags := plural_tags example_runtime;
  json_loads := fun s => if String.eqb s "[7, 8]"
                         then inr (JList [JInt 7; JInt 8])
                         else json_loads example_runtime s;
  detect_encoding := detect_encoding example_runtime
|}.

(** * Properties *)

(** ** Ordered dictionaries *)

Lemma get_set_same k v d : Dict.get k (Dict.set k v d) = Some v.
Proof.
  induction d as [|[k' v'] d IH]; simpl.
  - now rewrite String.eqb_refl.
  - destruct (String.eqb k' k) eqn:E; simpl; rewrite E; auto.
Qed.

Lemma get_set_other k k' v d :
  k <> k' -> Dict.get k (Dict.set k' v d) = Dict.get k d.
Proof.
  intros Hne. induction d as [|[k0 v0] d IH]; simpl.
  - destruct (String.eqb_spec k' k); congruence.
  - destruct (String.eqb_spec k0 k'); simpl.
    + subst. destruct (String.eqb_spec k' k); congruence.
    + now rewrite IH.
Qed.

Lemma get_none_not_in k d : Dict.get k d = None <-> ~ In k (Dict.keys d).
Proof.
  induction d as [|[k' v'] d IH]; simpl.
  - tauto.
  - destruct (String.eqb_spec k' k).
    + split; [discriminate | intros H; exfalso; apply H; now left].
    + rewrite IH. tauto.
Qed.

Lemma set_absent k v d : Dict.get k d = None -> Dict.set k v d = d ++ [(k, v)].
Proof.
  induction d as [|[k' v'] d IH]; simpl; auto.
  destruct (String.eqb k' k); [discriminate|].
  intros H. now rewrite IH.
Qed.

Lemma get_merge_step_same d1 k v2 :
  Dict.get k (merge_step d1 (k, v2)) = Some (deep_merge_at (Dict.get k d1) v2).
Proof.
  unfold merge_step; simpl.
  destruct (Dict.get k d1) as [v1|] eqn:E; rewrite get_set_same.
  - destruct v1, v2; reflexivity.
  - destruct v2; reflexivity.
Qed.

Lemma get_merge_step_other d1 k k' v2 :
  k <> k' -> Dict.get k (merge_step d1 (k', v2)) = Dict.get k d1.
Proof.
  intros Hne. unfold merge_step; simpl.
  destruct (Dict.get k' d1); now apply get_set_other.
Qed.

Lemma get_merge_absent d2 : forall d1 k,
  ~ In k (Dict.keys d2) -> Dict.get k (merge d1 d2) = Dict.get k d1.
Proof.
  induction d2 as [|[k' v'] d2 IH]; intros d1 k Hk; simpl in *; auto.
  unfold merge in *; simpl. rewrite IH by tauto.
  apply get_merge_step_other. intros ->. tauto.
Qed.

Lemma get_merge d2 : forall d1 k,
  NoDup (Dict.keys d2) ->
  Dict.get k (merge d1 d2) =
  match Dict.get k d2 with
  | Some v2 => Some (deep_merge_at (Dict.get k d1) v2)
  | None => Dict.get k d1
  end.
Proof.
  induction d2 as [|[k' v'] d2 IH]; intros d1 k Hnd; simpl in *; auto.
  inversion Hnd as [|? ? Hnot Hnd']; subst.
  change (merge d1 ((k', v') :: d2)) with (merge (merge_step d1 (k', v')) d2).
  destruct (String.eqb_spec k' k) as [->|Hne].
  - rewrite get_merge_absent by assumption. apply get_merge_step_same.
  - rewrite IH by assumption.
    rewrite get_merge_step_other by congruence. reflexivity.
Qed.

(** C2: [merge] is the deep merge.  For a fragment [d2] (a dictionary: its
    keys are distinct) merged into [d1], every key of [d2] ends up holding the
    recursive merge when both sides hold an object, the left array followed by
    the right one when both hold an array, and the value of [d2] in every other
    case; the other keys of [d1] are untouched.  In particular two array
    fragments merged in turn under one key both end up in one array. *)
Theorem merge_is_deep_merge (d1 d2 : dict) :
  NoDup (Dict.keys d2) ->
  (forall k o1 o2,
      Dict.get k d1 = Some (JDict o1) -> Dict.get k d2 = Some (JDict o2) ->
      Dict.get k (merge d1 d2) = Some (JDict (merge o1 o2)))
  /\ (forall k a1 a2,
      Dict.get k d1 = Some (JList a1) -> Dict.get k d2 = Some (JList a2) ->
      Dict.get k (merge d1 d2) = Some (JList (a1 ++ a2)))
  /\ (forall k v2,
      Dict.get k d2 = Some v2 ->
      (forall o1 o2, Dict.get k d1 = Some (JDict o1) -> v2 <> JDict o2) ->
      (forall a1 a2, Dict.get k d1 = Some (JList a1) -> v2 <> JList a2) ->
      Dict.get k (merge d1 d2) = Some v2)
  /\ (forall k, Dict.get k d2 = None -> Dict.get k (merge d1 d2) = Dict.get k d1)
  /\ (forall k x y,
      Dict.get k (merge (merge d1 [(k, JList [x])]) [(k, JList [y])]) =
      Some (JList (match Dict.get k d1 with
                   | Some (JList a1) => a1
                   | _ => []
                   end ++ [x; y]))).
Proof.
  intros Hnd. repeat split.
  - intros k o1 o2 H1 H2. rewrite get_merge, H2, H1 by assumption. reflexivity.
  - intros k a1 a2 H1 H2. rewrite get_merge, H2, H1 by assumption. reflexivity.
  - intros k v2 H2 Hobj Harr. rewrite get_merge, H2 by assumption. f_equal.
    destruct (Dict.get k d1) as [v1|]; [|now destruct v2].
    destruct v1, v2; try reflexivity.
    + exfalso. eapply Harr; reflexivity.
    + exfalso. eapply Hobj; reflexivity.
  - intros k H2. rewrite get_merge, H2 by assumption. reflexivity.
  - intros k x y.
    change (merge (merge d1 [(k, JList [x])]) [(k, JList [y])])
      with (merge_step (merge_step d1 (k, JList [x])) (k, JList [y])).
    rewrite !get_merge_step_same. f_equal.
    destruct (Dict.get k d1) as [v1|]; [destruct v1|]; simpl; try reflexivity.
    now rewrite <- app_assoc.
Qed.

Lemma merge_is_deep_merge_witness :
  Dict.get "c" (merge [("c", JList [JStr "y"])] [("c", JList [JStr "z"])])
  = Some (JList [JStr "y"; JStr "z"]).
Proof.
  apply (proj1 (proj2 (merge_is_deep_merge
                         [("c", JList [JStr "y"])] [("c", JList [JStr "z"])]
                         ltac:(repeat constructor; simpl; tauto)))
               "c" [JStr "y"] [JStr "z"]); reflexivity.
Defined.

(** ** go-i18n: plural forms against the plural tags of the store *)

Lemma set_app_absent k v d :
  ~ In k (Dict.keys d) -> Dict.set k v d = d ++ [(k, v)].
Proof. intros H. apply set_absent. now apply get_none_not_in. Qed.

Lemma of_pairs_from (pairs : list (string * json)) : forall d,
  NoDup (Dict.keys d ++ map fst pairs) ->
  fold_left (fun d kv => Dict.set (fst kv) (snd kv) d) pairs d = d ++ pairs.
Proof.
  induction pairs as [|[k v] pairs IH]; intros d Hnd; simpl.
  - now rewrite app_nil_r.
  - simpl in Hnd. rewrite set_app_absent.
    + rewrite IH.
      * now rewrite <- app_assoc.
      * unfold Dict.keys in *. rewrite map_app; simpl. rewrite <- app_assoc. exact Hnd.
    + apply NoDup_remove_2 in Hnd. intros Hin. apply Hnd, in_or_app. now left.
Qed.

Lemma of_pairs_nodup pairs :
  NoDup (map fst pairs) -> Dict.of_pairs pairs = pairs.
Proof. intros H. unfold Dict.of_pairs. now rewrite of_pairs_from. Qed.

Lemma pair_tags_skipn tags : forall strings offset,
  offset + List.length tags <= List.length strings ->
  pair_tags tags strings offset =
  Some (combine tags (map JStr (firstn (List.length tags) (skipn offset strings)))).
Proof.
  induction tags as [|t tags IH]; intros strings offset Hlen; simpl in *.
  - reflexivity.
  - destruct (nth_error strings offset) as [s|] eqn:E.
    + rewrite IH by lia.
      destruct (skipn offset strings) as [|s' rest] eqn:Es.
      * apply (f_equal (@List.length _)) in Es. rewrite length_skipn in Es.
        simpl in Es. lia.
      * assert (Hs : nth_error (skipn offset strings) 0 = Some s).
        { rewrite nth_error_skipn. now rewrite Nat.add_0_r. }
        rewrite Es in Hs. simpl in Hs. injection Hs as ->.
        assert (Er : skipn (S offset) strings = rest).
        { change (S offset) with (1 + offset). rewrite <- skipn_skipn, Es.
          reflexivity. }
        rewrite Er. reflexivity.
    + apply nth_error_None in E. lia.
Qed.

Lemma map_fst_combine {A B} (l : list A) : forall (l' : list B),
  List.length l = List.length l' -> map fst (combine l l') = l.
Proof.
  induction l as [|a l IH]; intros [|b l'] H; simpl in *; try discriminate; auto.
  f_equal. apply IH. lia.
Qed.

Lemma length_forms_for tags strings :
  List.length (forms_for tags strings) = List.length tags.
Proof.
  unfold forms_for. rewrite length_firstn, length_app, repeat_length. lia.
Qed.

Lemma translation_of_multistring tags u strings :
  NoDup tags -> target u = VMulti strings ->
  GoI18NJsonUnit_translation (Some tags) u =
  Some (JDict (combine tags (map JStr (forms_for tags strings)))).
Proof.
  intros Hnd Ht. unfold GoI18NJsonUnit_translation. rewrite Ht.
  set (padded := if Nat.ltb _ _ then _ else _).
  assert (Hlen : List.length tags <= List.length padded).
  { subst padded. destruct (Nat.ltb_spec (List.length strings) (List.length tags)).
    - rewrite length_app, repeat_length. lia.
    - lia. }
  assert (Hf : firstn (List.length tags) padded = forms_for tags strings).
  { subst padded. unfold forms_for.
    destruct (Nat.ltb_spec (List.length strings) (List.length tags)) as [Hlt|Hge].
    - reflexivity.
    - replace (List.length tags - List.length strings) with 0 by lia.
      simpl. now rewrite app_nil_r. }
  rewrite pair_tags_skipn by (simpl; lia). simpl. rewrite Hf.
  f_equal. f_equal. apply of_pairs_nodup.
  rewrite map_fst_combine; [assumption|].
  now rewrite length_map, length_forms_for.
Qed.

Lemma getvalue_translation tags u translation :
  GoI18NJsonUnit_translation tags u = Some translation ->
  exists d, GoI18NJsonUnit_getvalue tags u = Some (JDict d)
            /\ Dict.get "translation" d = Some translation.
Proof.
  intros H. unfold GoI18NJsonUnit_getvalue. rewrite H.
  eexists. split; [reflexivity|]. apply get_set_same.
Qed.

(** C10: a go-i18n unit that holds a multistring with more forms than the
    store has plural tags is written with exactly one entry per tag, paired in
    order with the first forms; the forms beyond the tags are left out. *)
Theorem go_i18n_drops_extra_forms (u : Unit) (tags strings : list string) :
  NoDup tags ->
  target u = VMulti strings ->
  List.length tags < List.length strings ->
  exists d entries,
    GoI18NJsonUnit_getvalue (Some tags) u = Some (JDict d)
    /\ Dict.get "translation" d = Some (JDict entries)
    /\ entries = combine tags (map JStr (firstn (List.length tags) strings))
    /\ Dict.keys entries = tags
    /\ List.length entries = List.length tags.
Proof.
  intros Hnd Ht Hlt.
  destruct (getvalue_translation (Some tags) u _
              (translation_of_multistring _ _ _ Hnd Ht)) as [d [Hv Hg]].
  assert (Hf : forms_for tags strings = firstn (List.length tags) strings).
  { unfold forms_for.
    replace (List.length tags - List.length strings) with 0 by lia.
    simpl. now rewrite app_nil_r. }
  rewrite Hf in Hg.
  exists d, (combine tags (map JStr (firstn (List.length tags) strings))).
  repeat split; try assumption.
  - unfold Dict.keys. apply map_fst_combine.
    rewrite length_map, length_firstn. lia.
  - rewrite length_combine, length_map, length_firstn. lia.
Qed.

Lemma go_i18n_drops_extra_forms_witness :
  exists d,
    GoI18NJsonUnit_getvalue
      (Some ["one"; "other"])
      (mkUnit C_GoI18NJsonUnit "n" (One (Key "n")) TMultistring
              (JStr EmptyString) JNull (VMulti ["a"; "b"; "c"]) [])
    = Some (JDict d)
    /\ Dict.get "translation" d = Some (JDict [("one", JStr "a"); ("other", JStr "b")]).
Proof.
  destruct (go_i18n_drops_extra_forms
              (mkUnit C_GoI18NJsonUnit "n" (One (Key "n")) TMultistring
                      (JStr EmptyString) JNull (VMulti ["a"; "b"; "c"]) [])
              ["one"; "other"] ["a"; "b"; "c"]
              ltac:(repeat constructor; simpl; intuition discriminate)
              eq_refl ltac:(simpl; lia)) as [d [entries [Hv [Hg [He _]]]]].
  exists d. split; [exact Hv|]. rewrite Hg, He. reflexivity.
Defined.

(** ** Parsing *)

(** C9: when [json.loads] rejects the input with a [ValueError], [parse]
    raises [ParseError] around that very error, and the store holds the units
    it held before: nothing is added. *)
Theorem parse_failure_is_fatal (rt : Runtime) (st : Store) (input : Input)
    (e : ValueError) :
  json_loads rt (decoded rt input) = inl e ->
  exists st',
    JsonFile_parse rt st input = Raised_ParseError e st'
    /\ units st' = units st.
Proof.
  intros H. unfold JsonFile_parse, decoded in *.
  destruct (input_content input) as [s|b].
  - rewrite H. eexists; split; [reflexivity|].
    destruct (input_name input); reflexivity.
  - destruct (detect_encoding rt b) as [s enc]; simpl in *.
    rewrite H. eexists; split; [reflexivity|].
    destruct (input_name input); reflexivity.
Qed.

Lemma parse_failure_is_fatal_witness :
  exists st',
    JsonFile_parse example_runtime (new_store F_JsonNestedFile None)
                   {| input_name := Some "broken.json"; input_content := Text "{" |}
    = Raised_ParseError "Expecting value: line 1 column 1 (char 0)" st'
    /\ units st' = [].
Proof.
  apply (parse_failure_is_fatal example_runtime (new_store F_JsonNestedFile None)
           {| input_name := Some "broken.json"; input_content := Text "{" |}).
  reflexivity.
Defined.

(** ** The generic walk *)

Lemma leaf_unit_some rt c data name_node prev :
  is_leaf data = true ->
  exists u, leaf_unit rt c data name_node prev = Some u
            /\ getid u = prev /\ target u = VJson data /\ cls u = c
            /\ _type u = (if is_none (VJson data) then TStr else type_of (VJson data)).
Proof.
  intros Hleaf. unfold leaf_unit, JsonUnit_init.
  destruct data; try discriminate; destruct c; destruct name_node as [n|];
    cbn -[String.eqb Z.eqb];
    repeat match goal with
           | |- context [if ?b then _ else _] => destruct b; cbn -[String.eqb Z.eqb]
           end;
    eexists; repeat split; reflexivity.
Qed.

(** ** Induction on parsed values *)

Lemma json_ind (P : json -> Prop) :
  P JNull -> (forall b, P (JBool b)) -> (forall z, P (JInt z)) ->
  (forall r, P (JFloat r)) -> (forall s, P (JStr s)) ->
  (forall l, Forall P l -> P (JList l)) ->
  (forall d, Forall (fun kv => P (snd kv)) d -> P (JDict d)) ->
  forall v, P v.
Proof.
  intros Hnull Hbool Hint Hfloat Hstr Hlist Hdict.
  fix IH 1.
  intros [| b | z | r | s | l | d];
    [apply Hnull | apply Hbool | apply Hint | apply Hfloat | apply Hstr | | ].
  - apply Hlist. induction l as [|x l IHl]; constructor; [apply IH | exact IHl].
  - apply Hdict. induction d as [|[k x] d IHd]; constructor; [apply IH | exact IHd].
Qed.

(** ** Texts *)

Lemma append_assoc (a b c : string) : ((a ++ b) ++ c = a ++ (b ++ c))%string.
Proof. induction a as [|x a IH]; simpl; [reflexivity | now rewrite IH]. Qed.

Lemma append_empty_r (a : string) : (a ++ "" = a)%string.
Proof. induction a as [|x a IH]; simpl; [reflexivity | now rewrite IH]. Qed.

(** ** Identifiers are rendered paths *)

Lemma extract_dict rt c d stop prev name_node name_last_node last_node :
  JsonFile_extract_units rt c false (JDict d) stop prev
                         name_node name_last_node last_node
  = walk_items rt c stop prev (JDict d) d.
Proof.
  cbn [JsonFile_extract_units].
  match goal with
  | |- ?f d = _ =>
      assert (H : forall l, f l = walk_items rt c stop prev (JDict d) l)
  end.
  { induction l as [|[k v] l IHl]; [reflexivity|].
    cbn [walk_items]. f_equal; try apply IHl. }
  apply H.
Qed.

Lemma extract_list rt c i18next l stop prev name_node name_last_node last_node :
  JsonFile_extract_units rt c i18next (JList l) stop prev
                         name_node name_last_node last_node
  = walk_elements rt c i18next stop prev name_node (JList l) l 0.
Proof.
  cbn [JsonFile_extract_units].
  match goal with
  | |- ?f l 0 = _ =>
      assert (H : forall l' i,
                 f l' i = walk_elements rt c i18next stop prev name_node (JList l) l' i)
  end.
  { induction l' as [|x l' IHl]; intros i; [reflexivity|].
    cbn [walk_elements]. f_equal; try apply IHl. }
  apply H.
Qed.

Lemma leaves_list l : leaves (JList l) = leaves_of_elements l 0.
Proof.
  cbn [leaves]. generalize 0.
  induction l as [|x l IHl]; intros i; [reflexivity|].
  cbn [leaves_of_elements]. f_equal; try apply IHl.
Qed.

Lemma option_map_app {A B} (f : A -> B) (a b : option (list A)) :
  option_map (map f) (option_app a b) =
  option_app (option_map (map f) a) (option_map (map f) b).
Proof. destruct a, b; simpl; try reflexivity. now rewrite map_app. Qed.

(** The walk with no filter, seen through any reading [f] of a unit that
    depends on its identifier and its leaf only. *)
Lemma walk_maps_leaves {A : Type} rt c (f : Unit -> A) (g : string -> json -> A) :
  (forall data name_node prev u,
      is_leaf data = true ->
      leaf_unit rt c data name_node prev = Some u -> f u = g prev data) ->
  forall T prev name_node name_last_node last_node,
    option_map (map f)
               (JsonFile_extract_units rt c false T None prev
                                       name_node name_last_node last_node)
    = Some (map (fun leaf => g (prev ++ render (fst leaf))%string (snd leaf))
                (leaves T)).
Proof.
  intros Hf T.
  assert (Hunder : forall prev s (ls : list (list segment * json)),
             map (fun leaf => g (prev ++ render (fst leaf))%string (snd leaf))
                 (map (under s) ls)
             = map (fun leaf => g ((prev ++ render_segment s) ++ render (fst leaf))%string
                                  (snd leaf)) ls).
  { intros prev s ls. rewrite map_map. apply map_ext. intros [p v].
    unfold under; simpl. now rewrite append_assoc. }
  induction T as [| b | z | r | s | l IHl | d IHd] using json_ind; intros prev nn nln last.
  1-5: match goal with
       | |- context [JsonFile_extract_units _ _ _ ?data] =>
           destruct (leaf_unit_some rt c data nn prev eq_refl) as [u [Hu _]];
           cbn [JsonFile_extract_units passes_filter]; rewrite Hu; simpl;
           rewrite append_empty_r; do 2 f_equal;
           now apply (Hf _ nn)
       end.
  - rewrite extract_list, leaves_list.
    generalize (JList l) as data. generalize 0 as i.
    induction IHl as [|x l Hx _ IH]; intros i data; [reflexivity|].
    cbn [walk_elements leaves_of_elements].
    rewrite option_map_app, Hx, IH. simpl.
    now rewrite map_app, Hunder.
  - rewrite extract_dict. cbn [leaves].
    generalize (JDict d) as data.
    induction IHd as [|[k v] d Hv _ IH]; intros data; [reflexivity|].
    cbn [walk_items flat_map]. simpl fst; simpl snd.
    rewrite option_map_app, Hv, IH. simpl option_app.
    now rewrite map_app, Hunder.
Qed.

Lemma walk_is_leaves rt c (T : json) :
  forall prev name_node name_last_node last_node,
    option_map (map id_and_value)
               (JsonFile_extract_units rt c false T None prev
                                       name_node name_last_node last_node)
    = Some (map (at_path prev) (leaves T)).
Proof.
  apply (walk_maps_leaves rt c id_and_value (fun prev data => (prev, VJson data))).
  intros data nn prev u Hleaf Hu.
  destruct (leaf_unit_some rt c data nn prev Hleaf) as [u' [Hu' [Hid [Ht _]]]].
  rewrite Hu in Hu'. injection Hu' as <-.
  unfold id_and_value. now rewrite Hid, Ht.
Qed.

(** C8: with no filter the walk yields one unit per leaf, depth first, and
    the identifier of each unit is its path written with [.key] for an object
    key and [[i]] for an array index, with nothing in between.  On
    [{"a": {"b": "x", "c": ["y", "z"]}}] the units are [.a.b], [.a.c[0]] and
    [.a.c[1]], in this order. *)
Theorem identifiers_are_rendered_paths (rt : Runtime) (fc : file_class) (T : json) :
  fc = F_JsonFile \/ fc = F_JsonNestedFile ->
  option_map (map id_and_value) (_extract_units rt fc T None)
  = Some (map (fun leaf => (render (fst leaf), VJson (snd leaf))) (leaves T))
  /\ render [ObjectKey "k1"; ObjectKey "k2"; ArrayIndex 3; ObjectKey "k4"]
     = ".k1.k2[3].k4"
  /\ option_map (map id_and_value) (_extract_units rt fc doc_abc None)
     = Some [(".a.b", VJson (JStr "x"));
             (".a.c[0]", VJson (JStr "y"));
             (".a.c[1]", VJson (JStr "z"))].
Proof.
  intros Hfc.
  assert (E : forall T', option_map (map id_and_value) (_extract_units rt fc T' None)
                         = Some (map (at_path EmptyString) (leaves T'))).
  { intros T'. destruct Hfc as [-> | ->]; apply walk_is_leaves. }
  split; [|split].
  - rewrite E. reflexivity.
  - reflexivity.
  - rewrite E. reflexivity.
Qed.

Lemma identifiers_are_rendered_paths_witness :
  option_map (map id_and_value)
             (_extract_units example_runtime F_JsonNestedFile doc_abc None)
  = Some [(".a.b", VJson (JStr "x"));
          (".a.c[0]", VJson (JStr "y"));
          (".a.c[1]", VJson (JStr "z"))].
Proof.
  apply (proj2 (proj2 (identifiers_are_rendered_paths
                         example_runtime F_JsonNestedFile doc_abc (or_intror eq_refl)))).
Defined.

(** ** The generic walk under a filter: which leaves are selected *)

Lemma passes_selected stop rp last_node :
  ctx_fits rp last_node ->
  passes_filter stop (ctx_name rp) (ctx_last_name rp) last_node
  = selected stop (rev rp).
Proof.
  intros Hfit. unfold passes_filter, selected. destruct stop as [keys|]; [|reflexivity].
  rewrite rev_involutive.
  destruct rp as [|[k|i] rest]; cbn [ctx_fits ctx_name ctx_last_name name_of_segment] in *.
  - subst last_node. reflexivity.
  - destruct last_node as [[]|]; try discriminate. cbn.
    now rewrite orb_false_r.
  - destruct last_node as [[]|]; try discriminate. cbn [isinstance_dict isinstance_list andb orb].
    destruct rest as [|[k|j] rest]; reflexivity.
Qed.

Lemma filter_under (P : list segment -> bool) s (ls : list (list segment * json)) :
  filter (fun leaf => P (fst leaf)) (map (under s) ls)
  = map (under s) (filter (fun leaf => P (s :: fst leaf)) ls).
Proof.
  induction ls as [|[p v] ls IH]; [reflexivity|].
  cbn [map filter under fst snd]. destruct (P (s :: p)); cbn [map]; now rewrite IH.
Qed.

Lemma selected_under stop rp s (ls : list (list segment * json)) :
  filter (fun leaf => selected stop (rev rp ++ fst leaf)) (map (under s) ls)
  = map (under s) (filter (fun leaf => selected stop (rev (s :: rp) ++ fst leaf)) ls).
Proof.
  rewrite (filter_under (fun p => selected stop (rev rp ++ p))).
  f_equal. apply filter_ext. intros [p v]. cbn [fst rev].
  now rewrite <- app_assoc.
Qed.

(** The walk under a filter, seen through any reading [f] of a unit that
    depends on its identifier and its leaf only: the units are the selected
    leaves, in document order. *)
Lemma walk_selects {A : Type} rt c (f : Unit -> A) (g : string -> json -> A) stop :
  (forall data name_node prev u,
      is_leaf data = true ->
      leaf_unit rt c data name_node prev = Some u -> f u = g prev data) ->
  forall T rp prev last_node,
    ctx_fits rp last_node ->
    option_map (map f)
               (JsonFile_extract_units rt c false T stop prev
                                       (ctx_name rp) (ctx_last_name rp) last_node)
    = Some (map (fun leaf => g (prev ++ render (fst leaf))%string (snd leaf))
                (filter (fun leaf => selected stop (rev rp ++ fst leaf)) (leaves T))).
Proof.
  intros Hf T.
  assert (Hunder : forall prev s (ls : list (list segment * json)),
             map (fun leaf => g (prev ++ render (fst leaf))%string (snd leaf))
                 (map (under s) ls)
             = map (fun leaf => g ((prev ++ render_segment s) ++ render (fst leaf))%string
                                  (snd leaf)) ls).
  { intros prev s ls. rewrite map_map. apply map_ext. intros [p v].
    unfold under; simpl. now rewrite append_assoc. }
  induction T as [| b | z | r | s | l IHl | d IHd] using json_ind;
    intros rp prev last Hfit.
  1-5: match goal with
       | |- context [JsonFile_extract_units _ _ _ ?data] =>
           destruct (leaf_unit_some rt c data (ctx_name rp) prev eq_refl) as [u [Hu _]];
           cbn [JsonFile_extract_units leaves filter fst];
           rewrite (passes_selected stop rp last Hfit), app_nil_r, Hu;
           destruct (selected stop (rev rp)); [|reflexivity];
           simpl; rewrite append_empty_r; do 2 f_equal;
           now apply (Hf _ (ctx_name rp))
       end.
  - rewrite extract_list, leaves_list.
    assert (Hdata : isinstance_list (Some (JList l)) = true) by reflexivity.
    revert Hdata. generalize (JList l) as data. generalize 0 as i.
    induction IHl as [|x l Hx _ IH]; intros i data Hdata; [reflexivity|].
    cbn [walk_elements leaves_of_elements].
    rewrite option_map_app, (Hx (ArrayIndex i :: rp) _ (Some data) Hdata), (IH (S i) data Hdata).
    cbn [option_app]. now rewrite filter_app, map_app, selected_under, Hunder.
  - rewrite extract_dict. cbn [leaves].
    assert (Hdata : isinstance_dict (Some (JDict d)) = true) by reflexivity.
    revert Hdata. generalize (JDict d) as data.
    induction IHd as [|[k v] d Hv _ IH]; intros data Hdata; [reflexivity|].
    cbn [walk_items flat_map fst snd]. cbn [snd] in Hv.
    rewrite option_map_app, (Hv (ObjectKey k :: rp) _ (Some data) Hdata), (IH data Hdata).
    cbn [option_app]. now rewrite filter_app, map_app, selected_under, Hunder.
Qed.

(** C3: under a filter the generic walk yields exactly the leaves that the
    filter selects, in document order, each as one unit with its rendered
    path as identifier and the leaf as value.  A leaf is selected when there
    is no filter; or when it sits in an object and its own key is in the
    filter; or when it sits in an array that is the value of a key of an
    object, and that key is in the filter (the key is handed down one level
    only: a leaf of an array inside an array is not selected).  On
    [{"a": {"b": "x", "c": ["y", "z"]}}] the filter [{"b"}] gives the one
    unit [.a.b] and the filter [{"c"}] gives [.a.c[0]] and [.a.c[1]]. *)
Theorem filter_selects_leaves (rt : Runtime) (fc : file_class) (T : json)
    (stop : option (list string)) :
  fc = F_JsonFile \/ fc = F_JsonNestedFile ->
  option_map (map id_and_value) (_extract_units rt fc T stop)
  = Some (map (at_path EmptyString)
              (filter (fun leaf => selected stop (fst leaf)) (leaves T)))
  /\ option_map (map id_and_value) (_extract_units rt fc doc_abc (Some ["b"]))
     = Some [(".a.b", VJson (JStr "x"))]
  /\ option_map (map id_and_value) (_extract_units rt fc doc_abc (Some ["c"]))
     = Some [(".a.c[0]", VJson (JStr "y")); (".a.c[1]", VJson (JStr "z"))].
Proof.
  intros Hfc.
  assert (Hwalk : forall T' stop',
             option_map (map id_and_value) (_extract_units rt fc T' stop')
             = Some (map (at_path EmptyString)
                         (filter (fun leaf => selected stop' (fst leaf)) (leaves T')))).
  { intros T' stop'.
    assert (E : _extract_units rt fc T' stop'
                = JsonFile_extract_units rt (UnitClass fc) false T' stop' EmptyString
                                         (ctx_name []) (ctx_last_name []) None)
      by (destruct Hfc as [-> | ->]; reflexivity).
    rewrite E.
    apply (walk_selects rt (UnitClass fc) id_and_value
                        (fun prev data => (prev, VJson data)) stop');
      [|reflexivity].
    intros data nn prev u Hleaf Hu.
    destruct (leaf_unit_some rt (UnitClass fc) data nn prev Hleaf)
      as [u' [Hu' [Hid [Ht _]]]].
    rewrite Hu in Hu'. injection Hu' as <-.
    unfold id_and_value. now rewrite Hid, Ht. }
  split; [apply Hwalk|]. split; rewrite Hwalk; reflexivity.
Qed.

Lemma filter_selects_leaves_witness :
  option_map (map id_and_value)
             (_extract_units example_runtime F_JsonNestedFile
                (JDict [("c", JList [JStr "y"; JList [JStr "z"]]);
                        ("b", JDict [("c", JStr "x"); ("d", JStr "w")])])
                (Some ["c"]))
  = Some [(".c[0]", VJson (JStr "y")); (".b.c", VJson (JStr "x"))].
Proof.
  apply (proj1 (filter_selects_leaves
                  example_runtime F_JsonNestedFile
                  (JDict [("c", JList [JStr "y"; JList [JStr "z"]]);
                          ("b", JDict [("c", JStr "x"); ("d", JStr "w")])])
                  (Some ["c"]) (or_intror eq_refl))).
Defined.

(** ** ARB *)

Lemma set_nonempty k v d : Dict.set k v d <> [].
Proof. destruct d as [|[k' v'] d]; simpl; [|destruct (String.eqb k' k)]; discriminate. Qed.

Lemma fold_set_nonempty (pairs : list (string * json)) : forall d,
  d <> [] -> fold_left (fun d kv => Dict.set (fst kv) (snd kv) d) pairs d <> [].
Proof.
  induction pairs as [|[k v] pairs IH]; intros d Hd; simpl; [assumption|].
  apply IH, set_nonempty.
Qed.

Lemma of_pairs_empty pairs : Dict.of_pairs pairs = [] <-> pairs = [].
Proof.
  split; [|intros ->; reflexivity].
  destruct pairs as [|[k v] pairs]; [reflexivity|].
  intros H. exfalso. revert H. unfold Dict.of_pairs; simpl.
  apply fold_set_nonempty. discriminate.
Qed.

Lemma ARB_data_units_ids rt data l : forall us,
  ARB_data_units rt data l = Some us ->
  forall u, In u us -> Str.startswith (getid u) "@" = false.
Proof.
  induction l as [|[item value] l IH]; intros us H u Hin; simpl in H.
  - injection H as <-. contradiction.
  - destruct (Str.startswith item "@") eqn:Es; [now apply (IH us)|].
    destruct (ARB_metadata data item) as [metadata|]; [|discriminate].
    destruct (JsonUnit_init _ _ _ _ _ _ _) as [unit|]; [|discriminate].
    destruct (ARB_data_units rt data l) as [us'|]; [|discriminate].
    injection H as <-. destruct Hin as [<- | Hin].
    + exact Es.
    + now apply (IH us').
Qed.

Lemma ARB_header_init rt metadata_ :
  exists unit,
    JsonUnit_init rt C_ARBJsonUnit (VJson JNull) None JNull JNull metadata_ = Some unit
    /\ metadata unit = metadata_ /\ notes unit = JStr EmptyString.
Proof. eexists. repeat split. Qed.

Lemma filter_nonempty_iff {A} (f : A -> bool) (l : list A) :
  filter f l <> [] <-> exists x, In x l /\ f x = true.
Proof.
  split.
  - intros H. destruct (filter f l) as [|x r] eqn:E; [congruence|].
    exists x. apply filter_In. rewrite E. now left.
  - intros [x Hx] E. apply filter_In in Hx. rewrite E in Hx. contradiction.
Qed.

(** C6 (amended): on
    [{"@@locale": "en", "greeting": "Hi", "@greeting": {"description": "salutes"}}]
    the ARB extraction yields exactly two units: a header with identifier [@],
    written as [{"@@locale": "en"}] (the key keeps its [@@]), and a unit with
    identifier [greeting], value [Hi] and note [salutes].  For every object
    that can be extracted, a unit with identifier [@] is yielded if and only
    if some key starts with [@@]. *)
Theorem arb_header_and_notes (rt : Runtime) :
  option_map (map arb_summary) (_extract_units rt F_ARBJsonFile doc_arb None)
  = Some [("@", JDict [("@@locale", JStr "en")], JStr EmptyString, VJson JNull);
          ("greeting",
           JDict [("greeting", JStr "Hi");
                  ("@greeting", JDict [("description", JStr "salutes")])],
           JStr "salutes", VJson (JStr "Hi"))]
  /\ forall d us stop,
      _extract_units rt F_ARBJsonFile (JDict d) stop = Some us ->
      ((exists u, In u us /\ getid u = "@")
       <-> (exists k, In k (Dict.keys d) /\ Str.startswith k "@@" = true)).
Proof.
  split; [reflexivity|].
  intros d us stop H. cbn [_extract_units ARBJsonFile_extract_units] in H.
  set (meta := Dict.of_pairs (filter (fun kv => Str.startswith (fst kv) "@@") d)) in *.
  destruct (ARB_header_init rt meta) as [unit [Hinit _]].
  rewrite Hinit in H. cbn [option_map] in H.
  destruct (ARB_data_units rt d d) as [us2|] eqn:E2;
    [|destruct (truthy (JDict meta)); discriminate].
  assert (Hmeta : truthy (JDict meta) = true
                  <-> exists k, In k (Dict.keys d) /\ Str.startswith k "@@" = true).
  { assert (Hne : meta <> [] <-> exists k, In k (Dict.keys d)
                                            /\ Str.startswith k "@@" = true).
    { unfold meta. rewrite of_pairs_empty, filter_nonempty_iff. split.
      - intros [[k v] [Hin Hk]]. exists k. split; [|exact Hk].
        apply (in_map fst) in Hin. exact Hin.
      - intros [k [Hin Hk]]. apply in_map_iff in Hin.
        destruct Hin as [[k' v] [Hfst Hin]]. simpl in Hfst. subst k'.
        exists (k, v). now split. }
    rewrite <- Hne. simpl. destruct meta; split; congruence. }
  split.
  - intros [u [Hin Hid]]. apply Hmeta.
    destruct (truthy (JDict meta)); [reflexivity|].
    simpl in H. injection H as <-.
    pose proof (ARB_data_units_ids rt d d us2 E2 u Hin) as Hno.
    rewrite Hid in Hno. discriminate.
  - intros Hk. apply Hmeta in Hk. rewrite Hk in H. simpl in H. injection H as <-.
    exists (setid unit "@"). split; [now left | reflexivity].
Qed.

Lemma arb_header_and_notes_witness :
  exists us,
    _extract_units example_runtime F_ARBJsonFile doc_arb None = Some us
    /\ ((exists u, In u us /\ getid u = "@")
        <-> (exists k, In k (Dict.keys [("@@locale", JStr "en");
                                        ("greeting", JStr "Hi");
                                        ("@greeting",
                                         JDict [("description", JStr "salutes")])])
                       /\ Str.startswith k "@@" = true)).
Proof.
  eexists. split; [reflexivity|].
  apply (proj2 (arb_header_and_notes example_runtime) _ _ None).
  reflexivity.
Defined.

(** On the ARB example the header unit is written with the key
    [@@locale], not [locale]. *)
Lemma arb_header_keeps_prefix :
  option_map (fun us => map arb_summary (firstn 1 us))
             (_extract_units example_runtime F_ARBJsonFile doc_arb None)
  = Some [("@", JDict [("@@locale", JStr "en")], JStr EmptyString, VJson JNull)]
  /\ JDict [("@@locale", JStr "en")] <> JDict [("locale", JStr "en")].
Proof. split; [reflexivity | discriminate]. Qed.

(** ** i18next: plural groups *)



Lemma length_append (a b : string) :
  String.length (a ++ b) = String.length a + String.length b.
Proof. induction a as [|x a IH]; simpl; [reflexivity | now rewrite IH]. Qed.

Lemma substring_whole (s : string) : substring 0 (String.length s) s = s.
Proof. induction s as [|a s IH]; simpl; [reflexivity | now rewrite IH]. Qed.


Lemma substring_suffix (a b : string) :
  substring (String.length a) (String.length b) (a ++ b) = b.
Proof. induction a as [|x a IH]; simpl; [apply substring_whole | exact IH]. Qed.


Lemma endswith_suffix (b suffix : string) : Str.endswith (b ++ suffix) suffix = true.
Proof.
  unfold Str.endswith. rewrite length_append.
  replace (String.length b + String.length suffix - String.length suffix)
    with (String.length b) by lia.
  rewrite substring_suffix, String.eqb_refl.
  apply andb_true_iff. split; [|reflexivity]. apply Nat.leb_le. lia.
Qed.










(** ** i18next: indexed groups with a gap *)

Lemma rsplit1_none c t : Str.contains_char c t = false -> Str.rsplit1 c t = None.
Proof.
  induction t as [|a t IH]; simpl; [reflexivity|].
  destruct (Ascii.eqb a c); [discriminate|]. intros H. now rewrite IH.
Qed.

Lemma rsplit1_last c b t :
  Str.contains_char c t = false ->
  Str.rsplit1 c (b ++ String c t) = Some (b, t).
Proof.
  intros Ht. induction b as [|a b IH]; simpl.
  - now rewrite (rsplit1_none c t Ht), Ascii.eqb_refl.
  - now rewrite IH.
Qed.

Lemma contains_char_app c b t : Str.contains_char c (b ++ String c t) = true.
Proof.
  induction b as [|a b IH]; simpl.
  - now rewrite Ascii.eqb_refl.
  - rewrite IH. now destruct (Ascii.eqb a c).
Qed.



Lemma list_mem_In x l : list_mem x l = true <-> In x l.
Proof.
  unfold list_mem. rewrite existsb_exists. split.
  - intros [y [Hin Hy]]. apply String.eqb_eq in Hy. now subst.
  - intros Hin. exists x. split; [assumption | apply String.eqb_refl].
Qed.

Lemma list_remove_In x l : In x l -> exists l', list_remove x l = Some l'.
Proof.
  induction l as [|y l IH]; intros Hin; [contradiction|]. simpl.
  destruct (String.eqb_spec y x) as [_|Hne]; [now eexists|].
  destruct Hin as [->|Hin]; [congruence|].
  destruct (IH Hin) as [l' ->]. now eexists.
Qed.

Lemma plural_bases_none suffix (d : dict) :
  (forall key, In key (Dict.keys d) -> Str.endswith key suffix = false) ->
  plural_bases suffix d = [].
Proof.
  intros H. unfold plural_bases.
  induction (Dict.keys d) as [|key keys IH]; [reflexivity|]. simpl.
  rewrite (H key) by now left. apply IH. intros key' Hin. apply H. now right.
Qed.


Lemma later_forms_length rt sources : forall strings,
  later_forms rt sources = Some strings ->
  List.length strings = List.length sources.
Proof.
  induction sources as [|source sources IH]; intros strings H; simpl in H.
  - now injection H as <-.
  - destruct (later_form rt source); [|discriminate].
    destruct (later_forms rt sources) as [l|]; [|discriminate].
    injection H as <-. simpl. now rewrite (IH l eq_refl).
Qed.

Lemma multistring_forms rt sources source :
  multistring rt sources = Some source ->
  exists strings, source = VMulti strings
                  /\ List.length strings = List.length sources.
Proof.
  destruct sources as [|first rest]; [discriminate|]. cbn [multistring].
  destruct (later_forms rt rest) as [l|] eqn:E; [|discriminate].
  intros [= <-]. eexists. split; [reflexivity|].
  simpl. now rewrite (later_forms_length rt rest l E).
Qed.



Lemma plural_unit_some rt sources found prev plural_base source :
  List.length sources = List.length found ->
  multistring rt sources = Some source ->
  exists unit,
    plural_unit rt C_I18NextUnit sources found prev plural_base = Some unit
    /\ cls unit = C_I18NextUnit
    /\ getid unit = (prev ++ "." ++ plural_base)%string
    /\ target unit = source
    /\ _item unit = Many (map Key found).
Proof.
  intros Hlen Hsource. unfold plural_unit. rewrite Hsource.
  destruct (multistring_forms rt sources source Hsource) as [strings [-> Hstrings]].
  unfold JsonUnit_init.
  assert (E : Nat.eqb (List.length strings) (List.length (map Key found)) = true).
  { apply Nat.eqb_eq. rewrite length_map. congruence. }
  cbn -[Nat.eqb String.eqb]. rewrite E.
  destruct (match strings with
            | [] => false
            | s :: _ => negb (String.eqb s "")
            end);
    cbn -[Nat.eqb String.eqb]; rewrite E; eexists; repeat split.
Qed.

Lemma plural_unit_raises rt c sources found prev plural_base :
  multistring rt sources = None ->
  plural_unit rt c sources found prev plural_base = None.
Proof. intros H. unfold plural_unit. now rewrite H. Qed.

(** ** Identifiers read back by [JsonNestedUnit.getvalue] *)

Lemma contains_char_append c a b :
  Str.contains_char c (a ++ b) = Str.contains_char c a || Str.contains_char c b.
Proof.
  induction a as [|x a IH]; simpl; [reflexivity|].
  now destruct (Ascii.eqb x c).
Qed.

Lemma split_no_separator c s : Str.contains_char c s = false -> Str.split c s = [s].
Proof.
  induction s as [|a s IH]; simpl; [reflexivity|].
  destruct (Ascii.eqb a c); [discriminate|]. intros H. now rewrite IH.
Qed.

Lemma split_at_separator c a rest :
  Str.contains_char c a = false ->
  Str.split c (a ++ String c rest) = a :: Str.split c rest.
Proof.
  intros Ha. induction a as [|x a IH]; simpl in *.
  - now rewrite Ascii.eqb_refl.
  - destruct (Ascii.eqb x c); [discriminate|]. now rewrite (IH Ha).
Qed.

Lemma last_append a c : Str.last (a ++ String c "") = Some c.
Proof.
  induction a as [|x a IH]; [reflexivity|].
  change (String x a ++ String c "")%string with (String x (a ++ String c "")).
  cbn [Str.last]. rewrite IH.
  destruct (a ++ String c "")%string eqn:E; [|reflexivity].
  destruct a; discriminate.
Qed.

Lemma uint_has_digits_only c d :
  Str.is_digit c = false ->
  Str.contains_char c (NilEmpty.string_of_uint d) = false.
Proof.
  intros Hc.
  induction d; cbn [NilEmpty.string_of_uint Str.contains_char]; try reflexivity;
    rewrite IHd;
    match goal with
    | |- (if ?b then _ else _) = _ => destruct b eqn:E
    end;
    try reflexivity; apply Ascii.eqb_eq in E; subst c; discriminate.
Qed.

Lemma index_has_no_dot i :
  Str.contains_char "." ("[" ++ Str.of_nat i ++ "]") = false.
Proof.
  simpl. rewrite contains_char_append. unfold Str.of_nat.
  now rewrite uint_has_digits_only.
Qed.

Lemma plain_key_spec k :
  plain_key k = true ->
  k <> EmptyString /\ Str.contains_char "." k = false
  /\ Str.contains_char "[" k = false.
Proof.
  unfold plain_key. rewrite !andb_true_iff, !negb_true_iff.
  intros [[H1 H2] H3]. repeat split; try assumption.
  intros ->. discriminate.
Qed.

Lemma lstrip_plain k rest :
  plain_key k = true ->
  Str.lstrip "." ("." ++ k ++ rest) = (k ++ rest)%string.
Proof.
  intros Hk. destruct (plain_key_spec k Hk) as [Hne [Hdot _]].
  destruct k as [|a k]; [congruence|]. simpl in *.
  destruct (Ascii.eqb a "."); [discriminate | reflexivity].
Qed.

Lemma split_keys suffix : forall k ks,
  forallb plain_key (k :: ks) = true ->
  Str.contains_char "." suffix = false ->
  Str.split "." (k ++ render_keys ks ++ suffix) = suffix_last suffix (k :: ks).
Proof.
  intros k ks. revert k.
  induction ks as [|k' ks IH]; intros k Hks Hsuffix.
  - simpl in *. apply split_no_separator. rewrite contains_char_append, Hsuffix.
    apply andb_true_iff in Hks. destruct Hks as [Hk _].
    now destruct (plain_key_spec k Hk) as [_ [-> _]].
  - cbn [forallb] in Hks. apply andb_true_iff in Hks. destruct Hks as [Hk Hks].
    destruct (plain_key_spec k Hk) as [_ [Hdot _]].
    change (k ++ render_keys (k' :: ks) ++ suffix)%string
      with (k ++ String "." ((k' ++ render_keys ks) ++ suffix))%string.
    rewrite split_at_separator by assumption.
    rewrite append_assoc, (IH k' Hks Hsuffix). reflexivity.
Qed.

Lemma nest_key_plain k ret :
  plain_key k = true -> nest_key k ret = JDict [(k, ret)].
Proof.
  intros Hk. destruct (plain_key_spec k Hk) as [_ [_ Hbr]].
  unfold nest_key. now rewrite Hbr.
Qed.

Lemma nest_key_indexed k i ret :
  plain_key k = true ->
  nest_key (k ++ "[" ++ Str.of_nat i ++ "]") ret = JDict [(k, JList [ret])].
Proof.
  intros Hk. destruct (plain_key_spec k Hk) as [_ [_ Hbr]].
  unfold nest_key.
  change (k ++ "[" ++ Str.of_nat i ++ "]")%string
    with (k ++ String "[" (Str.of_nat i ++ "]"))%string.
  rewrite contains_char_app, split_at_separator by assumption.
  replace (k ++ String "[" (Str.of_nat i ++ "]"))%string
    with ((k ++ String "[" (Str.of_nat i)) ++ String "]" "")%string.
  - rewrite last_append. reflexivity.
  - rewrite append_assoc. reflexivity.
Qed.

Lemma fold_nest_plain ks v :
  forallb plain_key ks = true -> fold_right nest_key v ks = wrap ks v.
Proof.
  induction ks as [|k ks IH]; simpl; [reflexivity|].
  intros H. apply andb_true_iff in H. destruct H as [Hk Hks].
  now rewrite (IH Hks), nest_key_plain.
Qed.

Lemma fold_nest_indexed i v : forall k ks,
  forallb plain_key (k :: ks) = true ->
  fold_right nest_key v (suffix_last ("[" ++ Str.of_nat i ++ "]") (k :: ks))
  = wrap (k :: ks) (JList [v]).
Proof.
  intros k ks. revert k.
  induction ks as [|k' ks IH]; intros k H.
  - simpl in H. rewrite andb_true_r in H. simpl. now apply nest_key_indexed.
  - cbn [forallb] in H. apply andb_true_iff in H. destruct H as [Hk Hks].
    change (suffix_last ("[" ++ Str.of_nat i ++ "]") (k :: k' :: ks))
      with (k :: suffix_last ("[" ++ Str.of_nat i ++ "]") (k' :: ks)).
    cbn [fold_right]. rewrite (IH k' Hks), nest_key_plain by assumption.
    reflexivity.
Qed.

Lemma suffix_last_empty ks : suffix_last EmptyString ks = ks.
Proof.
  induction ks as [|k ks IH]; [reflexivity|].
  destruct ks as [|k' ks]; simpl in *; [now rewrite append_empty_r|].
  now rewrite IH.
Qed.

Lemma fragment_of_leaf k ks v :
  forallb plain_key (k :: ks) = true ->
  fragment (render_keys (k :: ks)) v = wrap (k :: ks) v.
Proof.
  intros H. unfold fragment. cbn [render_keys].
  assert (Hk : plain_key k = true) by (simpl in H; now apply andb_true_iff in H).
  rewrite lstrip_plain by assumption.
  rewrite <- (append_empty_r (render_keys ks)).
  rewrite split_keys, suffix_last_empty by (assumption || reflexivity).
  now apply fold_nest_plain.
Qed.

Lemma fragment_of_element k ks i v :
  forallb plain_key (k :: ks) = true ->
  fragment (render_keys (k :: ks) ++ "[" ++ Str.of_nat i ++ "]") v
  = wrap (k :: ks) (JList [v]).
Proof.
  intros H. unfold fragment. cbn [render_keys].
  assert (Hk : plain_key k = true) by (simpl in H; now apply andb_true_iff in H).
  rewrite !append_assoc.
  change ("." ++ k ++ render_keys ks ++ "[" ++ Str.of_nat i ++ "]")%string
    with ("." ++ k ++ (render_keys ks ++ "[" ++ Str.of_nat i ++ "]"))%string.
  rewrite lstrip_plain by assumption.
  rewrite split_keys by (assumption || apply index_has_no_dot).
  now apply fold_nest_indexed.
Qed.

(** ** Merging the fragments of a document *)

Lemma deep_merge_at_some v1 v2 : deep_merge_at (Some v1) v2 = merge_value v1 v2.
Proof. destruct v1, v2; reflexivity. Qed.

Lemma merge_step_set acc k x :
  merge_step acc (k, x) = Dict.set k (deep_merge_at (Dict.get k acc) x) acc.
Proof.
  unfold merge_step; simpl. destruct (Dict.get k acc) as [v1|].
  - now rewrite deep_merge_at_some.
  - now destruct x.
Qed.

Lemma set_set k x y d : Dict.set k y (Dict.set k x d) = Dict.set k y d.
Proof.
  induction d as [|[k' v'] d IH]; simpl.
  - now rewrite String.eqb_refl.
  - destruct (String.eqb k' k) eqn:E; simpl; rewrite E; [reflexivity|].
    now rewrite IH.
Qed.

Lemma merge_app d1 a b : merge d1 (a ++ b) = merge (merge d1 a) b.
Proof. unfold merge. apply fold_left_app. Qed.

Lemma merge_fresh (d : dict) k x :
  ~ In k (Dict.keys d) -> merge d [(k, x)] = d ++ [(k, x)].
Proof.
  intros Hk. change (merge d [(k, x)]) with (merge_step d (k, x)).
  rewrite merge_step_set.
  assert (E : Dict.get k d = None) by now apply get_none_not_in.
  rewrite E. rewrite set_absent by assumption. now destruct x.
Qed.

Lemma step_absorbs X Y Z acc k :
  absorbs X Y Z ->
  merge_step (merge_step acc (k, X)) (k, Y) = merge_step acc (k, Z).
Proof.
  intros H. rewrite !merge_step_set, get_set_same, set_set. now rewrite H.
Qed.

Lemma absorbs_lists a b : absorbs (JList a) (JList b) (JList (a ++ b)).
Proof.
  intros [[]|]; simpl; try reflexivity. now rewrite app_assoc.
Qed.

Lemma absorbs_item (a : dict) k x :
  ~ In k (Dict.keys a) -> absorbs (JDict a) (JDict [(k, x)]) (JDict (a ++ [(k, x)])).
Proof.
  intros Hk [[]|]; cbn [deep_merge_at]; try now rewrite merge_fresh.
  now rewrite merge_app.
Qed.

Lemma absorbs_under k X Y Z :
  absorbs X Y Z -> absorbs (JDict [(k, X)]) (JDict [(k, Y)]) (JDict [(k, Z)]).
Proof.
  intros H before.
  assert (E : forall d, merge (merge d [(k, X)]) [(k, Y)] = merge d [(k, Z)]).
  { intros d. now apply step_absorbs. }
  destruct before as [[]|]; cbn [deep_merge_at]; try (f_equal; apply (E [])).
  f_equal. apply E.
Qed.

Lemma absorbs_wrap ks X Y Z :
  absorbs X Y Z -> absorbs (wrap ks X) (wrap ks Y) (wrap ks Z).
Proof.
  intros H. induction ks as [|k ks IH]; simpl; [assumption|].
  now apply absorbs_under.
Qed.

Lemma add_wrapped acc k ks X :
  add_fragment (Some acc) (Some (wrap (k :: ks) X))
  = Some (merge_step acc (k, wrap ks X)).
Proof. reflexivity. Qed.

Lemma two_fragments acc k ks X Y Z :
  absorbs X Y Z ->
  add_fragment (add_fragment (Some acc) (Some (wrap (k :: ks) X)))
               (Some (wrap (k :: ks) Y))
  = add_fragment (Some acc) (Some (wrap (k :: ks) Z)).
Proof.
  intros H. rewrite !add_wrapped. cbn [add_fragment wrap fold_right].
  f_equal. change (merge ?d [?e]) with (merge_step d e).
  apply step_absorbs. now apply absorbs_wrap.
Qed.

Lemma wrap_snoc ks k x : wrap (ks ++ [k]) x = wrap ks (JDict [(k, x)]).
Proof. unfold wrap. now rewrite fold_right_app. Qed.

Lemma render_keys_snoc ks k :
  render_keys (ks ++ [k]) = (render_keys ks ++ "." ++ k)%string.
Proof.
  induction ks as [|k' ks IH]; simpl.
  - now rewrite append_empty_r.
  - rewrite IH. now rewrite !append_assoc.
Qed.

Lemma distinct_NoDup l : distinct l = true <-> NoDup l.
Proof.
  induction l as [|x l IH]; simpl.
  - split; [constructor | reflexivity].
  - rewrite andb_true_iff, negb_true_iff, IH. split.
    + intros [Hx Hl]. constructor; [|assumption].
      intros Hin. apply list_mem_In in Hin. congruence.
    + intros H. inversion H as [|? ? Hx Hl]; subst. split; [|assumption].
      destruct (list_mem x l) eqn:E; [|reflexivity].
      apply list_mem_In in E. contradiction.
Qed.

Lemma leaves_of_leaf v : is_leaf v = true -> leaves v = [([], v)].
Proof. destruct v; try discriminate; reflexivity. Qed.

Lemma fragment_at_leaf k ks x :
  forallb plain_key (k :: ks) = true ->
  fragment_at (k :: ks) ([], x) = Some (wrap (k :: ks) x).
Proof.
  intros H. unfold fragment_at; cbn [fst snd render].
  now rewrite append_empty_r, fragment_of_leaf.
Qed.

Lemma fragment_at_element k ks i x :
  forallb plain_key (k :: ks) = true ->
  fragment_at (k :: ks) ([ArrayIndex i], x) = Some (wrap (k :: ks) (JList [x])).
Proof.
  intros H. unfold fragment_at; cbn [fst snd render].
  change (render_segment (ArrayIndex i) ++ "")%string
    with (("[" ++ Str.of_nat i ++ "]") ++ "")%string.
  now rewrite append_empty_r, fragment_of_element.
Qed.

Lemma fragments_of_elements acc k ks : forall l pre i,
  forallb plain_key (k :: ks) = true ->
  forallb is_leaf l = true ->
  fold_left add_fragment (map (fragment_at (k :: ks)) (leaves_of_elements l i))
            (add_fragment (Some acc) (Some (wrap (k :: ks) (JList pre))))
  = add_fragment (Some acc) (Some (wrap (k :: ks) (JList (pre ++ l)))).
Proof.
  induction l as [|x l IH]; intros pre i Hks Hl.
  - now rewrite app_nil_r.
  - cbn [forallb] in Hl. apply andb_true_iff in Hl. destruct Hl as [Hx Hl].
    cbn [leaves_of_elements]. rewrite (leaves_of_leaf x Hx).
    cbn [map app fold_left]. unfold under; cbn [fst snd].
    rewrite fragment_at_element by assumption.
    rewrite (two_fragments acc k ks _ _ _ (absorbs_lists pre [x])).
    rewrite (IH (pre ++ [x]) (S i) Hks Hl). now rewrite <- app_assoc.
Qed.

Lemma fragments_of_subtree (v : json) :
  plain_value v = true ->
  forall k ks acc,
    forallb plain_key (k :: ks) = true ->
    fold_left add_fragment (map (fragment_at (k :: ks)) (leaves v)) (Some acc)
    = add_fragment (Some acc) (Some (wrap (k :: ks) v)).
Proof.
  induction v as [| b | z | r | s | l _ | d IHd] using json_ind;
    intros Hv k ks acc Hks.
  1-5: cbn [leaves map fold_left]; now rewrite fragment_at_leaf.
  - rewrite leaves_list. cbn [plain_value] in Hv.
    apply andb_true_iff in Hv. destruct Hv as [Hne Hl].
    destruct l as [|x l]; [discriminate|].
    cbn [forallb] in Hl. apply andb_true_iff in Hl. destruct Hl as [Hx Hl].
    cbn [leaves_of_elements]. rewrite (leaves_of_leaf x Hx).
    cbn [map app fold_left]. unfold under; cbn [fst snd].
    rewrite fragment_at_element by assumption.
    now rewrite (fragments_of_elements acc k ks l [x] 1 Hks Hl).
  - cbn [plain_value] in Hv. rewrite !andb_true_iff in Hv.
    destruct Hv as [[Hne Hdistinct] Hitems].
    apply distinct_NoDup in Hdistinct.
    assert (Hchild : forall k' x acc',
               In (k', x) d -> plain_key k' = true -> plain_value x = true ->
               fold_left add_fragment
                         (map (fragment_at (k :: ks)) (map (under (ObjectKey k')) (leaves x)))
                         (Some acc')
               = add_fragment (Some acc') (Some (wrap (k :: ks) (JDict [(k', x)])))).
    { intros k' x acc' Hin Hk' Hx.
      rewrite Forall_forall in IHd. specialize (IHd (k', x) Hin Hx k (ks ++ [k']) acc'). cbn [snd] in IHd.
      rewrite <- wrap_snoc. change ((k :: ks) ++ [k']) with (k :: (ks ++ [k'])).
      rewrite <- IHd.
      - f_equal. rewrite map_map. apply map_ext. intros [p leaf].
        unfold fragment_at, under; cbn [fst snd render render_segment].
        change (k :: ks ++ [k']) with ((k :: ks) ++ [k']).
        rewrite render_keys_snoc. now rewrite !append_assoc.
      - cbn [forallb] in *. rewrite forallb_app. cbn [forallb].
        apply andb_true_iff in Hks. destruct Hks as [-> ->]. now rewrite Hk'. }
    assert (Hrest : forall items pre acc',
               (forall kv, In kv items -> In kv d) ->
               NoDup (Dict.keys (pre ++ items)) ->
               forallb (fun kv => plain_key (fst kv) && plain_value (snd kv)) items = true ->
               fold_left add_fragment
                         (map (fragment_at (k :: ks))
                              (flat_map (fun kv => map (under (ObjectKey (fst kv)))
                                                       (leaves (snd kv))) items))
                         (add_fragment (Some acc') (Some (wrap (k :: ks) (JDict pre))))
               = add_fragment (Some acc') (Some (wrap (k :: ks) (JDict (pre ++ items))))).
    { induction items as [|[k' x] items IHitems]; intros pre acc' Hsub Hnd Hok.
      - now rewrite app_nil_r.
      - cbn [forallb fst snd] in Hok. rewrite !andb_true_iff in Hok.
        destruct Hok as [[Hk' Hx] Hok].
        cbn [flat_map fst snd]. rewrite map_app, fold_left_app.
        rewrite add_wrapped, Hchild by (assumption || (apply Hsub; now left)).
        rewrite <- add_wrapped.
        assert (Hfresh : ~ In k' (Dict.keys pre)).
        { unfold Dict.keys in Hnd. rewrite map_app in Hnd. simpl in Hnd.
          apply NoDup_remove_2 in Hnd. intros Hin. apply Hnd, in_or_app. now left. }
        rewrite (two_fragments acc' k ks _ _ _ (absorbs_item pre k' x Hfresh)).
        rewrite (IHitems (pre ++ [(k', x)]) acc').
        + now rewrite <- app_assoc.
        + intros kv Hin. apply Hsub. now right.
        + now rewrite <- app_assoc.
        + assumption. }
    destruct d as [|[k' x] d]; [discriminate|].
    cbn [forallb fst snd] in Hitems. rewrite !andb_true_iff in Hitems.
    destruct Hitems as [[Hk' Hx] Hitems].
    cbn [leaves flat_map fst snd]. rewrite map_app, fold_left_app.
    rewrite Hchild by (assumption || now left).
    apply (Hrest d [(k', x)] acc); [intros kv Hin; now right | assumption | assumption].
Qed.

(** ** The round trip of the nested store *)

Lemma getvalue_of_leaf rt data name_node prev u :
  is_leaf data = true ->
  leaf_unit rt C_JsonNestedUnit data name_node prev = Some u ->
  getvalue rt None u = Some (fragment prev data).
Proof.
  intros Hleaf Hu.
  destruct (leaf_unit_some rt C_JsonNestedUnit data name_node prev Hleaf)
    as [u' [Hu' [Hid [Ht [Hcls Hty]]]]].
  rewrite Hu in Hu'. injection Hu' as <-.
  unfold getvalue, JsonNestedUnit_getvalue, JsonNestedUnit_getkey, converttarget.
  rewrite Hcls, Hty, Ht, Hid.
  destruct data; try discriminate; reflexivity.
Qed.

Lemma fold_add_fragment_none l : fold_left add_fragment l None = None.
Proof. induction l as [|x l IH]; simpl; [reflexivity | exact IH]. Qed.

Lemma merge_units_fold rt us : forall acc,
  merge_units rt us acc
  = fold_left add_fragment (map (getvalue rt None) us) (Some acc).
Proof.
  induction us as [|u us IH]; intros acc; simpl; [reflexivity|].
  destruct (getvalue rt None u) as [[]|]; simpl;
    try (now rewrite fold_add_fragment_none).
  apply IH.
Qed.

Lemma units_fold_addunit us : forall st,
  units (fold_left addunit us st) = units st ++ us.
Proof.
  induction us as [|u us IH]; intros st; simpl.
  - now rewrite app_nil_r.
  - rewrite IH. simpl. now rewrite <- app_assoc.
Qed.

Lemma fragments_of_document (d : dict) : forall acc : dict,
  NoDup (Dict.keys (acc ++ d)) ->
  forallb (fun kv => plain_key (fst kv) && plain_value (snd kv)) d = true ->
  fold_left add_fragment
            (map (fun leaf => Some (fragment ("" ++ render (fst leaf)) (snd leaf)))
                 (leaves (JDict d)))
            (Some acc)
  = Some (acc ++ d).
Proof.
  cbn [leaves].
  induction d as [|[k x] d IH]; intros acc Hnd Hok.
  - now rewrite app_nil_r.
  - cbn [forallb fst snd] in Hok. rewrite !andb_true_iff in Hok.
    destruct Hok as [[Hk Hx] Hok].
    cbn [flat_map fst snd]. rewrite map_app, fold_left_app.
    assert (E : map (fun leaf => Some (fragment ("" ++ render (fst leaf)) (snd leaf)))
                    (map (under (ObjectKey k)) (leaves x))
                = map (fragment_at [k]) (leaves x)).
    { rewrite map_map. apply map_ext. intros [p v].
      unfold fragment_at, under; cbn [fst snd render render_segment render_keys].
      now rewrite append_empty_r. }
    rewrite E, (fragments_of_subtree x Hx k [] acc)
      by (cbn [forallb]; now rewrite Hk).
    rewrite add_wrapped. cbn [wrap fold_right].
    assert (Hfresh : ~ In k (Dict.keys acc)).
    { unfold Dict.keys in Hnd. rewrite map_app in Hnd. simpl in Hnd.
      apply NoDup_remove_2 in Hnd. intros Hin. apply Hnd, in_or_app. now left. }
    change (merge_step acc (k, x)) with (merge acc [(k, x)]).
    rewrite (merge_fresh acc k x Hfresh), (IH (acc ++ [(k, x)])).
    + now rewrite <- app_assoc.
    + now rewrite <- app_assoc.
    + assumption.
Qed.

Lemma serialize_of_extracted rt (d : dict) :
  plain_document (JDict d) = true ->
  exists us,
    _extract_units rt F_JsonNestedFile (JDict d) None = Some us
    /\ forall st, units st = us -> JsonFile_serialize rt st = Some (JDict d).
Proof.
  intros Hdoc. cbn [plain_document] in Hdoc. apply andb_true_iff in Hdoc.
  destruct Hdoc as [Hdistinct Hok]. apply distinct_NoDup in Hdistinct.
  pose proof (walk_maps_leaves rt C_JsonNestedUnit (getvalue rt None)
                (fun prev data => Some (fragment prev data))
                (fun data nn prev u => getvalue_of_leaf rt data nn prev u)
                (JDict d) EmptyString None None None) as Hwalk.
  cbn [_extract_units UnitClass].
  destruct (JsonFile_extract_units rt C_JsonNestedUnit false (JDict d) None
                                   EmptyString None None None) as [us|];
    [|discriminate].
  cbn [option_map] in Hwalk. injection Hwalk as Hwalk.
  exists us. split; [reflexivity|]. intros st Hst.
  unfold JsonFile_serialize. rewrite Hst, merge_units_fold, Hwalk.
  exact (f_equal (option_map JDict) (fragments_of_document d [] Hdistinct Hok)).
Qed.

(** C1 (amended): the nested store writes a document back as it read it,
    with the order of keys and of array elements, when no unit is edited and
    the document is an object in which every object below the root has at
    least one item, every array has at least one element and holds leaves
    only, and every key is not empty and has no [.] and no [[] in it.  This
    holds for the units taken straight from the extraction and for the store
    that [parse] fills. *)
Theorem nested_round_trip (rt : Runtime) (T : json) :
  plain_document T = true ->
  round_trip rt F_JsonNestedFile T = Some T
  /\ (forall text name_,
         json_loads rt text = inr T ->
         exists st,
           JsonFile_parse rt (new_store F_JsonNestedFile None)
                          {| input_name := name_; input_content := Text text |}
           = Returned st
           /\ JsonFile_serialize rt st = Some T).
Proof.
  intros Hdoc. destruct T as [| | | | | |d]; try discriminate.
  destruct (serialize_of_extracted rt d Hdoc) as [us [Hus Hser]].
  split.
  - unfold round_trip. rewrite Hus. apply Hser.
    unfold store_of. now rewrite units_fold_addunit.
  - intros text name_ Hloads. unfold JsonFile_parse.
    cbn [input_name input_content]. rewrite Hloads.
    destruct name_ as [n|]; cbn [store_class _filter new_store]; rewrite Hus;
      eexists; (split; [reflexivity|]); apply Hser;
      now rewrite units_fold_addunit.
Qed.

Lemma nested_round_trip_witness :
  round_trip example_runtime F_JsonNestedFile doc_abc = Some doc_abc.
Proof.
  apply (proj1 (nested_round_trip example_runtime doc_abc eq_refl)).
Defined.

(** The document [{"a": [{"b": "x", "c": "y"}]}] is not written back as it
    was read: the two leaves of the object in the array come back as two
    elements of the array. *)
Lemma nested_round_trip_splits_array_items :
  round_trip example_runtime F_JsonNestedFile doc_array_of_object
  = Some (JDict [("a", JList [JDict [("b", JStr "x")]; JDict [("c", JStr "y")]])])
  /\ round_trip example_runtime F_JsonNestedFile doc_array_of_object
     <> Some doc_array_of_object.
Proof. split; [reflexivity | discriminate]. Qed.

(** ** go-i18n: the plural tags of the store and missing forms *)

Lemma replace_other a b s :
  Str.contains_char a s = false -> Str.replace a b s = s.
Proof.
  induction s as [|c s IH]; simpl; [reflexivity|].
  destruct (Ascii.eqb c a); [discriminate|]. intros H. now rewrite IH.
Qed.

Lemma replace_append a b s t :
  Str.replace a b (s ++ t) = (Str.replace a b s ++ Str.replace a b t)%string.
Proof. induction s as [|c s IH]; simpl; [reflexivity | now rewrite IH]. Qed.

Lemma locale_of_region (lang region : string) (sep : ascii) :
  sep = "_"%char \/ sep = "-"%char ->
  Str.contains_char "_" lang = false ->
  Str.contains_char "-" lang = false ->
  hd EmptyString (Str.split "-" (Str.replace "_" "-" (lang ++ String sep region)))
  = lang.
Proof.
  intros Hsep Hu Hd. rewrite replace_append, (replace_other _ _ _ Hu).
  cbn [Str.replace].
  replace (if Ascii.eqb sep "_" then "-"%char else sep) with "-"%char
    by (destruct Hsep; subst sep; reflexivity).
  now rewrite (split_at_separator "-" lang _ Hd).
Qed.

Lemma plural_tags_of_locale rt st (lang locale : string) en_tags :
  lang <> EmptyString ->
  Str.contains_char "_" lang = false ->
  Str.contains_char "-" lang = false ->
  (locale = lang
   \/ exists sep region, (sep = "_"%char \/ sep = "-"%char)
                         /\ locale = (lang ++ String sep region)%string) ->
  targetlanguage st = Some locale ->
  tags_get "en" (plural_tags rt) = Some en_tags ->
  GoI18NJsonFile_plural_tags rt st
  = Some (match tags_get lang (plural_tags rt) with
          | Some tags => tags
          | None => en_tags
          end).
Proof.
  intros Hne Hu Hd Hlocale Hst Hen.
  unfold GoI18NJsonFile_plural_tags, gettargetlanguage. rewrite Hst, Hen.
  assert (Hfull : negb (String.eqb locale EmptyString) = true).
  { destruct Hlocale as [-> | [sep [region [_ ->]]]];
      destruct lang; [congruence | reflexivity | congruence | reflexivity]. }
  assert (Hlang : hd EmptyString (Str.split "-" (Str.replace "_" "-" locale)) = lang).
  { destruct Hlocale as [-> | [sep [region [Hsep ->]]]].
    - now rewrite (replace_other _ _ _ Hu), (split_no_separator _ _ Hd).
    - now apply locale_of_region. }
  rewrite Hfull, Hlang. now destruct (tags_get lang (plural_tags rt)).
Qed.

(** C7: a go-i18n unit that holds a multistring with fewer forms than the
    store has plural tags is written with one entry per tag, the forms paired
    with the tags in order and the missing trailing forms written as empty
    texts.  The tags are those of the target locale of the store: the tags
    that the table has for the language of the locale ([cs] for [cs],
    [cs_CZ] and [cs-CZ]), those of [en] when the table has none for it, and
    those of [en] when the store has no target language; so that with
    [en -> [one, other]] a one-form unit of a store with no target language
    is written as two entries, the second one empty. *)
Theorem go_i18n_pads_missing_forms (rt : Runtime) (st : Store) (u : Unit)
    (tags strings : list string) :
  NoDup tags ->
  target u = VMulti strings ->
  List.length strings < List.length tags ->
  (exists d,
      GoI18NJsonUnit_getvalue (Some tags) u = Some (JDict d)
      /\ Dict.get "translation" d =
         Some (JDict (combine tags
                        (map JStr (strings ++
                                   repeat EmptyString
                                          (List.length tags - List.length strings))))))
  /\ (targetlanguage st = None ->
      forall en_tags, tags_get "en" (plural_tags rt) = Some en_tags ->
                      GoI18NJsonFile_plural_tags rt st = Some en_tags)
  /\ (forall s, strings = [s] -> tags = ["one"; "other"] ->
      GoI18NJsonUnit_translation (Some tags) u =
      Some (JDict [("one", JStr s); ("other", JStr EmptyString)]))
  /\ (forall s, strings = [s] ->
      targetlanguage st = None ->
      tags_get "en" (plural_tags rt) = Some ["one"; "other"] ->
      units st = [u] ->
      exists d,
        GoI18NJsonFile_serialize rt st = Some (JList [JDict d])
        /\ Dict.get "translation" d =
           Some (JDict [("one", JStr s); ("other", JStr EmptyString)]))
  /\ (forall (lang locale : string) en_tags,
      lang <> EmptyString ->
      Str.contains_char "_" lang = false ->
      Str.contains_char "-" lang = false ->
      (locale = lang
       \/ exists sep region, (sep = "_"%char \/ sep = "-"%char)
                             /\ locale = (lang ++ String sep region)%string) ->
      targetlanguage st = Some locale ->
      tags_get "en" (plural_tags rt) = Some en_tags ->
      GoI18NJsonFile_plural_tags rt st
      = Some (match tags_get lang (plural_tags rt) with
              | Some locale_tags => locale_tags
              | None => en_tags
              end)
      /\ (tags_get lang (plural_tags rt) = Some tags ->
          units st = [u] ->
          exists d,
            GoI18NJsonFile_serialize rt st = Some (JList [JDict d])
            /\ Dict.get "translation" d =
               Some (JDict (combine tags
                              (map JStr (strings ++
                                         repeat EmptyString
                                                (List.length tags
                                                 - List.length strings))))))).
Proof.
  intros Hnd Ht Hlt.
  assert (Hpadded : forms_for tags strings
                    = strings ++ repeat EmptyString
                                        (List.length tags - List.length strings)).
  { unfold forms_for. rewrite firstn_all2; [reflexivity|].
    rewrite length_app, repeat_length. lia. }
  split; [|split; [|split; [|split]]].
  - apply getvalue_translation. rewrite (translation_of_multistring _ _ _ Hnd Ht).
    now rewrite Hpadded.
  - intros Hnone en_tags Hen. unfold GoI18NJsonFile_plural_tags, gettargetlanguage.
    rewrite Hnone, Hen. reflexivity.
  - intros s -> ->. now rewrite (translation_of_multistring _ _ _ Hnd Ht).
  - intros s -> Hnone Hen Hunits.
    assert (Hen_tags : NoDup ["one"; "other"])
      by (repeat constructor; simpl; intuition discriminate).
    destruct (getvalue_translation (Some ["one"; "other"]) u _
                (translation_of_multistring _ _ _ Hen_tags Ht)) as [d [Hv Hg]].
    exists d. split; [|exact Hg].
    unfold GoI18NJsonFile_serialize, GoI18NJsonFile_plural_tags, gettargetlanguage.
    rewrite Hnone, Hen, Hunits. cbn [tags_get GoI18NJsonFile_serialize_units].
    now rewrite Hv.
  - intros lang locale en_tags Hne Hu Hd Hlocale Hst Hen.
    pose proof (plural_tags_of_locale rt st lang locale en_tags Hne Hu Hd Hlocale Hst Hen)
      as Htags.
    split; [exact Htags|]. intros Hlang Hunits. rewrite Hlang in Htags.
    destruct (getvalue_translation (Some tags) u _
                (translation_of_multistring _ _ _ Hnd Ht)) as [d [Hv Hg]].
    exists d. split; [|now rewrite <- Hpadded].
    unfold GoI18NJsonFile_serialize. rewrite Htags, Hunits.
    cbn [GoI18NJsonFile_serialize_units]. now rewrite Hv.
Qed.

Lemma go_i18n_pads_missing_forms_witness :
  (GoI18NJsonFile_plural_tags example_runtime (new_store F_JsonFile None)
   = Some ["one"; "other"]
   /\ GoI18NJsonUnit_translation
        (Some ["one"; "other"])
        (mkUnit C_GoI18NJsonUnit "hello" (One (Key "hello")) TMultistring
                (JStr EmptyString) JNull (VMulti ["Hello"]) [])
      = Some (JDict [("one", JStr "Hello"); ("other", JStr EmptyString)]))
  /\ (GoI18NJsonFile_plural_tags
        example_runtime
        (mkStore F_JsonFile
                 [mkUnit C_GoI18NJsonUnit "hello" (One (Key "hello")) TMultistring
                         (JStr EmptyString) JNull (VMulti ["Ahoj"]) []]
                 None EmptyString (JStr EmptyString) "utf-8" (Some "cs_CZ"))
      = Some ["one"; "few"; "other"]
      /\ exists d,
          GoI18NJsonFile_serialize
            example_runtime
            (mkStore F_JsonFile
                     [mkUnit C_GoI18NJsonUnit "hello" (One (Key "hello")) TMultistring
                             (JStr EmptyString) JNull (VMulti ["Ahoj"]) []]
                     None EmptyString (JStr EmptyString) "utf-8" (Some "cs_CZ"))
          = Some (JList [JDict d])
          /\ Dict.get "translation" d
             = Some (JDict [("one", JStr "Ahoj"); ("few", JStr EmptyString);
                            ("other", JStr EmptyString)])).
Proof.
  split.
  - pose proof (go_i18n_pads_missing_forms example_runtime (new_store F_JsonFile None)
                  (mkUnit C_GoI18NJsonUnit "hello" (One (Key "hello")) TMultistring
                          (JStr EmptyString) JNull (VMulti ["Hello"]) [])
                  ["one"; "other"] ["Hello"]
                  ltac:(repeat constructor; simpl; intuition discriminate)
                  eq_refl ltac:(simpl; lia)) as [_ [Hdefault [Hone _]]].
    split.
    + apply Hdefault; reflexivity.
    + apply Hone; reflexivity.
  - pose proof (go_i18n_pads_missing_forms
                  example_runtime
                  (mkStore F_JsonFile
                           [mkUnit C_GoI18NJsonUnit "hello" (One (Key "hello"))
                                   TMultistring (JStr EmptyString) JNull
                                   (VMulti ["Ahoj"]) []]
                           None EmptyString (JStr EmptyString) "utf-8" (Some "cs_CZ"))
                  (mkUnit C_GoI18NJsonUnit "hello" (One (Key "hello")) TMultistring
                          (JStr EmptyString) JNull (VMulti ["Ahoj"]) [])
                  ["one"; "few"; "other"] ["Ahoj"]
                  ltac:(repeat constructor; simpl; intuition discriminate)
                  eq_refl ltac:(simpl; lia)) as [_ [_ [_ [_ Hlocale]]]].
    destruct (Hlocale "cs" "cs_CZ" ["one"; "other"]) as [Htags Hwritten];
      try reflexivity.
    + discriminate.
    + right. exists "_"%char, "CZ". split; [now left | reflexivity].
    + split; [exact Htags|]. apply Hwritten; reflexivity.
Defined.

(** ** i18next: indexed groups, with or without a gap *)

Lemma extract_i18next_dict rt c d stop prev name_node name_last_node last_node :
  JsonFile_extract_units rt c true (JDict d) stop prev
                         name_node name_last_node last_node
  = i18next_items rt c stop prev d d
                  (plural_bases "_0" d) (plural_bases "_plural" d) [].
Proof.
  cbn [JsonFile_extract_units].
  match goal with
  | |- ?f d _ _ _ = _ =>
      assert (H : forall l pm ps pr,
                 f l pm ps pr = i18next_items rt c stop prev d l pm ps pr)
  end.
  { induction l as [|[k v] l IH]; intros pm ps pr; [reflexivity|].
    cbn [i18next_items].
    destruct (list_mem k pr); [apply IH|].
    destruct (classify_key k pm ps) as [[plurals pb pm' ps'|]|]; [| |reflexivity].
    - destruct (collect_plurals d plurals) as [sources found].
      destruct (plural_unit rt c sources found prev pb); [|reflexivity].
      f_equal. apply IH.
    - f_equal. apply IH. }
  apply H.
Qed.




Lemma get_in k v (d : dict) : Dict.get k d = Some v -> In (k, v) d.
Proof.
  induction d as [|[k' v'] d IH]; simpl; [discriminate|].
  destruct (String.eqb_spec k' k) as [-> | _].
  - intros [= ->]. now left.
  - intros H. right. now apply IH.
Qed.






















(** * Further properties of the code *)

(** ** [merge]: order of keys and disjoint fragments *)

Lemma keys_set k v d :
  Dict.keys (Dict.set k v d)
  = if Dict.mem k d then Dict.keys d else Dict.keys d ++ [k].
Proof.
  unfold Dict.mem. induction d as [|[k' v'] d IH]; simpl; [reflexivity|].
  destruct (String.eqb k' k) eqn:E; simpl; [reflexivity|].
  rewrite IH. now destruct (Dict.get k d).
Qed.

Lemma keys_merge_step d1 k v :
  Dict.keys (merge_step d1 (k, v))
  = if Dict.mem k d1 then Dict.keys d1 else Dict.keys d1 ++ [k].
Proof. rewrite merge_step_set. apply keys_set. Qed.

Lemma mem_merge_step_other d1 k k' v :
  k <> k' -> Dict.mem k (merge_step d1 (k', v)) = Dict.mem k d1.
Proof. intros H. unfold Dict.mem. now rewrite get_merge_step_other. Qed.

(** X1: [merge(d1, d2)] keeps the keys of [d1] where they are and puts the keys
    that only [d2] has after them, in the order of [d2]. *)
Theorem merge_keeps_key_order (d2 : dict) : forall d1 : dict,
  NoDup (Dict.keys d2) ->
  Dict.keys (merge d1 d2) = Dict.keys d1 ++ new_keys d1 d2.
Proof.
  unfold new_keys.
  induction d2 as [|[k v] d2 IH]; intros d1 Hnd; simpl.
  - now rewrite app_nil_r.
  - inversion Hnd as [|? ? Hk Hnd']; subst.
    change (merge d1 ((k, v) :: d2)) with (merge (merge_step d1 (k, v)) d2).
    rewrite (IH _ Hnd'), keys_merge_step.
    assert (E : filter (fun k0 => negb (Dict.mem k0 (merge_step d1 (k, v)))) (Dict.keys d2)
                = filter (fun k0 => negb (Dict.mem k0 d1)) (Dict.keys d2)).
    { apply filter_ext_in. intros k0 Hin. rewrite mem_merge_step_other; [reflexivity|].
      intros ->. contradiction. }
    rewrite E. destruct (Dict.mem k d1); simpl; [reflexivity|].
    now rewrite <- app_assoc.
Qed.

Lemma merge_keeps_key_order_witness :
  Dict.keys (merge [("a", JStr "1"); ("b", JStr "2")]
                   [("c", JStr "3"); ("a", JStr "4")])
  = ["a"; "b"; "c"].
Proof.
  apply (merge_keeps_key_order [("c", JStr "3"); ("a", JStr "4")]
                               [("a", JStr "1"); ("b", JStr "2")]).
  repeat constructor; simpl; intuition discriminate.
Defined.

Lemma merge_disjoint (d2 : dict) : forall d1 : dict,
  NoDup (Dict.keys d2) ->
  (forall k, In k (Dict.keys d2) -> ~ In k (Dict.keys d1)) ->
  merge d1 d2 = d1 ++ d2.
Proof.
  induction d2 as [|[k v] d2 IH]; intros d1 Hnd Hfresh.
  - now rewrite app_nil_r.
  - inversion Hnd as [|? ? Hk Hnd']; subst.
    change ((k, v) :: d2) with ([(k, v)] ++ d2).
    rewrite merge_app, merge_fresh by (apply Hfresh; now left).
    rewrite IH; [now rewrite <- app_assoc | assumption |].
    intros k0 Hin Hin'. unfold Dict.keys in Hin'. rewrite map_app in Hin'.
    apply in_app_or in Hin'. destruct Hin' as [Hd1 | Hk0].
    + apply (Hfresh k0); [now right | assumption].
    + destruct Hk0 as [E | []]. simpl in E. subst k0. contradiction.
Qed.

(** X2: when the keys of [d2] are distinct and none of them is in [d1],
    [merge(d1, d2)] is [d1] followed by [d2]: nothing of [d1] is looked into
    and nothing of [d2] is changed. *)
Theorem merge_of_disjoint_is_append (d1 d2 : dict) :
  distinct (Dict.keys d2) = true ->
  forallb (fun k => negb (Dict.mem k d1)) (Dict.keys d2) = true ->
  merge d1 d2 = d1 ++ d2.
Proof.
  intros Hdistinct Hfresh. apply merge_disjoint; [now apply distinct_NoDup|].
  intros k Hin. rewrite forallb_forall in Hfresh. specialize (Hfresh k Hin).
  apply negb_true_iff in Hfresh. unfold Dict.mem in Hfresh.
  apply get_none_not_in. now destruct (Dict.get k d1).
Qed.

Lemma merge_of_disjoint_is_append_witness :
  merge [("a", JList [JStr "x"])] [("b", JList [JStr "y"]); ("c", JNull)]
  = [("a", JList [JStr "x"]); ("b", JList [JStr "y"]); ("c", JNull)].
Proof.
  apply (merge_of_disjoint_is_append [("a", JList [JStr "x"])]
                                     [("b", JList [JStr "y"]); ("c", JNull)]);
    reflexivity.
Defined.

(** ** The flat store [JsonFile] *)

Lemma getvalue_of_flat_leaf rt data name_node prev u :
  is_leaf data = true ->
  leaf_unit rt C_JsonUnit data name_node prev = Some u ->
  getvalue rt None u = Some (JDict [(Str.lstrip "." prev, data)]).
Proof.
  intros Hleaf Hu.
  destruct (leaf_unit_some rt C_JsonUnit data name_node prev Hleaf)
    as [u' [Hu' [Hid [Ht [Hcls Hty]]]]].
  rewrite Hu in Hu'. injection Hu' as <-.
  unfold getvalue, JsonUnit_getvalue, JsonUnit_getkey, converttarget.
  rewrite Hcls, Hty, Ht, Hid.
  destruct data; try discriminate; reflexivity.
Qed.

Lemma leaves_are_leaves (T : json) :
  forall leaf, In leaf (leaves T) -> is_leaf (snd leaf) = true.
Proof.
  induction T as [| b | z | r | s | l IHl | d IHd] using json_ind; intros leaf Hin.
  1-5: destruct Hin as [<- | []]; reflexivity.
  - rewrite leaves_list in Hin. revert Hin. generalize 0.
    induction IHl as [|x l Hx _ IH]; intros i Hin; [contradiction|].
    cbn [leaves_of_elements] in Hin. apply in_app_or in Hin.
    destruct Hin as [Hin | Hin]; [|now apply (IH (S i))].
    apply in_map_iff in Hin. destruct Hin as [leaf' [<- Hin]].
    unfold under; cbn [snd]. now apply Hx.
  - cbn [leaves] in Hin.
    induction IHd as [|[k x] d Hx _ IH]; [contradiction|].
    cbn [flat_map] in Hin. apply in_app_or in Hin.
    destruct Hin as [Hin | Hin]; [|now apply IH].
    apply in_map_iff in Hin. destruct Hin as [leaf' [<- Hin]].
    unfold under; cbn [snd]. now apply Hx.
Qed.

Lemma Forall_set (P : string * json -> Prop) k v (d : dict) :
  P (k, v) -> Forall P d -> Forall P (Dict.set k v d).
Proof.
  intros Hkv. induction 1 as [|[k' v'] d Hx Hd IH]; simpl.
  - now constructor.
  - destruct (String.eqb_spec k' k) as [->|_]; constructor; assumption.
Qed.

Lemma add_flat_entry (acc : dict) k v :
  is_leaf v = true ->
  add_fragment (Some acc) (Some (JDict [(k, v)])) = Some (Dict.set k v acc).
Proof.
  intros Hv. cbn [add_fragment]. change (merge acc [(k, v)]) with (merge_step acc (k, v)).
  rewrite merge_step_set. do 2 f_equal.
  destruct (Dict.get k acc) as [[]|]; destruct v; try discriminate; reflexivity.
Qed.

(** X3: the flat store does not rebuild the tree: whatever document it
    extracted, what it writes is one object whose every entry is a leaf of
    the document, under the identifier of the leaf without its leading
    dots. *)
Theorem flat_store_writes_leaves (rt : Runtime) (T : json) :
  exists d,
    round_trip rt F_JsonFile T = Some (JDict d)
    /\ Forall (fun kv => is_leaf (snd kv) = true
                         /\ exists leaf, In leaf (leaves T)
                                         /\ kv = (flat_key leaf, snd leaf)) d.
Proof.
  pose proof (walk_maps_leaves rt C_JsonUnit (getvalue rt None)
                (fun prev data => Some (JDict [(Str.lstrip "." prev, data)]))
                (fun data nn prev u => getvalue_of_flat_leaf rt data nn prev u)
                T EmptyString None None None) as Hwalk.
  unfold round_trip. cbn [_extract_units UnitClass].
  destruct (JsonFile_extract_units rt C_JsonUnit false T None
                                   EmptyString None None None) as [us|];
    [|discriminate].
  cbn [option_map] in Hwalk. injection Hwalk as Hwalk.
  unfold JsonFile_serialize, store_of.
  rewrite units_fold_addunit, merge_units_fold. cbn [new_store units app].
  rewrite Hwalk.
  set (P := fun kv : string * json =>
              is_leaf (snd kv) = true
              /\ exists leaf, In leaf (leaves T) /\ kv = (flat_key leaf, snd leaf)).
  assert (H : forall (ls : list (list segment * json)) (acc : dict),
             (forall leaf, In leaf ls -> In leaf (leaves T)) ->
             Forall P acc ->
             exists d,
               fold_left add_fragment
                         (map (fun leaf =>
                                 Some (JDict [(Str.lstrip "." ("" ++ render (fst leaf)),
                                               snd leaf)])) ls)
                         (Some acc) = Some d
               /\ Forall P d).
  { induction ls as [|leaf ls IH]; intros acc Hsub Hacc.
    - exists acc. now split.
    - cbn [map fold_left].
      assert (Hleaf : is_leaf (snd leaf) = true).
      { apply (leaves_are_leaves T). apply Hsub. now left. }
      rewrite add_flat_entry by assumption.
      apply IH; [intros l Hl; apply Hsub; now right|].
      apply Forall_set; [|assumption].
      split; [exact Hleaf|]. exists leaf. split; [apply Hsub; now left | reflexivity]. }
  destruct (H (leaves T) [] (fun leaf Hin => Hin) (Forall_nil _)) as [d [Hd HP]].
  exists d. split; [|exact HP].
  exact (f_equal (option_map JDict) Hd).
Qed.

Lemma lstrip_no_dot k : Str.startswith k "." = false -> Str.lstrip "." k = k.
Proof.
  destruct k as [|a k]; [reflexivity|]. unfold Str.startswith. cbn [prefix Str.lstrip].
  destruct (ascii_dec "." a) as [<- | Hne].
  - destruct k; discriminate.
  - intros _. destruct (Ascii.eqb_spec a ".") as [-> | _]; [congruence | reflexivity].
Qed.

(** X4: an object of leaves with distinct keys, none of which starts with a
    dot, is written back by the flat store as it was read, in the same
    order; a dot inside a key does no harm there. *)
Theorem flat_round_trip (rt : Runtime) (d : dict) :
  flat_document d = true ->
  round_trip rt F_JsonFile (JDict d) = Some (JDict d).
Proof.
  intros Hflat. unfold flat_document in Hflat. apply andb_true_iff in Hflat.
  destruct Hflat as [Hdistinct Hok]. apply distinct_NoDup in Hdistinct.
  pose proof (walk_maps_leaves rt C_JsonUnit (getvalue rt None)
                (fun prev data => Some (JDict [(Str.lstrip "." prev, data)]))
                (fun data nn prev u => getvalue_of_flat_leaf rt data nn prev u)
                (JDict d) EmptyString None None None) as Hwalk.
  unfold round_trip. cbn [_extract_units UnitClass].
  destruct (JsonFile_extract_units rt C_JsonUnit false (JDict d) None
                                   EmptyString None None None) as [us|];
    [|discriminate].
  cbn [option_map] in Hwalk. injection Hwalk as Hwalk.
  unfold JsonFile_serialize, store_of.
  rewrite units_fold_addunit, merge_units_fold. cbn [new_store units app].
  rewrite Hwalk. cbn [leaves].
  assert (H : forall (items acc : dict),
             NoDup (Dict.keys (acc ++ items)) ->
             forallb (fun kv => is_leaf (snd kv) && negb (Str.startswith (fst kv) "."))
                     items = true ->
             fold_left add_fragment
                       (map (fun leaf =>
                               Some (JDict [(Str.lstrip "." ("" ++ render (fst leaf)),
                                             snd leaf)]))
                            (flat_map (fun kv => map (under (ObjectKey (fst kv)))
                                                     (leaves (snd kv))) items))
                       (Some acc) = Some (acc ++ items)).
  { induction items as [|[k v] items IH]; intros acc Hnd Hitems.
    - now rewrite app_nil_r.
    - cbn [forallb fst snd] in Hitems. rewrite !andb_true_iff, negb_true_iff in Hitems.
      destruct Hitems as [[Hleaf Hdot] Hitems].
      cbn [flat_map fst snd]. rewrite (leaves_of_leaf v Hleaf).
      cbn [map app fold_left].
      change (under (ObjectKey k) ([], v)) with ([ObjectKey k], v).
      cbn [fst snd]. rewrite add_flat_entry by assumption.
      replace (Str.lstrip "." ("" ++ render [ObjectKey k])) with k
        by (simpl; rewrite append_empty_r; symmetry; now apply lstrip_no_dot).
      assert (Hfresh : Dict.get k acc = None).
      { apply get_none_not_in. unfold Dict.keys in Hnd. rewrite map_app in Hnd.
        simpl in Hnd. apply NoDup_remove_2 in Hnd.
        intros Hin. apply Hnd, in_or_app. now left. }
      rewrite (set_absent k v acc Hfresh), (IH (acc ++ [(k, v)])).
      + now rewrite <- app_assoc.
      + now rewrite <- app_assoc.
      + assumption. }
  exact (f_equal (option_map JDict) (H d [] Hdistinct Hok)).
Qed.

Lemma flat_round_trip_witness :
  round_trip example_runtime F_JsonFile
             (JDict [("menu.title", JStr "Hello"); ("count", JInt 3); ("", JNull)])
  = Some (JDict [("menu.title", JStr "Hello"); ("count", JInt 3); ("", JNull)]).
Proof.
  apply (flat_round_trip example_runtime
           [("menu.title", JStr "Hello"); ("count", JInt 3); ("", JNull)]).
  reflexivity.
Defined.

(** ** The generic walk under a filter *)

Lemma option_app_some {A} (a b : option (list A)) x y :
  a = Some x -> b = Some y -> option_app a b = Some (x ++ y).
Proof. intros -> ->. reflexivity. Qed.

(** X5: an empty filter selects nothing: under it the walk yields no unit
    at all, whatever the document is, and does not raise. *)
Theorem empty_filter_yields_nothing (rt : Runtime) (c : unit_class) (T : json) :
  forall prev name_node name_last_node last_node,
    JsonFile_extract_units rt c false T (Some []) prev
                           name_node name_last_node last_node = Some [].
Proof.
  induction T as [| b | z | r | s | l IHl | d IHd] using json_ind;
    intros prev nn nln last.
  1-5: cbn [JsonFile_extract_units];
       replace (passes_filter (Some []) nn nln last) with false;
       [reflexivity
       | unfold passes_filter; destruct nn as [[]|], nln as [[]|];
         simpl; now rewrite ?andb_false_r].
  - rewrite extract_list. generalize (JList l) as data. generalize 0 as i.
    induction IHl as [|x l Hx _ IH]; intros i data; [reflexivity|].
    cbn [walk_elements]. now rewrite Hx, IH.
  - rewrite extract_dict. generalize (JDict d) as data.
    induction IHd as [|[k x] d Hx _ IH]; intros data; [reflexivity|].
    cbn [walk_items]. simpl in Hx. now rewrite Hx, IH.
Qed.

(** X6: a filter only removes units: every unit that the walk yields under a
    filter is yielded, the same, with no filter; and the walk never
    raises. *)
Theorem filter_only_removes_units (rt : Runtime) (c : unit_class) (T : json) :
  forall stop prev name_node name_last_node last_node,
  exists selected every,
    JsonFile_extract_units rt c false T stop prev
                           name_node name_last_node last_node = Some selected
    /\ JsonFile_extract_units rt c false T None prev
                              name_node name_last_node last_node = Some every
    /\ incl selected every
    /\ List.length selected <= List.length every.
Proof.
  induction T as [| b | z | r | s | l IHl | d IHd] using json_ind;
    intros stop prev nn nln last.
  1-5: match goal with
       | |- context [JsonFile_extract_units _ _ _ ?data] =>
           destruct (leaf_unit_some rt c data nn prev eq_refl) as [u [Hu _]];
           cbn [JsonFile_extract_units]; rewrite Hu;
           destruct (passes_filter stop nn nln last);
           [ exists [u], [u] | exists [], [u] ];
           (repeat split; [apply incl_refl || apply incl_nil_l | simpl; lia])
       end.
  - rewrite !extract_list. generalize (JList l) as data. generalize 0 as i.
    induction IHl as [|x l Hx _ IH]; intros i data.
    + exists [], []. repeat split; [apply incl_refl | lia].
    + cbn [walk_elements].
      destruct (Hx stop (prev ++ "[" ++ Str.of_nat i ++ "]")%string
                   (Some (Index i)) nn (Some data))
        as [s1 [e1 [-> [-> [Hi1 Hl1]]]]].
      destruct (IH (S i) data) as [s2 [e2 [-> [-> [Hi2 Hl2]]]]].
      exists (s1 ++ s2), (e1 ++ e2). repeat split.
      * now apply incl_app_app.
      * rewrite !length_app. lia.
  - rewrite !extract_dict. generalize (JDict d) as data.
    induction IHd as [|[k x] d Hx _ IH]; intros data.
    + exists [], []. repeat split; [apply incl_refl | lia].
    + cbn [walk_items]. simpl in Hx.
      destruct (Hx stop (prev ++ "." ++ k)%string (Some (Key k)) None (Some data))
        as [s1 [e1 [-> [-> [Hi1 Hl1]]]]].
      destruct (IH data) as [s2 [e2 [-> [-> [Hi2 Hl2]]]]].
      exists (s1 ++ s2), (e1 ++ e2). repeat split.
      * now apply incl_app_app.
      * rewrite !length_app. lia.
Qed.

(** ** Documents with no leaf, and documents that are one leaf *)

(** X7: a document with no leaf in it (empty objects and arrays only) yields
    no unit, and the store writes the empty object for it, whatever the
    document was. *)
Theorem leafless_document_is_written_empty (rt : Runtime) (fc : file_class) (T : json) :
  fc = F_JsonFile \/ fc = F_JsonNestedFile ->
  leaves T = [] ->
  _extract_units rt fc T None = Some []
  /\ round_trip rt fc T = Some (JDict []).
Proof.
  intros Hfc Hleaves.
  assert (E : _extract_units rt fc T None = Some []).
  { assert (H : option_map (map id_and_value) (_extract_units rt fc T None)
                = Some (map (at_path EmptyString) (leaves T)))
      by (destruct Hfc as [-> | ->]; apply walk_is_leaves).
    rewrite Hleaves in H.
    destruct (_extract_units rt fc T None) as [[|u us]|]; try discriminate.
    reflexivity. }
  split; [exact E|]. unfold round_trip. now rewrite E.
Qed.

Lemma leafless_document_is_written_empty_witness :
  round_trip example_runtime F_JsonNestedFile
             (JDict [("a", JDict []); ("b", JList [JList []])])
  = Some (JDict []).
Proof.
  apply (proj2 (leafless_document_is_written_empty
                  example_runtime F_JsonNestedFile
                  (JDict [("a", JDict []); ("b", JList [JList []])])
                  (or_intror eq_refl) eq_refl)).
Defined.

(** X8: a document that is one leaf, with no object around it, becomes one
    unit with the empty identifier, and both stores write it as an object
    with the leaf under the empty key. *)
Theorem bare_leaf_is_written_under_empty_key (rt : Runtime) (fc : file_class)
    (T : json) :
  fc = F_JsonFile \/ fc = F_JsonNestedFile ->
  is_leaf T = true ->
  option_map (map id_and_value) (_extract_units rt fc T None)
  = Some [(EmptyString, VJson T)]
  /\ round_trip rt fc T = Some (JDict [(EmptyString, T)]).
Proof.
  intros Hfc Hleaf.
  assert (E : exists u,
             _extract_units rt fc T None = Some [u]
             /\ id_and_value u = (EmptyString, VJson T)
             /\ getvalue rt None u = Some (JDict [(EmptyString, T)])).
  { destruct (leaf_unit_some rt (UnitClass fc) T None EmptyString Hleaf)
      as [u [Hu [Hid [Ht _]]]].
    exists u. split; [|split].
    - destruct Hfc as [-> | ->]; destruct T; try discriminate;
        cbn [_extract_units JsonFile_extract_units passes_filter];
        now rewrite Hu.
    - unfold id_and_value. now rewrite Hid, Ht.
    - destruct Hfc as [-> | ->].
      + now rewrite (getvalue_of_flat_leaf rt T None EmptyString u Hleaf Hu).
      + now rewrite (getvalue_of_leaf rt T None EmptyString u Hleaf Hu). }
  destruct E as [u [Hu [Hiv Hv]]]. split.
  - rewrite Hu. simpl. now rewrite Hiv.
  - unfold round_trip, JsonFile_serialize, store_of. rewrite Hu.
    rewrite units_fold_addunit, merge_units_fold.
    destruct fc; cbn [new_store units app map fold_left]; rewrite Hv; reflexivity.
Qed.

Lemma bare_leaf_is_written_under_empty_key_witness :
  round_trip example_runtime F_JsonNestedFile (JStr "hello")
  = Some (JDict [(EmptyString, JStr "hello")]).
Proof.
  apply (proj2 (bare_leaf_is_written_under_empty_key
                  example_runtime F_JsonNestedFile (JStr "hello")
                  (or_intror eq_refl) eq_refl)).
Defined.

(** ** [parse] on an input that the parser accepts *)

Lemma fold_addunit_keeps us : forall st,
  store_class (fold_left addunit us st) = store_class st
  /\ _filter (fold_left addunit us st) = _filter st
  /\ filename (fold_left addunit us st) = filename st
  /\ _file (fold_left addunit us st) = _file st
  /\ encoding (fold_left addunit us st) = encoding st.
Proof.
  induction us as [|u us IH]; intros st; simpl; [repeat split|].
  destruct (IH (addunit st u)) as [H1 [H2 [H3 [H4 H5]]]].
  now rewrite H1, H2, H3, H4, H5.
Qed.

(** X9: when the parser accepts the input and the extraction does not raise,
    [parse] keeps the parsed document in [_file] and adds the extracted units
    after the units the store already holds: it does not start from an empty
    store, so parsing into a store twice leaves every unit in it twice. *)
Theorem parse_adds_to_the_store (rt : Runtime) (st : Store) (input : Input)
    (parsed : json) (us : list Unit) :
  json_loads rt (decoded rt input) = inr parsed ->
  _extract_units rt (store_class st) parsed (_filter st) = Some us ->
  exists st',
    JsonFile_parse rt st input = Returned st'
    /\ units st' = units st ++ us
    /\ _file st' = parsed
    /\ _filter st' = _filter st
    /\ (forall st'',
           JsonFile_parse rt st' input = Returned st'' ->
           units st'' = (units st ++ us) ++ us).
Proof.
  intros Hloads Hus.
  assert (Hgen : forall st0,
             store_class st0 = store_class st -> _filter st0 = _filter st ->
             exists st',
               JsonFile_parse rt st0 input = Returned st'
               /\ units st' = units st0 ++ us
               /\ _file st' = parsed
               /\ _filter st' = _filter st
               /\ store_class st' = store_class st).
  { intros st0 Hc Hf. unfold JsonFile_parse, decoded in *.
    destruct (input_content input) as [s|b].
    - rewrite Hloads.
      destruct (input_name input) as [n|];
        cbn [store_class _filter]; rewrite Hc, Hf, Hus;
        eexists; (split; [reflexivity|]);
        match goal with
        | |- context [fold_left addunit us ?s0] =>
            destruct (fold_addunit_keeps us s0) as [H1 [H2 [_ [H4 _]]]];
            rewrite units_fold_addunit, H1, H2, H4
        end; now repeat split.
    - destruct (detect_encoding rt b) as [s enc]; cbn [fst] in Hloads.
      rewrite Hloads.
      destruct (input_name input) as [n|];
        cbn [store_class _filter]; rewrite Hc, Hf, Hus;
        eexists; (split; [reflexivity|]);
        match goal with
        | |- context [fold_left addunit us ?s0] =>
            destruct (fold_addunit_keeps us s0) as [H1 [H2 [_ [H4 _]]]];
            rewrite units_fold_addunit, H1, H2, H4
        end; now repeat split. }
  destruct (Hgen st eq_refl eq_refl) as [st' [Hp [Hu [Hfile [Hfilter Hclass]]]]].
  exists st'. repeat split; try assumption.
  intros st'' Hp'.
  destruct (Hgen st' Hclass Hfilter) as [st2 [Hp2 [Hu2 _]]].
  rewrite Hp2 in Hp'. injection Hp' as <-. now rewrite Hu2, Hu.
Qed.

Lemma parse_adds_to_the_store_witness :
  exists st',
    JsonFile_parse reading_runtime
                   (mkStore F_JsonNestedFile
                            [mkUnit C_JsonNestedUnit ".a" (One (Key "a")) TStr
                                    (JStr EmptyString) JNull (VJson (JStr "x")) []]
                            None EmptyString (JStr EmptyString) "utf-8" None)
                   {| input_name := Some "en.json"; input_content := Bytes "[7, 8]" |}
    = Returned st'
    /\ units st'
       = [mkUnit C_JsonNestedUnit ".a" (One (Key "a")) TStr
                 (JStr EmptyString) JNull (VJson (JStr "x")) [];
          mkUnit C_JsonNestedUnit "[0]" (One (Index 0)) TInt
                 (JStr EmptyString) JNull (VJson (JInt 7)) [];
          mkUnit C_JsonNestedUnit "[1]" (One (Index 1)) TInt
                 (JStr EmptyString) JNull (VJson (JInt 8)) []]
    /\ _file st' = JList [JInt 7; JInt 8]
    /\ _filter st' = None
    /\ (forall st'',
           JsonFile_parse reading_runtime st'
                          {| input_name := Some "en.json";
                             input_content := Bytes "[7, 8]" |}
           = Returned st'' ->
           units st''
           = [mkUnit C_JsonNestedUnit ".a" (One (Key "a")) TStr
                     (JStr EmptyString) JNull (VJson (JStr "x")) [];
              mkUnit C_JsonNestedUnit "[0]" (One (Index 0)) TInt
                     (JStr EmptyString) JNull (VJson (JInt 7)) [];
              mkUnit C_JsonNestedUnit "[1]" (One (Index 1)) TInt
                     (JStr EmptyString) JNull (VJson (JInt 8)) [];
              mkUnit C_JsonNestedUnit "[0]" (One (Index 0)) TInt
                     (JStr EmptyString) JNull (VJson (JInt 7)) [];
              mkUnit C_JsonNestedUnit "[1]" (One (Index 1)) TInt
                     (JStr EmptyString) JNull (VJson (JInt 8)) []]).
Proof.
  apply (parse_adds_to_the_store
           reading_runtime
           (mkStore F_JsonNestedFile
                    [mkUnit C_JsonNestedUnit ".a" (One (Key "a")) TStr
                            (JStr EmptyString) JNull (VJson (JStr "x")) []]
                    None EmptyString (JStr EmptyString) "utf-8" None)
           {| input_name := Some "en.json"; input_content := Bytes "[7, 8]" |}
           (JList [JInt 7; JInt 8])
           [mkUnit C_JsonNestedUnit "[0]" (One (Index 0)) TInt
                   (JStr EmptyString) JNull (VJson (JInt 7)) [];
            mkUnit C_JsonNestedUnit "[1]" (One (Index 1)) TInt
                   (JStr EmptyString) JNull (VJson (JInt 8)) []]);
    reflexivity.
Defined.

(** ** ARB bundles: reading *)

Lemma prefix_empty k : prefix "" k = true.
Proof. now destruct k. Qed.

Lemma startswith_at k : Str.startswith ("@" ++ k) "@" = true.
Proof.
  unfold Str.startswith. cbn [append prefix].
  destruct (ascii_dec "@" "@"); [apply prefix_empty | congruence].
Qed.

Lemma startswith_atat k : Str.startswith ("@" ++ k) "@@" = Str.startswith k "@".
Proof.
  unfold Str.startswith. cbn [append prefix].
  destruct (ascii_dec "@" "@"); [reflexivity | congruence].
Qed.

Lemma startswith_atat_at k :
  Str.startswith k "@@" = true -> Str.startswith k "@" = true.
Proof.
  unfold Str.startswith. destruct k as [|a k]; cbn [prefix]; [discriminate|].
  destruct (ascii_dec "@" a); [|trivial]. intros _. apply prefix_empty.
Qed.

Lemma at_key_differs k : k <> ("@" ++ k)%string.
Proof.
  intros H. apply (f_equal String.length) in H. simpl in H. lia.
Qed.

Lemma ARB_init rt value item_ notes_ placeholders_ metadata_ :
  JsonUnit_init rt C_ARBJsonUnit (VJson value) item_ notes_ placeholders_ metadata_
  = Some (mkUnit C_ARBJsonUnit (uuid4 rt)
                 (match item_ with None => One (Key (uuid4 rt)) | Some i => i end)
                 (if is_none (VJson value) then TStr else type_of (VJson value))
                 (if truthy notes_ then notes_ else JStr EmptyString)
                 placeholders_ (VJson value) metadata_).
Proof.
  unfold JsonUnit_init, TranslationUnit_init, set_source, set_target.
  cbn [cls ID_FORMAT _type].
  destruct value; cbn -[String.eqb Z.eqb truthy];
    repeat match goal with
           | |- context [if truthy ?v then _ else _] =>
               destruct (truthy v); cbn -[String.eqb Z.eqb truthy]
           end;
    reflexivity.
Qed.

Lemma ARB_data_units_readable rt (d : dict) : forall l : dict,
  (exists us, ARB_data_units rt d l = Some us)
  <-> forallb (fun kv =>
                 Str.startswith (fst kv) "@"
                 || match Dict.get ("@" ++ fst kv)%string d with
                    | Some (JDict _) | None => true
                    | Some _ => false
                    end) l = true.
Proof.
  induction l as [|[item value] l IH]; cbn [ARB_data_units forallb fst].
  - split; [reflexivity | now eexists].
  - destruct (Str.startswith item "@"); cbn [orb andb]; [exact IH|].
    unfold ARB_metadata.
    assert (Hok : (exists us,
                      match JsonUnit_init rt C_ARBJsonUnit (VJson value)
                                          (Some (One (Key item)))
                                          (get_default "description" (JStr "") [])
                                          (get_default "placeholders" JNull [])
                                          [] with
                      | Some unit => option_app (Some [setid unit item])
                                                (ARB_data_units rt d l)
                      | None => None
                      end = Some us) <-> (exists us, ARB_data_units rt d l = Some us)).
    { rewrite ARB_init. split; intros [us H].
      - destruct (ARB_data_units rt d l) as [us'|]; [now eexists | discriminate].
      - rewrite H. now eexists. }
    assert (Hdict : forall m,
               (exists us,
                   match JsonUnit_init rt C_ARBJsonUnit (VJson value)
                                       (Some (One (Key item)))
                                       (get_default "description" (JStr "") m)
                                       (get_default "placeholders" JNull m)
                                       m with
                   | Some unit => option_app (Some [setid unit item])
                                             (ARB_data_units rt d l)
                   | None => None
                   end = Some us) <-> (exists us, ARB_data_units rt d l = Some us)).
    { intros m. rewrite ARB_init. split; intros [us H].
      - destruct (ARB_data_units rt d l) as [us'|]; [now eexists | discriminate].
      - rewrite H. now eexists. }
    assert (Hbad : (exists us : list Unit, @None (list Unit) = Some us) <-> false = true).
    { split; [intros [us H]; discriminate | discriminate]. }
    destruct (Dict.get ("@" ++ item)%string d) as [[| | | | | |m]|]; cbn [andb];
      try exact Hbad.
    + rewrite <- IH. apply Hdict.
    + rewrite <- IH. apply Hok.
Qed.

(** X10: the ARB extraction raises exactly when the bundle is not an object or
    when, for a key with no [@] in front, what stands under [@key] is
    something else than an object; a message with no [@key] item is read
    with empty metadata. *)
Theorem arb_extraction_raises_on_bad_metadata (rt : Runtime) (T : json)
    (stop : option (list string)) :
  (exists us, _extract_units rt F_ARBJsonFile T stop = Some us)
  <-> (exists d, T = JDict d /\ arb_readable d = true).
Proof.
  cbn [_extract_units]. destruct T as [| | | | | |d];
    try (split; [intros [us H]; discriminate | intros [d [H _]]; discriminate]).
  cbn [ARBJsonFile_extract_units]. rewrite ARB_init. cbn [option_map].
  split.
  - intros [us H]. exists d. split; [reflexivity|].
    apply (ARB_data_units_readable rt d d).
    destruct (ARB_data_units rt d d) as [us'|]; [now eexists|].
    destruct (truthy _); discriminate.
  - intros [d' [Hd Hr]]. injection Hd as <-.
    apply (ARB_data_units_readable rt d d) in Hr. destruct Hr as [us ->].
    destruct (truthy _); now eexists.
Qed.

Lemma arb_extraction_raises_on_bad_metadata_witness :
  _extract_units example_runtime F_ARBJsonFile
                 (JDict [("title", JStr "Hi"); ("@title", JStr "a greeting")]) None
  = None
  /\ exists us,
       _extract_units example_runtime F_ARBJsonFile
                      (JDict [("title", JStr "Hi")]) None = Some us.
Proof.
  split; [reflexivity|].
  apply (proj2 (arb_extraction_raises_on_bad_metadata
                  example_runtime (JDict [("title", JStr "Hi")]) None)).
  exists [("title", JStr "Hi")]. split; reflexivity.
Defined.

(** ** ARB bundles: writing *)

Lemma set_same k v (d : dict) : Dict.get k d = Some v -> Dict.set k v d = d.
Proof.
  induction d as [|[k' v'] d IH]; simpl; [discriminate|].
  destruct (String.eqb k' k) eqn:E.
  - intros H. now injection H as ->.
  - intros H. now rewrite IH.
Qed.

Lemma NoDup_app_disjoint {A} (l1 l2 : list A) :
  NoDup (l1 ++ l2) -> forall x, In x l1 -> ~ In x l2.
Proof.
  induction l1 as [|a l1 IH]; intros Hnd x Hin; [contradiction|].
  simpl in Hnd. inversion Hnd as [|? ? Ha Hnd']; subst.
  destruct Hin as [<- | Hin].
  - intros H2. apply Ha, in_or_app. now right.
  - now apply IH.
Qed.

Lemma arb_getvalue_record c id it ty n plh tgt (md : dict) :
  snd (ARBJsonUnit_getvalue (mkUnit c id it ty n plh tgt md))
  = let md' := if truthy n then Dict.set "description" n md else md in
    if String.eqb id "@" then JDict md'
    else JDict (Dict.of_pairs [(id, as_json tgt); (("@" ++ id)%string, JDict md')]).
Proof.
  unfold ARBJsonUnit_getvalue. cbn [notes metadata].
  destruct (truthy n); cbn [with_metadata getid _id metadata target cls _item _type
                            notes placeholders];
    destruct (String.eqb id "@"); reflexivity.
Qed.

Lemma arb_getvalue_message rt value item placeholders_ (md : dict) unit :
  Str.startswith item "@" = false ->
  JsonUnit_init rt C_ARBJsonUnit (VJson value) (Some (One (Key item)))
                (get_default "description" (JStr EmptyString) md)
                placeholders_ md = Some unit ->
  getvalue rt None (setid unit item)
  = Some (JDict [(item, value); (("@" ++ item)%string, JDict md)]).
Proof.
  intros Hitem Hinit. rewrite ARB_init in Hinit. injection Hinit as <-.
  assert (Hne : String.eqb item "@" = false).
  { destruct (String.eqb_spec item "@") as [->|_]; [discriminate | reflexivity]. }
  assert (Hpairs : Dict.of_pairs [(item, value); (("@" ++ item)%string, JDict md)]
                   = [(item, value); (("@" ++ item)%string, JDict md)]).
  { apply of_pairs_nodup. repeat constructor; simpl; [|tauto].
    intros [H | []]. now apply (at_key_differs item). }
  unfold getvalue, setid, with_id. cbn [cls].
  rewrite arb_getvalue_record. cbn zeta. cbn [notes metadata target as_json].
  rewrite Hne.
  assert (Hmd : (if truthy (if truthy (get_default "description" (JStr "") md)
                            then get_default "description" (JStr "") md
                            else JStr "")
                 then Dict.set "description"
                               (if truthy (get_default "description" (JStr "") md)
                                then get_default "description" (JStr "") md
                                else JStr "") md
                 else md) = md).
  { unfold get_default. destruct (Dict.get "description" md) as [v|] eqn:Ed.
    - destruct (truthy v) eqn:Ev.
      + rewrite Ev. now apply set_same.
      + reflexivity.
    - reflexivity. }
  rewrite Hmd. now rewrite Hpairs.
Qed.

Lemma arb_getvalue_header rt (meta : dict) unit :
  JsonUnit_init rt C_ARBJsonUnit (VJson JNull) None JNull JNull meta = Some unit ->
  getvalue rt None (setid unit "@") = Some (JDict meta).
Proof.
  intros H. rewrite ARB_init in H. injection H as <-.
  unfold getvalue, setid, with_id. cbn [cls]. now rewrite arb_getvalue_record.
Qed.

Lemma keys_filter (P : string -> bool) (d : dict) :
  Dict.keys (filter (fun kv => P (fst kv)) d) = filter P (Dict.keys d).
Proof.
  induction d as [|[k v] d IH]; simpl; [reflexivity|].
  destruct (P k); simpl; now rewrite IH.
Qed.

Lemma keys_arb_written_for (d l : dict) :
  Dict.keys (flat_map (arb_written_for d) l) = arb_message_keys (Dict.keys l).
Proof.
  unfold arb_message_keys.
  induction l as [|[k v] l IH]; simpl; [reflexivity|].
  unfold Dict.keys in *. rewrite map_app, IH. f_equal.
  unfold arb_written_for; cbn [fst snd]. now destruct (Str.startswith k "@").
Qed.

Lemma in_arb_message_keys w l :
  In w (arb_message_keys l)
  <-> exists k, In k l /\ Str.startswith k "@" = false
                /\ (w = k \/ w = ("@" ++ k)%string).
Proof.
  unfold arb_message_keys. rewrite in_flat_map. split.
  - intros [k [Hin Hw]]. exists k. split; [assumption|].
    destruct (Str.startswith k "@"); [contradiction|].
    split; [reflexivity|]. destruct Hw as [<- | [<- | []]]; tauto.
  - intros [k [Hin [Hk Hw]]]. exists k. split; [assumption|].
    rewrite Hk. destruct Hw as [-> | ->]; simpl; tauto.
Qed.

Lemma nodup_arb_message_keys l : NoDup l -> NoDup (arb_message_keys l).
Proof.
  induction 1 as [|k l Hk Hnd IH]; [constructor|].
  change (arb_message_keys (k :: l))
    with ((if Str.startswith k "@" then [] else [k; ("@" ++ k)%string])
            ++ arb_message_keys l).
  destruct (Str.startswith k "@") eqn:Ek; [exact IH|].
  cbn [app]. constructor; [|constructor; [|exact IH]].
  - intros [H | H]; [now apply (at_key_differs k)|].
    apply in_arb_message_keys in H. destruct H as [k' [Hin [Hk' [-> | ->]]]].
    + contradiction.
    + rewrite startswith_at in Ek. discriminate.
  - intros H. apply in_arb_message_keys in H.
    destruct H as [k' [Hin [Hk' [E | E]]]].
    + rewrite <- E, startswith_at in Hk'. discriminate.
    + injection E as ->. contradiction.
Qed.

Lemma nodup_keys_arb_written (d : dict) :
  NoDup (Dict.keys d) -> NoDup (Dict.keys (arb_written d)).
Proof.
  intros Hnd. unfold arb_written, Dict.keys at 1. rewrite map_app.
  fold (Dict.keys (filter (fun kv => Str.startswith (fst kv) "@@") d)).
  fold (Dict.keys (flat_map (arb_written_for d) d)).
  rewrite (keys_filter (fun k => Str.startswith k "@@")), keys_arb_written_for.
  apply NoDup_app.
  - now apply NoDup_filter.
  - now apply nodup_arb_message_keys.
  - intros w Hw Hw'. apply filter_In in Hw. destruct Hw as [_ Hatat].
    apply in_arb_message_keys in Hw'. destruct Hw' as [k [_ [Hk [-> | ->]]]].
    + apply startswith_atat_at in Hatat. congruence.
    + rewrite startswith_atat in Hatat. congruence.
Qed.

Lemma arb_message_fragments rt (d : dict) : forall (l : dict) us (acc : dict),
  ARB_data_units rt d l = Some us ->
  NoDup (Dict.keys (acc ++ flat_map (arb_written_for d) l)) ->
  fold_left add_fragment (map (getvalue rt None) us) (Some acc)
  = Some (acc ++ flat_map (arb_written_for d) l).
Proof.
  induction l as [|[item value] l IH]; intros us acc Hus Hnd.
  - injection Hus as <-. simpl. now rewrite app_nil_r.
  - cbn [ARB_data_units] in Hus. cbn [flat_map] in *.
    unfold arb_written_for at 1 in Hnd. unfold arb_written_for at 1.
    cbn [fst snd] in *.
    destruct (Str.startswith item "@") eqn:Eitem; [now apply IH|].
    assert (Hmd : ARB_metadata d item = Some (arb_metadata_of d item)
                  \/ ARB_metadata d item = None).
    { unfold ARB_metadata, arb_metadata_of.
      destruct (Dict.get ("@" ++ item)%string d) as [[]|]; auto. }
    destruct Hmd as [Hmd | Hmd]; rewrite Hmd in Hus; [|discriminate].
    set (md := arb_metadata_of d item) in *.
    destruct (JsonUnit_init rt C_ARBJsonUnit (VJson value) (Some (One (Key item)))
                            (get_default "description" (JStr "") md)
                            (get_default "placeholders" JNull md) md)
      as [unit|] eqn:Einit; [|discriminate].
    destruct (ARB_data_units rt d l) as [us'|] eqn:Eus'; [|discriminate].
    injection Hus as <-. cbn [app map fold_left].
    rewrite (arb_getvalue_message rt value item _ md unit Eitem Einit).
    cbn [add_fragment].
    set (frag := [(item, value); (("@" ++ item)%string, JDict md)]) in *.
    change (frag ++ flat_map (arb_written_for d) l)
      with (frag ++ flat_map (arb_written_for d) l) in Hnd.
    assert (Hnd' : NoDup (Dict.keys ((acc ++ frag) ++ flat_map (arb_written_for d) l)))
      by now rewrite <- app_assoc.
    assert (Hfrag : NoDup (Dict.keys (acc ++ frag))).
    { unfold Dict.keys in *. rewrite map_app in Hnd'. now apply NoDup_app_remove_r in Hnd'. }
    rewrite merge_disjoint.
    + rewrite (IH us' (acc ++ frag) eq_refl Hnd'). now rewrite <- app_assoc.
    + unfold Dict.keys in *. rewrite map_app in Hfrag.
      now apply NoDup_app_remove_l in Hfrag.
    + intros k Hk Hk'. unfold Dict.keys in *. rewrite map_app in Hfrag.
      now apply (NoDup_app_disjoint _ _ Hfrag k Hk').
Qed.

Lemma arb_serialize_readable (rt : Runtime) (d : dict) :
  NoDup (Dict.keys d) ->
  arb_readable d = true ->
  round_trip rt F_ARBJsonFile (JDict d) = Some (JDict (arb_written d)).
Proof.
  intros Hdistinct Hread.
  pose proof (nodup_keys_arb_written d Hdistinct) as Hnd.
  apply (ARB_data_units_readable rt d d) in Hread. destruct Hread as [us2 Hus2].
  unfold round_trip. cbn [_extract_units ARBJsonFile_extract_units].
  set (meta := Dict.of_pairs (filter (fun kv => Str.startswith (fst kv) "@@") d)).
  assert (Hmeta : meta = filter (fun kv => Str.startswith (fst kv) "@@") d).
  { apply of_pairs_nodup. fold (Dict.keys (filter (fun kv => Str.startswith (fst kv) "@@") d)).
    rewrite (keys_filter (fun k => Str.startswith k "@@")). now apply NoDup_filter. }
  destruct (JsonUnit_init rt C_ARBJsonUnit (VJson JNull) None JNull JNull meta)
    as [unit|] eqn:Einit; [|rewrite ARB_init in Einit; discriminate].
  rewrite Hus2. cbn [option_map].
  unfold JsonFile_serialize, store_of. unfold arb_written in Hnd |- *.
  rewrite <- Hmeta in Hnd |- *.
  destruct (truthy (JDict meta)) eqn:Etruthy; cbn [option_app];
    rewrite units_fold_addunit, merge_units_fold; cbn [new_store units app].
  - cbn [map fold_left]. rewrite (arb_getvalue_header rt meta unit Einit).
    cbn [add_fragment].
    rewrite (merge_disjoint meta []).
    + cbn [app]. now rewrite (arb_message_fragments rt d d us2 meta Hus2 Hnd).
    + unfold Dict.keys in *. rewrite map_app in Hnd. now apply NoDup_app_remove_r in Hnd.
    + intros k _ [].
  - assert (E : meta = []) by (destruct meta; [reflexivity | discriminate]).
    rewrite E in Hnd |- *.
    now rewrite (arb_message_fragments rt d d us2 [] Hus2 Hnd).
Qed.

(** X11: what the ARB store writes for a bundle with distinct keys that it could
    read: the [@@] items first, in their order, then every message in
    document order, each one followed by the item [@key] with its metadata,
    an empty object when the bundle had none.  An [@key] item whose message
    is missing is not written. *)
Theorem arb_store_writes (rt : Runtime) (d : dict) :
  distinct (Dict.keys d) = true ->
  arb_readable d = true ->
  round_trip rt F_ARBJsonFile (JDict d) = Some (JDict (arb_written d)).
Proof.
  intros Hdistinct Hread. apply arb_serialize_readable; [|assumption].
  now apply distinct_NoDup.
Qed.

Lemma arb_store_writes_witness :
  round_trip example_runtime F_ARBJsonFile
             (JDict [("greeting", JStr "Hi"); ("@orphan", JNull); ("@@locale", JStr "en")])
  = Some (JDict [("@@locale", JStr "en"); ("greeting", JStr "Hi"); ("@greeting", JDict [])]).
Proof.
  apply (arb_store_writes example_runtime
           [("greeting", JStr "Hi"); ("@orphan", JNull); ("@@locale", JStr "en")]);
    reflexivity.
Defined.

(** ** ARB bundles: round trips *)

Lemma get_in_nodup (d : dict) k v :
  NoDup (Dict.keys d) -> In (k, v) d -> Dict.get k d = Some v.
Proof.
  induction d as [|[k' v'] d IH]; intros Hnd Hin; [contradiction|].
  simpl in *. inversion Hnd as [|? ? Hk' Hnd']; subst.
  destruct Hin as [E | Hin].
  - injection E as -> ->. now rewrite String.eqb_refl.
  - destruct (String.eqb_spec k' k) as [->|_]; [|now apply IH].
    exfalso. apply Hk'. now apply (in_map fst) in Hin.
Qed.

Lemma arb_canonical_spec headers entries :
  arb_canonical headers entries = true ->
  (forall kv, In kv headers -> Str.startswith (fst kv) "@@" = true)
  /\ (forall e, In e entries -> Str.startswith (fst (fst e)) "@" = false)
  /\ NoDup (Dict.keys (arb_bundle headers entries)).
Proof.
  unfold arb_canonical. rewrite !andb_true_iff, !forallb_forall.
  intros [[Hh He] Hd]. repeat split; [assumption | | now apply distinct_NoDup].
  intros e Hin. specialize (He e Hin). now apply negb_true_iff in He.
Qed.

Lemma arb_written_of_bundle headers entries :
  arb_canonical headers entries = true ->
  arb_readable (arb_bundle headers entries) = true
  /\ arb_written (arb_bundle headers entries) = arb_bundle headers entries.
Proof.
  intros Hc. destruct (arb_canonical_spec _ _ Hc) as [Hh [He Hnd]].
  set (d := arb_bundle headers entries) in *.
  assert (Hmeta : forall key v m, In (key, v, m) entries ->
                                  Dict.get ("@" ++ key)%string d = Some (JDict m)).
  { intros key v m Hin. apply get_in_nodup; [assumption|].
    unfold d, arb_bundle. apply in_or_app. right. apply in_flat_map.
    exists (key, v, m). split; [assumption | simpl; tauto]. }
  split.
  - unfold arb_readable. apply forallb_forall. intros [k x] Hin. cbn [fst].
    unfold d, arb_bundle in Hin. apply in_app_or in Hin. destruct Hin as [Hin | Hin].
    + now rewrite (startswith_atat_at k (Hh _ Hin)).
    + apply in_flat_map in Hin. destruct Hin as [[[key v] m] [Hin Hk]].
      destruct Hk as [E | [E | []]]; injection E as <- <-.
      * rewrite (Hmeta key v m Hin). apply orb_true_r.
      * change (String "@" key) with ("@" ++ key)%string at 1.
        now rewrite startswith_at.
  - unfold arb_written.
    assert (Hfilter : filter (fun kv => Str.startswith (fst kv) "@@") d = headers).
    { unfold d, arb_bundle. rewrite filter_app.
      assert (E1 : filter (fun kv => Str.startswith (fst kv) "@@") headers = headers).
      { clear - Hh. induction headers as [|kv hs IH]; [reflexivity|]. simpl.
        rewrite (Hh kv) by now left. f_equal. apply IH. intros kv' H. apply Hh. now right. }
      assert (E2 : filter (fun kv : string * json => Str.startswith (fst kv) "@@")
                          (flat_map arb_entry entries) = []).
      { clear - He. induction entries as [|[[key v] m] es IH]; [reflexivity|].
        pose proof (He (key, v, m) (or_introl eq_refl)) as Hk. cbn [fst] in Hk.
        assert (Ek : Str.startswith key "@@" = false).
        { destruct (Str.startswith key "@@") eqn:E; [|reflexivity].
          apply startswith_atat_at in E. congruence. }
        change (flat_map arb_entry ((key, v, m) :: es))
          with ((key, v) :: (("@" ++ key)%string, JDict m) :: flat_map arb_entry es).
        cbn [filter fst]. rewrite Ek, startswith_atat, Hk.
        apply IH. intros e H. apply He. now right. }
      now rewrite E1, E2, app_nil_r. }
    rewrite Hfilter. unfold d at 2 3, arb_bundle. rewrite flat_map_app. f_equal.
    assert (E1 : forall hs, (forall kv, In kv hs -> Str.startswith (fst kv) "@@" = true) ->
                            flat_map (arb_written_for d) hs = []).
    { induction hs as [|kv hs IH]; intros Hhs; [reflexivity|]. cbn [flat_map].
      unfold arb_written_for at 1.
      rewrite (startswith_atat_at _ (Hhs kv (or_introl eq_refl))).
      apply IH. intros kv' H. apply Hhs. now right. }
    rewrite (E1 headers Hh). cbn [app].
    assert (E2 : forall es, (forall e, In e es -> In e entries) ->
                            flat_map (arb_written_for d) (flat_map arb_entry es)
                            = flat_map arb_entry es).
    { induction es as [|[[key v] m] es IH]; intros Hsub; [reflexivity|].
      change (flat_map arb_entry ((key, v, m) :: es))
        with (arb_entry (key, v, m) ++ flat_map arb_entry es).
      rewrite flat_map_app. f_equal; [|apply IH; intros e H; apply Hsub; now right].
      cbn [arb_entry flat_map]. unfold arb_written_for. cbn [fst snd].
      pose proof (He (key, v, m) (Hsub _ (or_introl eq_refl))) as Hk.
      cbn [fst] in Hk. rewrite Hk.
      change (String "@" key) with ("@" ++ key)%string.
      rewrite startswith_at. unfold arb_metadata_of.
      rewrite (Hmeta key v m) by (apply Hsub; now left).
      reflexivity. }
    now apply E2.
Qed.

(** X12: an ARB bundle written in the order the store writes (the [@@] items,
    then every message followed by its [@] item holding an object), with
    distinct keys, is written back as it was read, whatever the values of the
    messages and the contents of the metadata are. *)
Theorem arb_round_trip (rt : Runtime) (headers : dict)
    (entries : list (string * json * dict)) :
  arb_canonical headers entries = true ->
  round_trip rt F_ARBJsonFile (JDict (arb_bundle headers entries))
  = Some (JDict (arb_bundle headers entries)).
Proof.
  intros Hc. destruct (arb_written_of_bundle headers entries Hc) as [Hread Hwritten].
  destruct (arb_canonical_spec _ _ Hc) as [_ [_ Hnd]].
  rewrite arb_serialize_readable; [now rewrite Hwritten | assumption | assumption].
Qed.

Lemma arb_round_trip_witness :
  round_trip example_runtime F_ARBJsonFile doc_arb = Some doc_arb.
Proof.
  apply (arb_round_trip example_runtime [("@@locale", JStr "en")]
                        [("greeting", JStr "Hi", [("description", JStr "salutes")])]).
  reflexivity.
Defined.

(** X13: a bundle with distinct keys, none of which starts with [@], does not
    come back as it was read: the ARB store writes every message followed by
    an empty [@] item of its own making. *)
Theorem arb_store_adds_empty_metadata (rt : Runtime) (d : dict) :
  distinct (Dict.keys d) = true ->
  forallb (fun kv => negb (Str.startswith (fst kv) "@")) d = true ->
  round_trip rt F_ARBJsonFile (JDict d)
  = Some (JDict (flat_map with_empty_metadata d))
  /\ (d <> [] -> round_trip rt F_ARBJsonFile (JDict d) <> Some (JDict d)).
Proof.
  intros Hdistinct Hplain. rewrite forallb_forall in Hplain.
  assert (Hno : forall k, Str.startswith k "@" = true -> Dict.get k d = None).
  { intros k Hk. apply get_none_not_in. intros Hin. apply in_map_iff in Hin.
    destruct Hin as [[k' v] [E Hin]]. simpl in E. subst k'.
    specialize (Hplain _ Hin). cbn [fst] in Hplain. rewrite Hk in Hplain. discriminate. }
  assert (Hread : arb_readable d = true).
  { unfold arb_readable. apply forallb_forall. intros [k v] _. cbn [fst].
    rewrite (Hno ("@" ++ k)%string (startswith_at k)). apply orb_true_r. }
  assert (Hwritten : arb_written d = flat_map with_empty_metadata d).
  { unfold arb_written.
    assert (E1 : filter (fun kv => Str.startswith (fst kv) "@@") d = []).
    { clear - Hplain. induction d as [|kv d IH]; [reflexivity|]. simpl.
      destruct (Str.startswith (fst kv) "@@") eqn:E.
      - apply startswith_atat_at in E. specialize (Hplain kv (or_introl eq_refl)).
        rewrite E in Hplain. discriminate.
      - apply IH. intros kv' H. apply Hplain. now right. }
    rewrite E1. cbn [app].
    assert (E2 : forall l : dict, (forall kv, In kv l -> In kv d) ->
                 flat_map (arb_written_for d) l = flat_map with_empty_metadata l).
    { induction l as [|[k v] l IH]; intros Hsub; [reflexivity|]. cbn [flat_map].
      f_equal; [|apply IH; intros kv H; apply Hsub; now right].
      unfold arb_written_for, with_empty_metadata, arb_metadata_of. cbn [fst snd].
      pose proof (Hplain _ (Hsub _ (or_introl eq_refl))) as Hk.
      cbn [fst] in Hk. apply negb_true_iff in Hk.
      now rewrite Hk, (Hno ("@" ++ k)%string (startswith_at k)). }
    now apply E2. }
  assert (E : round_trip rt F_ARBJsonFile (JDict d)
              = Some (JDict (flat_map with_empty_metadata d)))
    by (rewrite arb_serialize_readable;
        [now rewrite Hwritten | now apply distinct_NoDup | assumption]).
  split; [exact E|].
  intros Hne H. rewrite E in H. injection H as H.
  apply (f_equal (@List.length _)) in H.
  assert (Hlen : forall l : dict,
             List.length (flat_map with_empty_metadata l) = 2 * List.length l).
  { induction l as [|kv l IH]; simpl; [reflexivity|]. rewrite IH. lia. }
  rewrite Hlen in H. destruct d; [congruence | simpl in H; lia].
Qed.

Lemma arb_store_adds_empty_metadata_witness :
  round_trip example_runtime F_ARBJsonFile
             (JDict [("title", JStr "Hi"); ("count", JInt 2)])
  = Some (JDict [("title", JStr "Hi"); ("@title", JDict []);
                 ("count", JInt 2); ("@count", JDict [])]).
Proof.
  apply (proj1 (arb_store_adds_empty_metadata
                  example_runtime [("title", JStr "Hi"); ("count", JInt 2)]
                  eq_refl eq_refl)).
Defined.

(** ** The i18next store on documents without plural keys *)

Lemma classify_ordinary k : classify_key k [] [] = Some Ordinary.
Proof.
  unfold classify_key. cbn [list_mem existsb orb].
  destruct (if Str.contains_char "_" k then Str.rsplit1 "_" k else None)
    as [[plural_base digit]|]; reflexivity.
Qed.

Lemma no_plural_bases (d : dict) :
  no_plural_keys (JDict d) = true ->
  plural_bases "_0" d = [] /\ plural_bases "_plural" d = [].
Proof.
  intros H. cbn [no_plural_keys] in H. rewrite forallb_forall in H.
  split; apply plural_bases_none; intros key Hin; apply in_map_iff in Hin;
    destruct Hin as [[k v] [E Hin]]; simpl in E; subst k;
    specialize (H _ Hin); cbn [fst snd] in H;
    rewrite !andb_true_iff, !negb_true_iff in H; tauto.
Qed.

Lemma i18next_walk_is_generic rt c (T : json) :
  no_plural_keys T = true ->
  forall stop prev name_node name_last_node last_node,
    JsonFile_extract_units rt c true T stop prev name_node name_last_node last_node
    = JsonFile_extract_units rt c false T stop prev name_node name_last_node last_node.
Proof.
  induction T as [| b | z | r | s | l IHl | d IHd] using json_ind;
    intros Hno stop prev nn nln last; try reflexivity.
  - rewrite !extract_list. generalize (JList l) as data. generalize 0 as i.
    cbn [no_plural_keys] in Hno.
    induction IHl as [|x l Hx _ IH]; intros i data; [reflexivity|].
    cbn [forallb] in Hno. apply andb_true_iff in Hno. destruct Hno as [Hnx Hnl].
    cbn [walk_elements]. now rewrite (Hx Hnx), (IH Hnl).
  - destruct (no_plural_bases d Hno) as [Hpm Hps].
    rewrite extract_dict. cbn [JsonFile_extract_units]. rewrite Hpm, Hps.
    cbn [no_plural_keys] in Hno. clear Hpm Hps.
    generalize (JDict d) as data. generalize d at 1 as d0.
    induction IHd as [|[k x] d Hx _ IH]; intros d0 data; [reflexivity|].
    cbn [forallb fst snd] in Hno. rewrite !andb_true_iff in Hno.
    destruct Hno as [[_ Hnx] Hnl]. simpl in Hx.
    cbn [list_mem existsb walk_items]. rewrite classify_ordinary.
    now rewrite (Hx Hnx), (IH Hnl).
Qed.

(** X14: on a document in which no key ends with [_0] or [_plural], the
    extraction of the i18next store is the generic walk of [JsonFile], under
    every filter: it finds no plural group, and with no filter it yields one
    unit per leaf, with the rendered path as identifier. *)
Theorem i18next_without_plural_keys_is_generic (rt : Runtime) (T : json)
    (stop : option (list string)) :
  no_plural_keys T = true ->
  _extract_units rt F_I18NextFile T stop
  = JsonFile_extract_units rt C_I18NextUnit false T stop EmptyString None None None
  /\ option_map (map id_and_value) (_extract_units rt F_I18NextFile T None)
     = Some (map (at_path EmptyString) (leaves T)).
Proof.
  intros Hno. cbn [_extract_units UnitClass]. split.
  - now apply i18next_walk_is_generic.
  - rewrite (i18next_walk_is_generic rt C_I18NextUnit T Hno). apply walk_is_leaves.
Qed.

Lemma i18next_without_plural_keys_is_generic_witness :
  _extract_units example_runtime F_I18NextFile doc_abc (Some ["c"])
  = JsonFile_extract_units example_runtime C_I18NextUnit false doc_abc (Some ["c"])
                           EmptyString None None None
  /\ option_map (map id_and_value) (_extract_units example_runtime F_I18NextFile doc_abc None)
     = Some (map (at_path EmptyString) (leaves doc_abc)).
Proof.
  apply (i18next_without_plural_keys_is_generic example_runtime doc_abc (Some ["c"])).
  reflexivity.
Defined.

(** ** The round trip of the i18next store *)

Lemma i18next_getvalue_of_leaf rt data name_node prev u :
  is_leaf data = true ->
  leaf_unit rt C_I18NextUnit data name_node prev = Some u ->
  getvalue rt None u = Some (fragment prev data).
Proof.
  intros Hleaf Hu.
  destruct (leaf_unit_some rt C_I18NextUnit data name_node prev Hleaf)
    as [u' [Hu' [Hid [Ht [Hcls Hty]]]]].
  rewrite Hu in Hu'. injection Hu' as <-.
  unfold getvalue, I18NextUnit_getvalue, JsonNestedUnit_getvalue,
    JsonNestedUnit_getkey, converttarget.
  rewrite Hcls, Ht, Hty, Hid.
  destruct data; try discriminate; reflexivity.
Qed.

(** X15: the i18next store writes a document back as it read it, when no unit
    is edited, the document has the shape that the nested store writes back
    (an object; no empty object or array below the root; arrays of leaves;
    keys that are not empty and hold no [.] and no [[]) and none of its keys
    ends with [_0] or [_plural]. *)
Theorem i18next_round_trip (rt : Runtime) (T : json) :
  plain_document T = true ->
  no_plural_keys T = true ->
  round_trip rt F_I18NextFile T = Some T.
Proof.
  intros Hdoc Hno. destruct T as [| | | | | |d]; try discriminate.
  cbn [plain_document] in Hdoc. apply andb_true_iff in Hdoc.
  destruct Hdoc as [Hdistinct Hok]. apply distinct_NoDup in Hdistinct.
  pose proof (walk_maps_leaves rt C_I18NextUnit (getvalue rt None)
                (fun prev data => Some (fragment prev data))
                (fun data nn prev u => i18next_getvalue_of_leaf rt data nn prev u)
                (JDict d) EmptyString None None None) as Hwalk.
  unfold round_trip. cbn [_extract_units UnitClass].
  rewrite (i18next_walk_is_generic rt C_I18NextUnit (JDict d) Hno).
  destruct (JsonFile_extract_units rt C_I18NextUnit false (JDict d) None
                                   EmptyString None None None) as [us|];
    [|discriminate].
  cbn [option_map] in Hwalk. injection Hwalk as Hwalk.
  unfold JsonFile_serialize, store_of. rewrite units_fold_addunit.
  cbn [units new_store app]. rewrite merge_units_fold, Hwalk.
  exact (f_equal (option_map JDict) (fragments_of_document d [] Hdistinct Hok)).
Qed.

Lemma i18next_round_trip_witness :
  round_trip example_runtime F_I18NextFile doc_abc = Some doc_abc.
Proof.
  apply (i18next_round_trip example_runtime doc_abc); reflexivity.
Defined.

(** ** i18next units: the names of a unit and its forms *)

Lemma length_get_plurals count base : List.length (get_plurals count base) = count.
Proof.
  unfold get_plurals. destruct (Nat.leb count 2) eqn:E.
  - apply Nat.leb_le in E. rewrite length_firstn. simpl. lia.
  - now rewrite length_map, length_seq.
Qed.

(** X16: whatever is assigned to the target of an i18next unit, if the
    assignment does not raise then the unit keeps its identifier, holds the
    value, and names as many keys as the value has forms: a list of that
    length for a multistring, one name for any other value. *)
Theorem i18next_item_follows_target (u u' : Unit) (x : value) :
  cls u = C_I18NextUnit ->
  set_target u x = Some u' ->
  target u' = x /\ getid u' = getid u /\ cls u' = C_I18NextUnit
  /\ match x with
     | VMulti strings =>
         exists names, _item u' = Many names
                       /\ List.length names = List.length strings
     | VJson _ => exists n, _item u' = One n
     end.
Proof.
  intros Hcls. unfold set_target, I18NextUnit_set_target. rewrite Hcls.
  destruct x as [v | strings].
  - destruct (_item u) as [n | l] eqn:Hitem.
    + intros [= <-]. cbn. rewrite Hitem. repeat split; eauto.
    + destruct (get_base l) as [base|]; [|discriminate].
      intros [= <-]. cbn. repeat split; eauto.
  - destruct (Nat.eqb_spec (List.length strings)
                (List.length (match _item u with One n => [n] | Many l => l end)))
      as [E | _].
    + intros [= <-]. cbn. repeat split; eauto.
    + destruct (get_base _) as [base|]; [|discriminate].
      intros [= <-]. cbn. repeat split; try assumption.
      eexists. split; [reflexivity|]. now rewrite length_map, length_get_plurals.
Qed.

Lemma i18next_item_follows_target_witness :
  target (mkUnit C_I18NextUnit ".key" (Many [Key "key"; Key "key_plural"]) TStr
                 (JStr EmptyString) JNull (VMulti ["one"; "many"]) [])
  = VMulti ["one"; "many"]
  /\ getid (mkUnit C_I18NextUnit ".key" (Many [Key "key"; Key "key_plural"]) TStr
                   (JStr EmptyString) JNull (VMulti ["one"; "many"]) [])
     = getid (mkUnit C_I18NextUnit ".key" (One (Key "key")) TStr
                     (JStr EmptyString) JNull (VJson (JStr "one")) [])
  /\ cls (mkUnit C_I18NextUnit ".key" (Many [Key "key"; Key "key_plural"]) TStr
                 (JStr EmptyString) JNull (VMulti ["one"; "many"]) [])
     = C_I18NextUnit
  /\ exists names,
       _item (mkUnit C_I18NextUnit ".key" (Many [Key "key"; Key "key_plural"]) TStr
                     (JStr EmptyString) JNull (VMulti ["one"; "many"]) [])
       = Many names
       /\ List.length names = List.length ["one"; "many"]%string.
Proof.
  apply (i18next_item_follows_target
           (mkUnit C_I18NextUnit ".key" (One (Key "key")) TStr
                   (JStr EmptyString) JNull (VJson (JStr "one")) [])
           (mkUnit C_I18NextUnit ".key" (Many [Key "key"; Key "key_plural"]) TStr
                   (JStr EmptyString) JNull (VMulti ["one"; "many"]) [])
           (VMulti ["one"; "many"])); reflexivity.
Defined.

(** X17: the assignment raises exactly when new names have to be made and the
    first name of the unit is not a key (the unit has no name, or was read
    from an array element): for a multistring, when the number of forms
    differs from the number of names; for any other value, when the unit
    holds a list of names.  So a unit read from an array element cannot be
    given a number of forms other than one. *)
Theorem i18next_assignment_raises_without_base (u : Unit) (x : value) :
  cls u = C_I18NextUnit ->
  (set_target u x = None <->
   get_base (match _item u with One n => [n] | Many l => l end) = None
   /\ match x with
      | VMulti strings =>
          List.length strings
          <> List.length (match _item u with One n => [n] | Many l => l end)
      | VJson _ => exists l, _item u = Many l
      end)
  /\ (forall i strings,
         _item u = One (Index i) -> List.length strings <> 1 ->
         set_target u (VMulti strings) = None).
Proof.
  intros Hcls. unfold set_target, I18NextUnit_set_target. rewrite Hcls.
  split.
  - destruct x as [v | strings].
    + destruct (_item u) as [n | l].
      * split; [discriminate | intros [_ [l H]]; discriminate].
      * destruct (get_base l) as [base|]; split; try discriminate; eauto.
        intros [H _]; discriminate.
    + destruct (Nat.eqb_spec (List.length strings)
                  (List.length (match _item u with One n => [n] | Many l => l end)))
        as [E | Hne].
      * split; [discriminate | intros [_ H]; contradiction].
      * destruct (get_base _) as [base|]; split; try discriminate; auto.
        intros [H _]; discriminate.
  - intros i strings -> Hlen. cbn [List.length get_base].
    destruct (Nat.eqb_spec (List.length strings) 1); [contradiction | reflexivity].
Qed.

Lemma i18next_assignment_raises_without_base_witness :
  set_target (mkUnit C_I18NextUnit ".list[0]" (One (Index 0)) TStr
                     (JStr EmptyString) JNull (VJson (JStr "x")) [])
             (VMulti ["one"; "many"]) = None.
Proof.
  apply (proj2 (i18next_assignment_raises_without_base
                  (mkUnit C_I18NextUnit ".list[0]" (One (Index 0)) TStr
                          (JStr EmptyString) JNull (VJson (JStr "x")) [])
                  (VMulti ["one"; "many"]) eq_refl) 0 ["one"; "many"]%string eq_refl).
  simpl. lia.
Defined.

(** ** i18next units: what a plural group writes *)

Lemma plural_entries_fold (ks : list string) : forall (strings : list string) (ret : dict),
  List.length strings <= List.length ks ->
  plural_entries (map Key ks) strings ret
  = Some (fold_left (fun d kv => Dict.set (fst kv) (snd kv) d)
                    (combine ks (map JStr strings)) ret).
Proof.
  induction ks as [|k ks IH]; intros [|s strings] ret Hlen; simpl in *;
    try reflexivity; try lia.
  apply IH. lia.
Qed.

Lemma parent_path (path : list string) (base : string) :
  forallb plain_key (path ++ [base]) = true ->
  removelast (Str.split "." (Str.lstrip "." (render_keys path ++ "." ++ base)))
  = path.
Proof.
  intros Hplain. rewrite <- render_keys_snoc.
  rewrite <- (removelast_last path base) at 2.
  destruct (path ++ [base]) as [|k ks] eqn:E; [now destruct path|].
  cbn [render_keys]. cbn [forallb] in Hplain.
  rewrite lstrip_plain by (now apply andb_true_iff in Hplain).
  rewrite <- (append_empty_r (render_keys ks)).
  rewrite (split_keys EmptyString k ks Hplain eq_refl).
  now rewrite suffix_last_empty.
Qed.

Lemma group_value (rt : Runtime) (u : Unit)
    (path : list string) (base : string) (ks strings : list string) :
  target u = VMulti strings ->
  _item u = Many (map Key ks) ->
  List.length strings <= List.length ks ->
  getid u = (render_keys path ++ "." ++ base)%string ->
  forallb plain_key (path ++ [base]) = true ->
  I18NextUnit_getvalue rt u
  = Some (wrap path (JDict (Dict.of_pairs (combine ks (map JStr strings))))).
Proof.
  intros Htarget Hitem Hlen Hid Hplain.
  unfold I18NextUnit_getvalue. rewrite Htarget, Hitem.
  rewrite (plural_entries_fold ks strings [] Hlen), Hid.
  now rewrite (parent_path path base Hplain).
Qed.

(** X18: a unit of the i18next store that holds a multistring writes one
    object, at the place of its parent: each form under the name at the
    same position, in the order of the names, and nothing under the last
    key of its identifier.  A name that occurs twice keeps its first place
    and its last form. *)
Theorem i18next_group_is_written_under_its_keys (rt : Runtime) (u : Unit)
    (path : list string) (base : string) (ks strings : list string) :
  cls u = C_I18NextUnit ->
  target u = VMulti strings ->
  _item u = Many (map Key ks) ->
  List.length strings <= List.length ks ->
  getid u = (render_keys path ++ "." ++ base)%string ->
  forallb plain_key (path ++ [base]) = true ->
  getvalue rt None u
  = Some (wrap path (JDict (Dict.of_pairs (combine ks (map JStr strings))))).
Proof.
  intros Hcls Htarget Hitem Hlen Hid Hplain.
  unfold getvalue. rewrite Hcls. now apply (group_value rt u path base).
Qed.

Lemma i18next_group_is_written_under_its_keys_witness :
  getvalue example_runtime None
           (mkUnit C_I18NextUnit ".menu.item" (Many [Key "item"; Key "item_plural"])
                   TMultistring (JStr EmptyString) JNull (VMulti ["one"; "many"]) [])
  = Some (JDict [("menu", JDict [("item", JStr "one"); ("item_plural", JStr "many")])]).
Proof.
  apply (i18next_group_is_written_under_its_keys example_runtime
           (mkUnit C_I18NextUnit ".menu.item" (Many [Key "item"; Key "item_plural"])
                   TMultistring (JStr EmptyString) JNull (VMulti ["one"; "many"]) [])
           ["menu"] "item" ["item"; "item_plural"] ["one"; "many"]);
    first [reflexivity | simpl; lia].
Defined.

(** ** i18next: simple plural pairs *)

Lemma rsplit_head_plural k : rsplit_head (k ++ "_plural") = k.
Proof.
  unfold rsplit_head.
  change (k ++ "_plural")%string with (k ++ String "_" "plural")%string.
  now rewrite rsplit1_last.
Qed.

Lemma plural_bases_simple k (d : dict) :
  In (k ++ "_plural")%string (Dict.keys d) -> In k (plural_bases "_plural" d).
Proof.
  intros Hin. unfold plural_bases. apply in_map_iff.
  exists (k ++ "_plural")%string. split.
  - apply rsplit_head_plural.
  - apply filter_In. split; [assumption | apply endswith_suffix].
Qed.

Lemma get_first k v (d : dict) : Dict.get k ((k, v) :: d) = Some v.
Proof. simpl. now rewrite String.eqb_refl. Qed.

(** X19: when the first key [k] of an object does not end with [_plural] and
    the object has the key [k_plural] as well, the i18next extraction reads
    the two as one plural group, at any place of the document and under
    every filter.  With [v] and [v'] the values under [k] and [k_plural]: if
    [multistring([v, v'])] raises, the extraction raises; otherwise the
    extraction is the unit of the group (identifier [prev.k], names [k] and
    [k_plural], the multistring as value) followed by what the loop yields
    for the rest of the items, with [k] and [k_plural] processed and [k]
    taken off the simple plurals.  So an object that holds nothing but the
    pair yields the unit of the group and nothing else. *)
Theorem i18next_simple_pair_is_one_unit (rt : Runtime) (d : dict) (k : string)
    (v v' : json) (rest : dict) (stop : option (list string)) (prev : string)
    (name_node name_last_node : option name) (last_node : option json) :
  d = (k, v) :: rest ->
  Str.endswith k "_plural" = false ->
  Dict.get (k ++ "_plural")%string d = Some v' ->
  (multistring rt [v; v'] = None ->
   JsonFile_extract_units rt C_I18NextUnit true (JDict d) stop prev
                          name_node name_last_node last_node = None)
  /\ (forall x,
        multistring rt [v; v'] = Some x ->
        exists unit ps,
          list_remove k (plural_bases "_plural" d) = Some ps
          /\ unit_summary unit
             = ((prev ++ "." ++ k)%string,
                Many [Key k; Key (k ++ "_plural")%string], x)
          /\ JsonFile_extract_units rt C_I18NextUnit true (JDict d) stop prev
                                    name_node name_last_node last_node
             = option_map (cons unit)
                          (i18next_items rt C_I18NextUnit stop prev d rest
                                         (plural_bases "_0" d) ps
                                         [k; (k ++ "_plural")%string])
          /\ (rest = [((k ++ "_plural")%string, v')] ->
              JsonFile_extract_units rt C_I18NextUnit true (JDict d) stop prev
                                     name_node name_last_node last_node
              = Some [unit])).
Proof.
  intros Hd Hend Hv'.
  assert (Hin : In (k ++ "_plural")%string (Dict.keys d)).
  { apply get_in in Hv'. now apply (in_map fst) in Hv'. }
  pose proof (plural_bases_simple k d Hin) as Hbase.
  destruct (list_remove_In _ _ Hbase) as [ps Hps].
  assert (Hclass :
            classify_key k (plural_bases "_0" d) (plural_bases "_plural" d)
            = Some (Plural [k; (k ++ "_plural")%string] k (plural_bases "_0" d) ps)).
  { unfold classify_key. rewrite (proj2 (list_mem_In _ _) Hbase).
    cbn [orb]. now rewrite Hend, Hps. }
  assert (Ec : collect_plurals d [k; (k ++ "_plural")%string]
               = ([v; v'], [k; (k ++ "_plural")%string])).
  { cbn [collect_plurals]. rewrite Hv'. subst d. now rewrite get_first. }
  assert (E : JsonFile_extract_units rt C_I18NextUnit true (JDict d) stop prev
                                     name_node name_last_node last_node
              = match plural_unit rt C_I18NextUnit [v; v']
                                  [k; (k ++ "_plural")%string] prev k with
                | Some unit =>
                    option_app (Some [unit])
                               (i18next_items rt C_I18NextUnit stop prev d rest
                                              (plural_bases "_0" d) ps
                                              [k; (k ++ "_plural")%string])
                | None => None
                end).
  { rewrite extract_i18next_dict. rewrite Hd at 2. cbn [i18next_items list_mem existsb].
    now rewrite Hclass, Ec. }
  split.
  - intros Hraise. rewrite E. now rewrite (plural_unit_raises _ _ _ _ _ _ Hraise).
  - intros x Hx.
    destruct (plural_unit_some rt [v; v'] [k; (k ++ "_plural")%string] prev k x
                               eq_refl Hx)
      as [unit [Hunit [_ [Hid [Htarget Hitem]]]]].
    exists unit, ps. split; [exact Hps|]. split; [|split].
    + unfold unit_summary. now rewrite Hid, Hitem, Htarget.
    + rewrite E, Hunit.
      now destruct (i18next_items rt C_I18NextUnit stop prev d rest
                                  (plural_bases "_0" d) ps [k; (k ++ "_plural")%string]).
    + intros ->. rewrite E, Hunit. cbn [i18next_items list_mem existsb].
      now rewrite String.eqb_refl, orb_true_r.
Qed.

Lemma i18next_simple_pair_is_one_unit_witness :
  exists unit,
    unit_summary unit
    = (".menu.item", Many [Key "item"; Key "item_plural"], VMulti ["one"; "many"])
    /\ JsonFile_extract_units
         example_runtime C_I18NextUnit true
         (JDict [("item", JStr "one"); ("item_plural", JList [JStr "many"; JStr "more"])])
         (Some []) ".menu" (Some (Key "menu")) None None
       = Some [unit].
Proof.
  destruct (proj2 (i18next_simple_pair_is_one_unit
                     example_runtime
                     [("item", JStr "one");
                      ("item_plural", JList [JStr "many"; JStr "more"])]
                     "item" (JStr "one") (JList [JStr "many"; JStr "more"])
                     [("item_plural", JList [JStr "many"; JStr "more"])]
                     (Some []) ".menu" (Some (Key "menu")) None None
                     eq_refl eq_refl eq_refl)
                  (VMulti ["one"; "many"]) eq_refl)
    as [unit [ps [_ [Hsummary [_ Hall]]]]].
  exists unit. split; [exact Hsummary | now apply Hall].
Defined.

(** ** go-i18n: the plural tags of a store *)

(** X20: the plural tags of a go-i18n store depend on the language of its
    locale only: with a target language [lang_REGION] or [lang-REGION] the
    store has the tags that it has with the target language [lang]. *)
Theorem plural_tags_ignore_region (rt : Runtime) (st st' : Store)
    (lang region : string) (sep : ascii) :
  sep = "_"%char \/ sep = "-"%char ->
  lang <> EmptyString ->
  Str.contains_char "_" lang = false ->
  Str.contains_char "-" lang = false ->
  gettargetlanguage st = Some (lang ++ String sep region)%string ->
  gettargetlanguage st' = Some lang ->
  GoI18NJsonFile_plural_tags rt st = GoI18NJsonFile_plural_tags rt st'.
Proof.
  intros Hsep Hne Hu Hd Hst Hst'. unfold GoI18NJsonFile_plural_tags.
  rewrite Hst, Hst', (locale_of_region lang region sep Hsep Hu Hd).
  rewrite (replace_other _ _ _ Hu), (split_no_separator _ _ Hd). cbn [hd].
  destruct lang as [|a lang]; [congruence|]. reflexivity.
Qed.

Lemma plural_tags_ignore_region_witness :
  GoI18NJsonFile_plural_tags
    example_runtime
    (mkStore F_JsonFile [] None EmptyString (JStr EmptyString) "utf-8" (Some "pt_BR"))
  = GoI18NJsonFile_plural_tags
      example_runtime
      (mkStore F_JsonFile [] None EmptyString (JStr EmptyString) "utf-8" (Some "pt")).
Proof.
  apply (plural_tags_ignore_region example_runtime _ _ "pt" "BR" "_");
    try reflexivity; [now left | discriminate].
Defined.

(** ** go-i18n: writing a store *)

Lemma plural_tags_raise rt st :
  GoI18NJsonFile_plural_tags rt st = None <-> tags_get "en" (plural_tags rt) = None.
Proof.
  unfold GoI18NJsonFile_plural_tags.
  destruct (tags_get "en" (plural_tags rt)) as [default|].
  - destruct (tags_get _ (plural_tags rt)); split; discriminate.
  - split; reflexivity.
Qed.

Lemma translation_raises tags u :
  GoI18NJsonUnit_translation tags u = None
  <-> tags = None /\ exists strings, target u = VMulti strings.
Proof.
  unfold GoI18NJsonUnit_translation.
  destruct (target u) as [v | strings].
  - split; [discriminate | intros [_ [s H]]; discriminate].
  - destruct tags as [tags|].
    + set (padded := if Nat.ltb _ _ then _ else _).
      assert (Hlen : 0 + List.length tags <= List.length padded).
      { subst padded. destruct (Nat.ltb_spec (List.length strings) (List.length tags)).
        - rewrite length_app, repeat_length. lia.
        - lia. }
      rewrite (pair_tags_skipn tags padded 0 Hlen).
      split; [discriminate | intros [H _]; discriminate].
    + split; [eauto | reflexivity].
Qed.

Lemma go_getvalue_raises tags u :
  GoI18NJsonUnit_getvalue tags u = None
  <-> tags = None /\ exists strings, target u = VMulti strings.
Proof.
  rewrite <- translation_raises. unfold GoI18NJsonUnit_getvalue.
  destruct (GoI18NJsonUnit_translation tags u); split; congruence.
Qed.

Lemma serialize_units_raise tags us :
  GoI18NJsonFile_serialize_units tags us = None
  <-> exists u, In u us /\ GoI18NJsonUnit_getvalue tags u = None.
Proof.
  induction us as [|u us IH]; cbn [GoI18NJsonFile_serialize_units].
  - split; [discriminate | intros [u [[] _]]].
  - destruct (GoI18NJsonUnit_getvalue tags u) as [v|] eqn:Ev.
    + destruct (GoI18NJsonFile_serialize_units tags us) as [vs|].
      * split; [discriminate|]. intros [u' [[<- | Hin] H]]; [congruence|].
        assert (Hex : exists u, In u us /\ GoI18NJsonUnit_getvalue tags u = None)
          by eauto.
        apply IH in Hex. discriminate.
      * split; [|reflexivity]. intros _.
        destruct (proj1 IH eq_refl) as [u' [Hin H]]. exists u'. split; [now right | exact H].
    + split; [|reflexivity]. intros _. exists u. split; [now left | exact Ev].
Qed.

(** X21: writing a go-i18n store raises in one case only: a unit holds a
    multistring and the table of plural tags has no entry for [en].  The
    forms of a multistring never run out, whatever their number, and a store
    in which no unit is plural does not read the plural tags at all. *)
Theorem go_i18n_serialize_raises_only_without_english (rt : Runtime) (st : Store) :
  GoI18NJsonFile_serialize rt st = None
  <-> tags_get "en" (plural_tags rt) = None
      /\ exists u strings, In u (units st) /\ target u = VMulti strings.
Proof.
  unfold GoI18NJsonFile_serialize.
  destruct (GoI18NJsonFile_serialize_units (GoI18NJsonFile_plural_tags rt st) (units st))
    as [records|] eqn:E; cbn [option_map].
  - split; [discriminate|]. intros [Hen [u [strings [Hin Ht]]]].
    assert (Hex : exists u, In u (units st)
                            /\ GoI18NJsonUnit_getvalue
                                 (GoI18NJsonFile_plural_tags rt st) u = None).
    { exists u. split; [assumption|]. apply go_getvalue_raises.
      split; [now apply plural_tags_raise | eauto]. }
    apply serialize_units_raise in Hex. congruence.
  - split; [|reflexivity]. intros _.
    apply serialize_units_raise in E. destruct E as [u [Hin Hv]].
    apply go_getvalue_raises in Hv. destruct Hv as [Htags [strings Ht]].
    split; [now apply (plural_tags_raise rt st) | eauto].
Qed.


Lemma go_record tags u v :
  GoI18NJsonUnit_getvalue tags u = Some v ->
  exists d,
    v = JDict d
    /\ Dict.keys d = go_i18n_record_keys u
    /\ Dict.get "id" d = Some (JStr (getid u))
    /\ Dict.get "description" d = (if truthy (notes u) then Some (notes u) else None)
    /\ GoI18NJsonUnit_translation tags u = Dict.get "translation" d.
Proof.
  unfold GoI18NJsonUnit_getvalue, go_i18n_record_keys.
  destruct (GoI18NJsonUnit_translation tags u) as [translation|]; [|discriminate].
  intros [= <-]. eexists. split; [reflexivity|].
  destruct (truthy (notes u)); repeat split.
Qed.

(** X22: a go-i18n store is written as one record per unit, in the order of
    the units.  Each record starts with the identifier of its unit under
    [id], ends with [translation], and has a [description] in between exactly
    when the unit has notes. *)
Theorem go_i18n_records_follow_units (rt : Runtime) (st : Store) (records : list json) :
  GoI18NJsonFile_serialize rt st = Some (JList records) ->
  Forall2 (fun u record =>
             exists d,
               record = JDict d
               /\ Dict.keys d = go_i18n_record_keys u
               /\ Dict.get "id" d = Some (JStr (getid u))
               /\ Dict.get "description" d
                  = (if truthy (notes u) then Some (notes u) else None)
               /\ GoI18NJsonUnit_translation (GoI18NJsonFile_plural_tags rt st) u
                  = Dict.get "translation" d)
          (units st) records.
Proof.
  unfold GoI18NJsonFile_serialize.
  generalize (GoI18NJsonFile_plural_tags rt st) as tags. intros tags.
  generalize (units st) as us. intros us. revert records.
  induction us as [|u us IH]; intros records; cbn [GoI18NJsonFile_serialize_units].
  - intros [= <-]. constructor.
  - destruct (GoI18NJsonUnit_getvalue tags u) as [v|] eqn:Ev; [|discriminate].
    destruct (GoI18NJsonFile_serialize_units tags us) as [vs|]; [|discriminate].
    intros [= <-]. constructor; [now apply go_record | now apply IH].
Qed.

Lemma go_i18n_records_follow_units_witness :
  Forall2 (fun u record =>
             exists d,
               record = JDict d
               /\ Dict.keys d = go_i18n_record_keys u
               /\ Dict.get "id" d = Some (JStr (getid u))
               /\ Dict.get "description" d
                  = (if truthy (notes u) then Some (notes u) else None)
               /\ GoI18NJsonUnit_translation
                    (GoI18NJsonFile_plural_tags
                       example_runtime
                       (mkStore F_JsonFile
                                [mkUnit C_GoI18NJsonUnit "hello" (One (Key "hello")) TStr
                                        (JStr "a greeting") JNull (VJson (JStr "Hello")) []]
                                None EmptyString (JStr EmptyString) "utf-8" None)) u
                  = Dict.get "translation" d)
          [mkUnit C_GoI18NJsonUnit "hello" (One (Key "hello")) TStr
                  (JStr "a greeting") JNull (VJson (JStr "Hello")) []]
          [JDict [("id", JStr "hello"); ("description", JStr "a greeting");
                  ("translation", JStr "Hello")]].
Proof.
  apply (go_i18n_records_follow_units
           example_runtime
           (mkStore F_JsonFile
                    [mkUnit C_GoI18NJsonUnit "hello" (One (Key "hello")) TStr
                            (JStr "a greeting") JNull (VJson (JStr "Hello")) []]
                    None EmptyString (JStr EmptyString) "utf-8" None)).
  reflexivity.
Defined.

(** ** The round trip of the i18next store, with plurals of two forms *)

Lemma substring_skip (b s : string) i m :
  substring (String.length b + i) m (b ++ s) = substring i m s.
Proof. induction b as [|a b IH]; simpl; [reflexivity | exact IH]. Qed.

Lemma endswith_append (b s suffix : string) :
  String.length suffix <= String.length s ->
  Str.endswith (b ++ s) suffix = Str.endswith s suffix.
Proof.
  intros Hlen. unfold Str.endswith. rewrite length_append.
  replace (String.length b + String.length s - String.length suffix)
    with (String.length b + (String.length s - String.length suffix)) by lia.
  rewrite substring_skip.
  replace (Nat.leb (String.length suffix) (String.length b + String.length s))
    with true by (symmetry; apply Nat.leb_le; lia).
  replace (Nat.leb (String.length suffix) (String.length s))
    with true by (symmetry; apply Nat.leb_le; lia).
  reflexivity.
Qed.

Lemma plural_key_is_not_indexed k : Str.endswith (k ++ "_plural") "_0" = false.
Proof. rewrite endswith_append by (simpl; lia). reflexivity. Qed.

Lemma plural_key_differs k : k <> (k ++ "_plural")%string.
Proof.
  intros E. apply (f_equal String.length) in E. rewrite length_append in E.
  simpl in E. lia.
Qed.

Lemma plural_bases_app suffix (a b : dict) :
  plural_bases suffix (a ++ b) = plural_bases suffix a ++ plural_bases suffix b.
Proof. unfold plural_bases, Dict.keys. now rewrite map_app, filter_app, map_app. Qed.

Lemma plural_bases_of_document es :
  forallb entry_ok es = true ->
  plural_bases "_0" (i18next_document es) = []
  /\ plural_bases "_plural" (i18next_document es) = pair_bases es.
Proof.
  induction es as [|e es IH]; intros Hok; [split; reflexivity|].
  cbn [forallb] in Hok. apply andb_true_iff in Hok. destruct Hok as [He Hes].
  destruct (IH Hes) as [IH0 IHp].
  unfold i18next_document, pair_bases in *. cbn [flat_map].
  rewrite !plural_bases_app, IH0, IHp.
  destruct e as [k v | k a b]; cbn [entry_ok] in He;
    rewrite !andb_true_iff, !negb_true_iff in He.
  - destruct He as [[_ H0] Hp].
    split; unfold plural_bases; cbn [Dict.keys entry_items map fst filter];
      rewrite ?H0, ?Hp; reflexivity.
  - destruct He as [[_ H0] Hp].
    split; unfold plural_bases; cbn [Dict.keys entry_items map fst filter];
      rewrite ?H0, ?Hp, ?plural_key_is_not_indexed, ?endswith_suffix;
      cbn [map app]; rewrite ?rsplit_head_plural; reflexivity.
Qed.

Lemma classify_plain k ps :
  list_mem k ps = false -> list_mem (k ++ "_plural") ps = false ->
  classify_key k [] ps = Some Ordinary.
Proof.
  intros H1 H2. unfold classify_key. rewrite H1, H2. cbn [orb list_mem existsb andb].
  destruct (if Str.contains_char "_" k then Str.rsplit1 "_" k else None)
    as [[plural_base digit]|]; reflexivity.
Qed.

Lemma classify_pair k ps :
  Str.endswith k "_plural" = false ->
  classify_key k [] (k :: ps)
  = Some (Plural [k; (k ++ "_plural")%string] k [] ps).
Proof.
  intros H. unfold classify_key. rewrite H. cbn [list_mem existsb list_remove].
  now rewrite String.eqb_refl.
Qed.

Lemma in_pair_bases k es :
  In k (pair_bases es) <-> exists a b, In (Pair k a b) es.
Proof.
  unfold pair_bases. rewrite in_flat_map. split.
  - intros [[k' v | k' a b] [Hin Hk]]; [contradiction|].
    destruct Hk as [<- | []]. eauto.
  - intros [a [b Hin]]. exists (Pair k a b). split; [assumption | now left].
Qed.

Lemma pair_bases_are_keys k es :
  In k (pair_bases es) -> In k (Dict.keys (i18next_document es)).
Proof.
  intros H. apply in_pair_bases in H. destruct H as [a [b Hin]].
  unfold Dict.keys, i18next_document. apply in_map_iff.
  exists (k, JStr a). split; [reflexivity|]. apply in_flat_map.
  exists (Pair k a b). split; [assumption | now left].
Qed.

Lemma i18next_entries_round_trip rt (d : dict) :
  NoDup (Dict.keys d) ->
  forall es processed,
    forallb entry_ok es = true ->
    NoDup (Dict.keys (i18next_document es)) ->
    (forall kv, In kv (i18next_document es) -> In kv d) ->
    (forall k, In k (Dict.keys (i18next_document es)) -> ~ In k processed) ->
    exists us,
      i18next_items rt C_I18NextUnit None EmptyString d (i18next_document es)
                    [] (pair_bases es) processed = Some us
      /\ forall acc : dict,
           NoDup (Dict.keys (acc ++ i18next_document es)) ->
           fold_left add_fragment (map (getvalue rt None) us) (Some acc)
           = Some (acc ++ i18next_document es).
Proof.
  intros Hd. induction es as [|e es IH]; intros processed Hok Hnd Hsub Hfresh.
  - exists []. split; [reflexivity|]. intros acc _. simpl. now rewrite app_nil_r.
  - cbn [forallb] in Hok. apply andb_true_iff in Hok. destruct Hok as [He Hes].
    destruct e as [k v | k a b].
    + change (i18next_document (Single k v :: es))
        with ((k, v) :: i18next_document es) in *.
      change (pair_bases (Single k v :: es)) with (pair_bases es).
      cbn [entry_ok] in He. rewrite !andb_true_iff, !negb_true_iff in He.
      destruct He as [[[[Hk Hv] Hno] _] _].
      cbn [Dict.keys map fst] in Hnd, Hfresh.
      inversion Hnd as [|? ? Hfirst Hnd']; subst.
      assert (Hmem : list_mem k processed = false).
      { destruct (list_mem k processed) eqn:E; [|reflexivity].
        apply list_mem_In in E. exfalso. apply (Hfresh k); [now left | assumption]. }
      assert (Hclass : classify_key k [] (pair_bases es) = Some Ordinary).
      { apply classify_plain.
        - destruct (list_mem k (pair_bases es)) eqn:E; [|reflexivity].
          apply list_mem_In, pair_bases_are_keys in E. contradiction.
        - destruct (list_mem (k ++ "_plural") (pair_bases es)) eqn:E; [|reflexivity].
          apply list_mem_In, in_pair_bases in E. destruct E as [a [b Hin]].
          rewrite forallb_forall in Hes. specialize (Hes _ Hin).
          cbn [entry_ok] in Hes. rewrite !andb_true_iff, !negb_true_iff in Hes.
          destruct Hes as [_ Hend]. rewrite endswith_suffix in Hend. discriminate. }
      cbn [i18next_items]. rewrite Hmem, Hclass.
      rewrite (i18next_walk_is_generic rt C_I18NextUnit v Hno).
      pose proof (walk_maps_leaves rt C_I18NextUnit (getvalue rt None)
                    (fun prev data => Some (fragment prev data))
                    (fun data nn prev u => i18next_getvalue_of_leaf rt data nn prev u)
                    v ("" ++ "." ++ k)%string (Some (Key k)) None (Some (JDict d)))
        as Hwalk.
      destruct (JsonFile_extract_units rt C_I18NextUnit false v None
                  ("" ++ "." ++ k)%string (Some (Key k)) None (Some (JDict d)))
        as [us1|]; [|discriminate].
      cbn [option_map] in Hwalk. injection Hwalk as Hwalk.
      destruct (IH processed Hes Hnd'
                   (fun kv H => Hsub kv (or_intror H))
                   (fun k0 H => Hfresh k0 (or_intror H)))
        as [us2 [Hus2 Hfold2]].
      exists (us1 ++ us2). rewrite Hus2. split; [reflexivity|].
      intros acc Hacc. rewrite map_app, fold_left_app, Hwalk.
      assert (Hacc' : NoDup (Dict.keys ((acc ++ [(k, v)]) ++ i18next_document es)))
        by now rewrite <- app_assoc.
      assert (Hacc1 : NoDup (Dict.keys (acc ++ [(k, v)]))).
      { unfold Dict.keys in *. rewrite map_app in Hacc'.
        now apply NoDup_app_remove_r in Hacc'. }
      pose proof (fragments_of_document [(k, v)] acc Hacc1) as Hfrag.
      cbn [forallb fst snd leaves flat_map] in Hfrag.
      rewrite Hk, Hv, app_nil_r, map_map in Hfrag. specialize (Hfrag eq_refl).
      rewrite (map_ext _ (fun leaf =>
                            Some (fragment ("" ++ render (fst (under (ObjectKey k) leaf)))
                                           (snd (under (ObjectKey k) leaf)))))
        by (intros [p x]; reflexivity).
      rewrite Hfrag. etransitivity; [exact (Hfold2 _ Hacc')|].
      now rewrite <- app_assoc.
    + change (i18next_document (Pair k a b :: es))
        with ((k, JStr a) :: ((k ++ "_plural")%string, JStr b) :: i18next_document es)
        in *.
      change (pair_bases (Pair k a b :: es)) with (k :: pair_bases es).
      cbn [entry_ok] in He. rewrite !andb_true_iff, !negb_true_iff in He.
      destruct He as [[Hk _] Hend].
      cbn [Dict.keys map fst] in Hnd, Hfresh.
      inversion Hnd as [|? ? Hfirst Hnd1]; subst.
      inversion Hnd1 as [|? ? Hsecond Hnd']; subst.
      assert (Hmem : list_mem k processed = false).
      { destruct (list_mem k processed) eqn:E; [|reflexivity].
        apply list_mem_In in E. exfalso. apply (Hfresh k); [now left | assumption]. }
      assert (Hone : Dict.get k d = Some (JStr a))
        by (apply get_in_nodup; [assumption | apply Hsub; now left]).
      assert (Hmany : Dict.get (k ++ "_plural")%string d = Some (JStr b))
        by (apply get_in_nodup; [assumption | apply Hsub; right; now left]).
      destruct (plural_unit_some rt [JStr a; JStr b] [k; (k ++ "_plural")%string]
                                 EmptyString k (VMulti [a; b]) eq_refl eq_refl)
        as [unit [Hunit [Hcls [Hid [Htarget Hitem]]]]].
      assert (Hseen : list_mem (k ++ "_plural")
                               (processed ++ [k; (k ++ "_plural")%string]) = true).
      { apply list_mem_In, in_or_app. right. right. now left. }
      destruct (IH (processed ++ [k; (k ++ "_plural")%string]) Hes Hnd'
                   (fun kv H => Hsub kv (or_intror (or_intror H))))
        as [us2 [Hus2 Hfold2]].
      { intros k0 Hin Hin'. apply in_app_or in Hin'.
        destruct Hin' as [Hp | [<- | [<- | []]]].
        - apply (Hfresh k0); [right; now right | assumption].
        - apply Hfirst. now right.
        - contradiction. }
      exists (unit :: us2).
      cbn [i18next_items]. rewrite Hmem, (classify_pair k _ Hend).
      cbn [collect_plurals]. rewrite Hone, Hmany, Hunit, Hseen, Hus2.
      split; [reflexivity|].
      intros acc Hacc. cbn [map fold_left].
      assert (Hvalue : getvalue rt None unit
                       = Some (JDict [(k, JStr a); ((k ++ "_plural")%string, JStr b)])).
      { unfold getvalue. rewrite Hcls.
        rewrite (group_value rt unit [] k [k; (k ++ "_plural")%string] [a; b]);
          [ | exact Htarget | exact Hitem | simpl; lia | exact Hid
            | cbn [app forallb]; now rewrite Hk ].
        cbn [wrap fold_right combine map]. do 2 f_equal. apply of_pairs_nodup.
        cbn [map fst]. constructor; [|constructor; [intros [] | constructor]].
        intros [E | []]. symmetry in E. now apply plural_key_differs in E. }
      rewrite Hvalue. cbn [add_fragment].
      assert (Hacc' : NoDup (Dict.keys ((acc ++ [(k, JStr a);
                                                 ((k ++ "_plural")%string, JStr b)])
                                        ++ i18next_document es))).
      { rewrite <- app_assoc. exact Hacc. }
      assert (Hacc1 : NoDup (Dict.keys (acc ++ [(k, JStr a);
                                                ((k ++ "_plural")%string, JStr b)]))).
      { unfold Dict.keys in *. rewrite map_app in Hacc'.
        now apply NoDup_app_remove_r in Hacc'. }
      rewrite merge_disjoint.
      * etransitivity; [exact (Hfold2 _ Hacc')|]. now rewrite <- app_assoc.
      * unfold Dict.keys in *. rewrite map_app in Hacc1.
        now apply NoDup_app_remove_l in Hacc1.
      * intros k0 Hk0 Hk0'. unfold Dict.keys in *. rewrite map_app in Hacc1.
        now apply (NoDup_app_disjoint _ _ Hacc1 k0 Hk0').
Qed.

(** X23: the i18next store writes back as it read it, when no unit is edited,
    an object with distinct keys made of ordinary items and of plurals of two
    forms, each plural being a key [k] with a text immediately followed by
    [k_plural] with a text: the two come back as two items, in their place
    and order.  The ordinary items are those that the nested store writes
    back; no key ends with [_0], and none with [_plural] but the second key
    of a plural. *)
Theorem i18next_round_trip_with_plural_pairs (rt : Runtime)
    (es : list i18next_entry) :
  forallb entry_ok es = true ->
  distinct (Dict.keys (i18next_document es)) = true ->
  round_trip rt F_I18NextFile (JDict (i18next_document es))
  = Some (JDict (i18next_document es)).
Proof.
  intros Hok Hd. apply distinct_NoDup in Hd.
  destruct (plural_bases_of_document es Hok) as [H0 Hp].
  destruct (i18next_entries_round_trip rt (i18next_document es) Hd es [] Hok Hd
              (fun kv H => H) (fun k _ H => H)) as [us [Hus Hfold]].
  unfold round_trip. cbn [_extract_units UnitClass].
  rewrite extract_i18next_dict, H0, Hp, Hus.
  unfold JsonFile_serialize, store_of. rewrite units_fold_addunit.
  cbn [units new_store app]. rewrite merge_units_fold.
  exact (f_equal (option_map JDict) (Hfold [] Hd)).
Qed.

Lemma i18next_round_trip_with_plural_pairs_witness :
  round_trip example_runtime F_I18NextFile
             (JDict [("title", JStr "Inbox"); ("item", JStr "one message");
                     ("item_plural", JStr "many messages")])
  = Some (JDict [("title", JStr "Inbox"); ("item", JStr "one message");
                 ("item_plural", JStr "many messages")]).
Proof.
  apply (i18next_round_trip_with_plural_pairs
           example_runtime
           [Single "title" (JStr "Inbox"); Pair "item" "one message" "many messages"]);
    reflexivity.
Defined.
